(** * Tatua ticketing: query evaluator, grid engine, storage strategies

    A shallow embedding of the JavaScript sources
    - [js/services/old table/table.js]  (processData, buildODataQuery, fetchData,
      the pagination and update methods of the old grid, escapeHtml,
      processTickets, MemoryStorage, PersistentStorage),
    - [js/table.js]                     (fetchServerData, renderPagination,
      setupModal, getState),
    - [js/app.js], [js/main.js]         (resetSorters, resetFilters,
      applyFilters, loadTickets),
    - [js/components/validation.js]     (validateField, validateForm),
    - [js/services/crypto.js]           (encryptAES, decryptAES).

    Conventions.  A JavaScript string is a [string]: a sequence of code units
    below 256.  A number is an integer [Z] (the integer-valued doubles of the
    safe range); NaN only arises as the result of a conversion and is the
    [None] of [ToNumber].  A record (ticket) is a finite map from field names
    to values, its own members; reading a field the record has no member for
    gives the member inherited from [Object.prototype] if there is one of
    that name, and [VUndef] otherwise. *)

From Stdlib Require Import ZArith Ascii String List Lia Bool.
From Stdlib Require Import DecimalString Sorting.Sorted Sorting.Permutation.
From stdpp Require Import base option list gmap strings countable.


Local Open Scope Z_scope.

(** ** JavaScript values *)

Inductive JsVal : Type :=
| VUndef
| VNull
| VBool (b : bool)
| VNum (n : Z)
| VStr (s : string).

#[global] Instance JsVal_eq_dec : EqDecision JsVal.
Proof. solve_decision. Defined.

(** Truthiness, as used by [x || y]. *)
Definition truthy (v : JsVal) : bool :=
  match v with
  | VUndef | VNull => false
  | VBool b => b
  | VNum n => negb (n =? 0)
  | VStr s => negb (String.eqb s "")
  end.

(** [a || b] *)
Definition js_or (a b : JsVal) : JsVal := if truthy a then a else b.

(** The method call [v.toString()]; it throws a TypeError on [undefined] and
    [null], which is the [None] here. *)
Definition toStringMethod (v : JsVal) : option string :=
  match v with
  | VUndef | VNull => None
  | VBool true => Some "true"
  | VBool false => Some "false"
  | VNum n => Some (NilZero.string_of_int (Z.to_int n))
  | VStr s => Some s
  end.

(** ** String primitives *)

Module JsString.

(** [String.prototype.toLowerCase] on code units below 256: the ASCII
    capitals and the Latin-1 capitals (all of 192..222 but the
    multiplication sign 215) move up by 32. *)
Definition lowerUnit (c : ascii) : ascii :=
  let n := nat_of_ascii c in
  if ((65 <=? n) && (n <=? 90))%nat then ascii_of_nat (n + 32)
  else if ((192 <=? n) && (n <=? 222) && negb (n =? 215))%nat
       then ascii_of_nat (n + 32)
  else c.

Fixpoint toLowerCase (s : string) : string :=
  match s with
  | EmptyString => EmptyString
  | String c s' => String (lowerUnit c) (toLowerCase s')
  end.

(** [s.startsWith(p)] *)
Fixpoint startsWith (s p : string) {struct p} : bool :=
  match p with
  | EmptyString => true
  | String c p' =>
      match s with
      | EmptyString => false
      | String d s' => Ascii.eqb d c && startsWith s' p'
      end
  end.

(** [s.includes(p)]: [p] occurs at some position of [s]. *)
Fixpoint includes (s p : string) : bool :=
  startsWith s p ||
  match s with
  | EmptyString => false
  | String _ s' => includes s' p
  end.

(** [s.endsWith(p)]: [p] occurs at position [length s - length p]. *)
Fixpoint endsWith (s p : string) : bool :=
  String.eqb s p ||
  match s with
  | EmptyString => false
  | String _ s' => endsWith s' p
  end.

(** The relational operator [s < t] on two strings: lexicographic on code
    units. *)
Definition lt (s t : string) : bool :=
  match String.compare s t with Lt => true | _ => false end.

End JsString.

(** ** Records and rules *)

(** A ticket is a JavaScript object used as a map: its own members.  Every
    ticket is a plain object (an object literal, a spread or a result of
    [JSON.parse]), so its prototype is [Object.prototype]. *)
Abbreviation Ticket := (gmap string JsVal).

(** The members of [Object.prototype] that are functions named as their
    key. *)
Definition prototypeMethods : list string :=
  ["__defineGetter__"; "__defineSetter__"; "hasOwnProperty"; "__lookupGetter__";
   "__lookupSetter__"; "isPrototypeOf"; "propertyIsEnumerable"; "toString";
   "valueOf"; "toLocaleString"].

(** What a ticket inherits under a name: [constructor] is the function
    [Object], [__proto__] reads the prototype object and the other ten
    members are methods; there is nothing under any other name.

    An inherited member is an object.  The code does three things with the
    value of a field: it tests it for truthiness ([|| '']), calls
    [toString()] on it, and compares it with [<] and [>], which first convert
    an object to the text its [toString] gives.  An object is truthy and none
    of these texts is empty, so each of the three treats the object as the
    string of that text, and the member is given here as that string: the
    source text of a built-in function as V8 prints it, and
    ['[object Object]'] for the prototype object. *)
Definition ObjectPrototype (name : string) : option JsVal :=
  if String.eqb name "constructor"
  then Some (VStr "function Object() { [native code] }")
  else if String.eqb name "__proto__"
  then Some (VStr "[object Object]")
  else if existsb (String.eqb name) prototypeMethods
  then Some (VStr ("function " +:+ name +:+ "() { [native code] }"))
  else None.

(** [ticket[column]]: the ticket's own member, else the inherited one, else
    [undefined]. *)
Definition getField (t : Ticket) (column : string) : JsVal :=
  match t !! column with
  | Some v => v
  | None => default VUndef (ObjectPrototype column)
  end.

(** [{ column, relation, value }] *)
Record FilterRule : Type := mkFilter {
  f_column : string;
  f_relation : string;
  f_value : JsVal
}.

(** [{ column, order }] *)
Record SortRule : Type := mkSorter {
  s_column : string;
  s_order : string
}.

#[global] Instance FilterRule_eq_dec : EqDecision FilterRule.
Proof. solve_decision. Defined.
#[global] Instance SortRule_eq_dec : EqDecision SortRule.
Proof. solve_decision. Defined.

(** ** Query evaluator: the filter callback *)

(** [(v || '').toString().toLowerCase()].  The receiver of [toString] is
    never [undefined] or [null] behind [|| ''] (lemma [fieldText_defined]),
    so the TypeError arm is dead. *)
Definition fieldText (v : JsVal) : string :=
  match toStringMethod (js_or v (VStr "")) with
  | Some s => JsString.toLowerCase s
  | None => ""
  end.

(** The body of [filters.every(filter => ...)] for one rule. *)
Definition matchesFilter (ticket : Ticket) (filter : FilterRule) : bool :=
  let ticketValue := fieldText (getField ticket (f_column filter)) in
  let filterValue := fieldText (f_value filter) in
  if String.eqb (f_relation filter) "equals" then String.eqb ticketValue filterValue
  else if String.eqb (f_relation filter) "contains" then JsString.includes ticketValue filterValue
  else if String.eqb (f_relation filter) "startsWith" then JsString.startsWith ticketValue filterValue
  else if String.eqb (f_relation filter) "endsWith" then JsString.endsWith ticketValue filterValue
  else true.

(** [filters.every(...)] *)
Definition matchesAll (filters : list FilterRule) (ticket : Ticket) : bool :=
  forallb (matchesFilter ticket) filters.

(** The filter phase of [processTickets] / [processData] / [loadTickets]:
    [if (filters.length > 0) processed = processed.filter(...)]. *)
Definition filterPhase (tickets : list Ticket) (filters : list FilterRule)
  : list Ticket :=
  if (0 <? Z.of_nat (length filters))
  then List.filter (matchesAll filters) tickets
  else tickets.

(** ** Query evaluator: the sort comparator *)

Module JsNumber.

(** White space of [StringToNumber] among the code units below 256:
    TAB, LF, VT, FF, CR, SP and NBSP. *)
Definition isWhite (c : ascii) : bool :=
  let n := nat_of_ascii c in
  (((9 <=? n) && (n <=? 13)) || (n =? 32) || (n =? 160))%nat.

Definition digitValue (c : ascii) : option Z :=
  let n := nat_of_ascii c in
  if ((48 <=? n) && (n <=? 57))%nat then Some (Z.of_nat n - 48) else None.

Fixpoint allWhite (s : string) : bool :=
  match s with
  | EmptyString => true
  | String c s' => isWhite c && allWhite s'
  end.

(** The digits after the first one, then trailing white space only. *)
Fixpoint digits (acc : Z) (s : string) : option Z :=
  match s with
  | EmptyString => Some acc
  | String c s' =>
      match digitValue c with
      | Some d => digits (10 * acc + d) s'
      | None => if allWhite s then Some acc else None
      end
  end.

Definition unsignedLiteral (s : string) : option Z :=
  match s with
  | EmptyString => None
  | String c s' =>
      match digitValue c with
      | Some d => digits d s'
      | None => None
      end
  end.

Definition signedLiteral (s : string) : option Z :=
  match s with
  | String "+" s' => unsignedLiteral s'
  | String "-" s' => Z.opp <$> unsignedLiteral s'
  | _ => unsignedLiteral s
  end.

(** [StringToNumber], for the integer numbers of this model: white space
    is trimmed, the empty string is 0, a signed run of decimal digits is its
    value, anything else is NaN ([None]).  The other spellings of a numeric
    literal (fraction, exponent, radix prefix, Infinity) either denote
    numbers outside the integers or are alternative spellings; they are
    outside this model and no theorem below depends on them. *)
Fixpoint StringToNumber (s : string) : option Z :=
  match s with
  | EmptyString => Some 0
  | String c s' => if isWhite c then StringToNumber s' else signedLiteral s
  end.

(** [ToNumber(v)]; [None] is NaN. *)
Definition ToNumber (v : JsVal) : option Z :=
  match v with
  | VUndef => None
  | VNull => Some 0
  | VBool b => Some (if b then 1 else 0)
  | VNum n => Some n
  | VStr s => StringToNumber s
  end.

End JsNumber.

(** [a < b]: two strings compare by code units, every other pair is
    converted with [ToNumber] and a NaN on either side makes the comparison
    false. *)
Definition js_lt (a b : JsVal) : bool :=
  match a, b with
  | VStr s, VStr t => JsString.lt s t
  | _, _ =>
      match JsNumber.ToNumber a, JsNumber.ToNumber b with
      | Some x, Some y => x <? y
      | _, _ => false
      end
  end.

(** [a > b] is [b < a]. *)
Definition js_gt (a b : JsVal) : bool := js_lt b a.

(** [let comparison = 0; if (valA > valB) comparison = 1;
     else if (valA < valB) comparison = -1;] *)
Definition comparison (valA valB : JsVal) : Z :=
  if js_gt valA valB then 1 else if js_lt valA valB then -1 else 0.

(** The comparator passed to [sort]:
    [for (const sorter of sorters) { ...;
       if (comparison !== 0) return sorter.order === 'asc' ? comparison : -comparison; }
     return 0;] *)
Fixpoint compareTickets (sorters : list SortRule) (a b : Ticket) : Z :=
  match sorters with
  | [] => 0
  | sorter :: rest =>
      let c := comparison (getField a (s_column sorter)) (getField b (s_column sorter)) in
      if negb (c =? 0)
      then (if String.eqb (s_order sorter) "asc" then c else - c)
      else compareTickets rest a b
  end.

(** ** [Array.prototype.sort]

    The language specifies a stable sort: with a consistent comparator the
    result is the one permutation that is ordered by the comparator and keeps
    equal elements in their input order; with an inconsistent comparator the
    order is left to the engine.  The model is the stable insertion sort: an
    element moves right past the elements it compares greater than. *)
Section ArraySort.
Context {A : Type} (comparefn : A -> A -> Z).

Fixpoint sortInsert (x : A) (l : list A) : list A :=
  match l with
  | [] => [x]
  | y :: l' => if 0 <? comparefn x y then y :: sortInsert x l' else x :: l
  end.

Definition arraySort (l : list A) : list A := foldr sortInsert [] l.
End ArraySort.

(** The sort phase of [processTickets]. *)
Definition sortPhase (tickets : list Ticket) (sorters : list SortRule)
  : list Ticket :=
  arraySort (compareTickets sorters) tickets.

(** [processTickets(tickets, filters, sorters)], on the contents of the
    arrays. *)
Definition processTickets (tickets : list Ticket) (filters : list FilterRule)
    (sorters : list SortRule) : list Ticket :=
  let processedTickets := tickets in
  let processedTickets := filterPhase processedTickets filters in
  sortPhase processedTickets sorters.

(** [processData] of the old grid has the same body. *)
Definition processData (data : list Ticket) (filters : list FilterRule)
    (sorters : list SortRule) : list Ticket :=
  let processedData := data in
  let processedData := filterPhase processedData filters in
  sortPhase processedData sorters.

(** ** Arrays in the store

    An array is an object: [processTickets] receives a reference, copies the
    array ([[...tickets]]), lets [filter] allocate a further array and sorts
    the last one in place.  The store maps a reference (an index) to the
    contents of the array it names. *)

Abbreviation Store := (list (list Ticket)).



(** ** Specification vocabulary for the filter *)

(** [String(v)] *)
Definition ToString (v : JsVal) : string :=
  match v with
  | VUndef => "undefined"
  | VNull => "null"
  | VBool true => "true"
  | VBool false => "false"
  | VNum n => NilZero.string_of_int (Z.to_int n)
  | VStr s => s
  end.




(** [Kept P l l']: [l'] is [l] with exactly the elements that fail [P]
    removed, order and repetitions kept. *)
Inductive Kept {A : Type} (P : A -> Prop) : list A -> list A -> Prop :=
| Kept_nil : Kept P [] []
| Kept_keep x l l' : P x -> Kept P l l' -> Kept P (x :: l) (x :: l')
| Kept_drop x l l' : ~ P x -> Kept P l l' -> Kept P (x :: l) l'.



(** ** Specification vocabulary for the sort *)

(** The two records compare equal under the rule. *)
Definition EqualUnder (sorter : SortRule) (a b : Ticket) : Prop :=
  comparison (getField a (s_column sorter)) (getField b (s_column sorter)) = 0.

Definition EqualUnderAll (sorters : list SortRule) (a b : Ticket) : Prop :=
  Forall (fun sorter => EqualUnder sorter a b) sorters.

#[global] Instance EqualUnderAll_dec sorters a b : Decision (EqualUnderAll sorters a b).
Proof. unfold EqualUnderAll, EqualUnder. apply _. Defined.

(** The rule alone puts [a] before [b]: [a < b] when ascending, [a > b]
    for any other order. *)
Definition RuleBefore (sorter : SortRule) (a b : Ticket) : Prop :=
  let valA := getField a (s_column sorter) in
  let valB := getField b (s_column sorter) in
  if String.eqb (s_order sorter) "asc" then js_lt valA valB = true
  else js_gt valA valB = true.

(** The tie-break chain puts [a] before [b]: the first rule under which
    they are not equal does. *)
Inductive Before : list SortRule -> Ticket -> Ticket -> Prop :=
| Before_here sorter rest a b :
    RuleBefore sorter a b -> Before (sorter :: rest) a b
| Before_later sorter rest a b :
    EqualUnder sorter a b -> Before rest a b -> Before (sorter :: rest) a b.

(** Values that the relational operators order totally among themselves:
    strings (by code units), and the values that convert to a number without
    parsing (null, booleans, numbers). *)
Definition isString (v : JsVal) : bool :=
  match v with VStr _ => true | _ => false end.

Definition isNumeric (v : JsVal) : bool :=
  match v with VNull | VBool _ | VNum _ => true | _ => false end.

Definition comparableColumn (tickets : list Ticket) (column : string) : bool :=
  forallb (fun t => isString (getField t column)) tickets ||
  forallb (fun t => isNumeric (getField t column)) tickets.

Definition comparableColumns (tickets : list Ticket) (sorters : list SortRule)
  : bool :=
  forallb (fun sorter => comparableColumn tickets (s_column sorter)) sorters.

(** The comparison of two field values in the words of the specification:
    [undefined] is the lowest value, values of one type compare in the
    order of the type, values of mixed types compare as strings. *)
Definition statedComparison (valA valB : JsVal) : Z :=
  let ofCompare (c : Datatypes.comparison) : Z :=
    match c with Lt => -1 | Eq => 0 | Gt => 1 end in
  match valA, valB with
  | VUndef, VUndef => 0
  | VUndef, _ => -1
  | _, VUndef => 1
  | VNum x, VNum y => ofCompare (x ?= y)
  | _, _ => ofCompare (String.compare (ToString valA) (ToString valB))
  end.

(** ** Sample records *)

Module Sample.
Definition ticketA : Ticket :=
  {[ "id" := VStr "TKT-A"; "fullName" := VStr "Ada";
     "subject" := VStr "Login Bug"; "dateCreated" := VStr "2025-01-01T10:00:00.000Z" ]}.
Definition ticketB : Ticket :=
  {[ "id" := VStr "TKT-B"; "fullName" := VStr "Bob";
     "subject" := VStr "Billing"; "dateCreated" := VStr "2025-02-01T10:00:00.000Z" ]}.
Definition ticketC : Ticket :=
  {[ "id" := VStr "TKT-C"; "fullName" := VStr "Cy";
     "subject" := VStr "bug in export"; "dateCreated" := VStr "2025-01-15T10:00:00.000Z" ]}.

Definition subjectContainsBug : FilterRule := mkFilter "subject" "contains" (VStr "BUG").
Definition newestFirst : SortRule := mkSorter "dateCreated" "desc".


(** Three records of which the middle one lacks the sort column. *)
Definition keyB : Ticket := {[ "k" := VStr "b" ]}.
Definition keyNone : Ticket := ∅.
Definition keyA : Ticket := {[ "k" := VStr "a" ]}.
Definition byKeyAsc : SortRule := mkSorter "k" "asc".
End Sample.

(** A rule whose relation is none of the four the comparator names. *)
Definition unknownRelation (rule : FilterRule) : Prop :=
  f_relation rule <> "equals" /\ f_relation rule <> "contains" /\
  f_relation rule <> "startsWith" /\ f_relation rule <> "endsWith".

Definition knownRelation (rule : FilterRule) : Prop :=
  f_relation rule = "equals" \/ f_relation rule = "contains" \/
  f_relation rule = "startsWith" \/ f_relation rule = "endsWith".

(** ** Numbers and arrays of the runtime *)

(** [Math.ceil(a / b)] for integers and [b] other than 0 (the quotient by 0
    is not a finite number and is outside the model). *)
Definition ceilDiv (a b : Z) : Z := - ((- a) / b).

(** [array.slice(start, end)], negative indices counting from the end. *)
Definition slice {A : Type} (l : list A) (start final : Z) : list A :=
  let len := Z.of_nat (List.length l) in
  let k := if start <? 0 then Z.max (len + start) 0 else Z.min start len in
  let e := if final <? 0 then Z.max (len + final) 0 else Z.min final len in
  firstn (Z.to_nat (e - k)) (skipn (Z.to_nat k) l).

(** ** The local data provider: [fetchData] of the old grid *)

Module OldTable.

Record Pagination : Type := {
  enabled : bool;
  pageSize : Z
}.

Record Settings : Type := {
  data : list Ticket;
  dataSource : option string;
  serverSide : bool;
  filters : list FilterRule;
  sorters : list SortRule;
  pagination : Pagination
}.

Record State : Type := {
  displayedData : list Ticket;
  totalCount : Z;
  totalPages : Z;
  currentPage : Z
}.

(** What the network answers in server-side mode: [fetch] rejects or the
    status is not ok (both end in the [catch]), or a body with its [value]
    and ['@odata.count'] members, [None] standing for a missing or falsy
    member. *)
Inductive ServerReply : Type :=
| ReplyFails
| ReplyBody (value : option (list Ticket)) (count : option Z).

Definition fetchData (settings : Settings) (reply : ServerReply) (state : State)
  : State :=
  let finish (displayed : list Ticket) (count : Z) : State :=
    {| displayedData := displayed;
       totalCount := count;
       totalPages := if enabled (pagination settings)
                     then ceilDiv count (pageSize (pagination settings))
                     else 1;
       currentPage := currentPage state |} in
  if serverSide settings then
    match dataSource settings with
    | None => state
    | Some _ =>
        match reply with
        | ReplyBody value count =>
            let displayed := default [] value in
            let count :=
              match count with
              | Some c => if c =? 0 then Z.of_nat (List.length displayed) else c
              | None => Z.of_nat (List.length displayed)
              end in
            finish displayed count
        | ReplyFails => finish [] 0
        end
    end
  else
    let fullProcessed := processData (data settings) (filters settings) (sorters settings) in
    let count := Z.of_nat (List.length fullProcessed) in
    if enabled (pagination settings) then
      let start := (currentPage state - 1) * pageSize (pagination settings) in
      finish (slice fullProcessed start (start + pageSize (pagination settings))) count
    else finish fullProcessed count.

End OldTable.

Module SampleGrid.
Import OldTable.

(** Five records of which the first, third and fifth have a subject
    with "bug" in it. *)
Definition rec (id subject : string) : Ticket :=
  {[ "id" := VStr id; "subject" := VStr subject ]}.

Definition five : list Ticket :=
  [rec "1" "Bug: login"; rec "2" "billing"; rec "3" "export bug";
   rec "4" "question"; rec "5" "debug build"].

Definition settings : Settings :=
  {| data := five; dataSource := None; serverSide := false;
     filters := [mkFilter "subject" "contains" (VStr "bug")];
     sorters := [mkSorter "id" "asc"];
     pagination := {| enabled := true; pageSize := 2 |} |}.

Definition page (n : Z) : State :=
  {| displayedData := []; totalCount := 0; totalPages := 1; currentPage := n |}.
End SampleGrid.

(** ** The grid engine of [js/table.js] *)

Module Grid.

(** [{ column, operator, value }] *)
Record GridFilter : Type := mkGridFilter {
  g_column : string;
  g_operator : string;
  g_value : string
}.

Record Settings : Type := {
  paginationEnabled : bool;
  pageSize : Z
}.

(** The closure variable [state].  [selectedRows] is a [Set] of row keys. *)
Record State : Type := {
  data : list Ticket;
  totalCount : Z;
  totalPages : Z;
  currentPage : Z;
  filters : list GridFilter;
  sorters : list SortRule;
  selectedRows : list JsVal
}.

(** The argument of [settings.dataSource]. *)
Record Request : Type := {
  req_page : Z;
  req_pageSize : Z;
  req_sorters : list SortRule;
  req_filters : list GridFilter
}.

(** How the awaited call of [dataSource] ends: it throws or its promise
    rejects; it resolves to [undefined] or [null], on which the destructuring
    throws; or it resolves to an object whose [data] is an array or not
    ([None]) and whose [totalCount] is a number or missing ([None]). *)
Inductive Reply : Type :=
| Rejected
| ResolvedNullish
| Resolved (data : option (list Ticket)) (totalCount : option Z).

Definition initialState : State :=
  {| data := []; totalCount := 0; totalPages := 1; currentPage := 1;
     filters := []; sorters := []; selectedRows := [] |}.

(** [fetchServerData]: the argument it passes to [dataSource], then the
    [try] block, and the [catch] block, which only resets [data] and
    [totalCount]. *)
Definition request (settings : Settings) (state : State) : Request :=
  {| req_page := currentPage state;
     req_pageSize := pageSize settings;
     req_sorters := sorters state;
     req_filters := filters state |}.

Definition fetchServerData (settings : Settings) (dataSource : Request -> Reply)
    (state : State) : State :=
  match dataSource (request settings state) with
  | Resolved data totalCount =>
      let data := default [] data in
      let totalCount := default 0 totalCount in
      let totalPages :=
        if paginationEnabled settings then ceilDiv totalCount (pageSize settings) else 1 in
      let currentPage :=
        Z.max 1 (Z.min (currentPage state) (if totalPages =? 0 then 1 else totalPages)) in
      {| data := data; totalCount := totalCount; totalPages := totalPages;
         currentPage := currentPage;
         filters := filters state; sorters := sorters state;
         selectedRows := selectedRows state |}
  | Rejected | ResolvedNullish =>
      {| data := []; totalCount := 0; totalPages := totalPages state;
         currentPage := currentPage state;
         filters := filters state; sorters := sorters state;
         selectedRows := selectedRows state |}
  end.

(** The invariant of the grid state. *)
Definition invariant (settings : Settings) (state : State) : Prop :=
  1 <= currentPage state <= Z.max 1 (totalPages state) /\
  totalPages state =
    (if paginationEnabled settings
     then ceilDiv (totalCount state) (pageSize settings) else 1).

#[global] Instance invariant_dec settings state : Decision (invariant settings state).
Proof. unfold invariant. apply _. Defined.

(** The click handler of the pagination buttons, before its [refresh()]. *)
Inductive PageButton : Type := Prev | Next.

Definition pageClicked (button : PageButton) (state : State) : State :=
  {| data := data state; totalCount := totalCount state;
     totalPages := totalPages state;
     currentPage := match button with
                    | Prev => currentPage state - 1
                    | Next => currentPage state + 1
                    end;
     filters := filters state; sorters := sorters state;
     selectedRows := selectedRows state |}.

(** *** Rule editor sessions ([setupModal])

    A modal edits [state[stateKey]]; its rows live in the DOM.  A row shows
    the rule it was built from, [None] for the row built from no rule. *)
Inductive StateKey : Type := KeyFilters | KeySorters.

Record Modal (Rule : Type) : Type := {
  rows : list (option Rule);
  visible : bool
}.
Arguments rows {Rule} _.
Arguments visible {Rule} _.

(** The handler of the trigger button: the row container is emptied and
    filled from the committed rules, or with one blank row. *)
Definition openClicked {Rule : Type} (committed : list Rule) (m : Modal Rule)
  : Modal Rule :=
  {| rows := (if decide (List.length committed = 0%nat)
              then [None] else Some <$> committed);
     visible := true |}.

(** [state[stateKey] = ...; state.currentPage = 1; closeModal();] of the
    reset and of the submit handler; the [refresh()] that follows is
    [fetchServerData]. *)
Definition commitFilters (rules : list GridFilter) (state : State) : State :=
  {| data := data state; totalCount := totalCount state;
     totalPages := totalPages state; currentPage := 1;
     filters := rules; sorters := sorters state;
     selectedRows := selectedRows state |}.

Definition commitSorters (rules : list SortRule) (state : State) : State :=
  {| data := data state; totalCount := totalCount state;
     totalPages := totalPages state; currentPage := 1;
     filters := filters state; sorters := rules;
     selectedRows := selectedRows state |}.

Definition closeModal {Rule : Type} (m : Modal Rule) : Modal Rule :=
  {| rows := rows m; visible := false |}.

(** The reset handler: [state[stateKey] = []] whichever the key. *)
Definition resetFiltersClicked (state : State) (m : Modal GridFilter)
  : State * Modal GridFilter :=
  (commitFilters [] state, closeModal m).

Definition resetSortersClicked (state : State) (m : Modal SortRule)
  : State * Modal SortRule :=
  (commitSorters [] state, closeModal m).

End Grid.

(** ** The rule editors of the application ([js/app.js], [js/main.js]) *)

Module App.

Record State : Type := {
  currentFilters : list FilterRule;
  currentSorters : list SortRule;
  (** the rows of [#filterRowsContainer] and [#sorterRowsContainer] *)
  filterRows : list FilterRule;
  sorterRows : list SortRule
}.

(** The default argument of [addSorterRow] and of [addFilterRow]. *)
Definition defaultSorterRow : SortRule := mkSorter "dateCreated" "desc".
Definition defaultFilterRow : FilterRule := mkFilter "" "" (VStr "").

(** [renderSorterRows]: the container is emptied, then one row per sorter,
    or one default row. *)
Definition renderSorterRows (sorters : list SortRule) (app : State) : State :=
  {| currentFilters := currentFilters app;
     currentSorters := currentSorters app;
     filterRows := filterRows app;
     sorterRows := if decide (List.length sorters = 0%nat)
                   then [defaultSorterRow] else sorters |}.

Definition renderFilterRows (filters : list FilterRule) (app : State) : State :=
  {| currentFilters := currentFilters app;
     currentSorters := currentSorters app;
     filterRows := if decide (List.length filters = 0%nat)
                   then [defaultFilterRow] else filters;
     sorterRows := sorterRows app |}.

(** [resetSorters() { this.currentSorters = [{ column: 'dateCreated',
    order: 'desc' }]; renderSorterRows(this.currentSorters); }] *)
Definition resetSorters (app : State) : State :=
  let app :=
    {| currentFilters := currentFilters app;
       currentSorters := [mkSorter "dateCreated" "desc"];
       filterRows := filterRows app;
       sorterRows := sorterRows app |} in
  renderSorterRows (currentSorters app) app.

(** [resetFilters() { this.currentFilters = [];
    renderFilterRows(this.currentFilters); }] *)
Definition resetFilters (app : State) : State :=
  let app :=
    {| currentFilters := [];
       currentSorters := currentSorters app;
       filterRows := filterRows app;
       sorterRows := sorterRows app |} in
  renderFilterRows (currentFilters app) app.

(** [loadTickets]: what it hands to [renderTickets], given the tickets of
    the current storage. *)
Definition loadTickets (tickets : list Ticket) (app : State) : list Ticket :=
  processTickets tickets (currentFilters app) (currentSorters app).

(** [TatuaTicketingSystem.loadTickets] of [js/main.js] has the filter and
    the sort written out in its body instead of calling [processTickets]. *)
Definition loadTickets_inline (tickets : list Ticket) (app : State) : list Ticket :=
  let tickets :=
    if (0 <? Z.of_nat (List.length (currentFilters app)))
    then List.filter
           (fun ticket => forallb (matchesFilter ticket) (currentFilters app)) tickets
    else tickets in
  arraySort (compareTickets (currentSorters app)) tickets.

(** The state the constructor builds. *)
Definition initialState : State :=
  {| currentFilters := [];
     currentSorters := [mkSorter "dateCreated" "desc"];
     filterRows := []; sorterRows := [] |}.

End App.

Module SampleEngine.
Import Grid.

Definition settings : Settings := {| paginationEnabled := true; pageSize := 8 |}.

(** A provider with twenty matching rows, and one that fails. *)
Definition twentyRows (request : Request) : Reply :=
  Resolved (Some [Sample.ticketA; Sample.ticketB]) (Some 20).
Definition failing (request : Request) : Reply := Rejected.

(** The first fetch, then Next twice, each click followed by its fetch. *)
Definition onPage1 : State := fetchServerData settings twentyRows initialState.
Definition onPage2 : State := fetchServerData settings twentyRows (pageClicked Next onPage1).
Definition onPage3 : State := fetchServerData settings twentyRows (pageClicked Next onPage2).

(** A refresh that fails while page 3 of 3 is shown. *)
Definition afterFailure : State := fetchServerData settings failing onPage3.
End SampleEngine.

(** ** The grid state as objects: [getState]

    [state] is an object whose [data], [filters], [sorters] and
    [selectedRows] members are references to two arrays of rules, an array of
    rows and a [Set].  [getState] builds
    [{ ...state, selectedRows: new Set(state.selectedRows) }]: a new object
    with the same member values, but for a new [Set] with the same keys. *)

Module GridHeap.

Record StateObject : Type := {
  o_data : nat;
  o_totalCount : Z;
  o_totalPages : Z;
  o_currentPage : Z;
  o_filters : nat;
  o_sorters : nat;
  o_selectedRows : nat
}.

Inductive Object : Type :=
| ORows (rows : list Ticket)
| OFilters (rules : list Grid.GridFilter)
| OSorters (rules : list SortRule)
| OSet (keys : list JsVal)
| OState (o : StateObject).

(** The store: a reference is an index. *)
Abbreviation Heap := (list Object).

Definition getState (state : nat) (h : Heap) : option (nat * Heap) :=
  match h !! state with
  | Some (OState o) =>
      match h !! o_selectedRows o with
      | Some (OSet keys) =>
          let copy := List.length h in
          let h := h ++ [OSet keys] in
          let snapshot := List.length h in
          Some (snapshot,
                h ++ [OState {| o_data := o_data o;
                                o_totalCount := o_totalCount o;
                                o_totalPages := o_totalPages o;
                                o_currentPage := o_currentPage o;
                                o_filters := o_filters o;
                                o_sorters := o_sorters o;
                                o_selectedRows := copy |}])
      | _ => None
      end
  | _ => None
  end.

(** The grid state that the object at a reference denotes: what the engine
    (or a caller, for a snapshot) reads through it. *)
Definition view (state : nat) (h : Heap) : option Grid.State :=
  match h !! state with
  | Some (OState o) =>
      match h !! o_data o, h !! o_filters o, h !! o_sorters o, h !! o_selectedRows o with
      | Some (ORows rows), Some (OFilters filters), Some (OSorters sorters),
        Some (OSet keys) =>
          Some {| Grid.data := rows;
                  Grid.totalCount := o_totalCount o;
                  Grid.totalPages := o_totalPages o;
                  Grid.currentPage := o_currentPage o;
                  Grid.filters := filters;
                  Grid.sorters := sorters;
                  Grid.selectedRows := keys |}
      | _, _, _, _ => None
      end
  | _ => None
  end.

(** What a caller can do to a snapshot it holds. *)
Inductive Mutation : Type :=
| PushRow (row : Ticket)                (* snapshot.data.push(row) *)
| TruncateRows                          (* snapshot.data.length = 0 *)
| PushFilter (rule : Grid.GridFilter)   (* snapshot.filters.push(rule) *)
| PushSorter (rule : SortRule)          (* snapshot.sorters.push(rule) *)
| AddKey (key : JsVal)                  (* snapshot.selectedRows.add(key) *)
| ClearKeys                             (* snapshot.selectedRows.clear() *)
| AssignCurrentPage (n : Z)             (* snapshot.currentPage = n *)
| AssignTotalCount (n : Z).             (* snapshot.totalCount = n *)

(** The mutations that go through a member shared with the engine. *)
Definition throughSharedArray (m : Mutation) : bool :=
  match m with
  | PushRow _ | TruncateRows | PushFilter _ | PushSorter _ => true
  | _ => false
  end.

Definition mutate (snapshot : nat) (m : Mutation) (h : Heap) : option Heap :=
  match h !! snapshot with
  | Some (OState o) =>
      match m with
      | PushRow row =>
          match h !! o_data o with
          | Some (ORows rows) => Some (<[o_data o := ORows (rows ++ [row])]> h)
          | _ => None
          end
      | TruncateRows =>
          match h !! o_data o with
          | Some (ORows rows) => Some (<[o_data o := ORows []]> h)
          | _ => None
          end
      | PushFilter rule =>
          match h !! o_filters o with
          | Some (OFilters rules) => Some (<[o_filters o := OFilters (rules ++ [rule])]> h)
          | _ => None
          end
      | PushSorter rule =>
          match h !! o_sorters o with
          | Some (OSorters rules) => Some (<[o_sorters o := OSorters (rules ++ [rule])]> h)
          | _ => None
          end
      | AddKey key =>
          match h !! o_selectedRows o with
          | Some (OSet keys) =>
              Some (<[o_selectedRows o :=
                       OSet (if decide (key ∈ keys) then keys else keys ++ [key])]> h)
          | _ => None
          end
      | ClearKeys =>
          match h !! o_selectedRows o with
          | Some (OSet keys) => Some (<[o_selectedRows o := OSet []]> h)
          | _ => None
          end
      | AssignCurrentPage n =>
          Some (<[snapshot := OState {| o_data := o_data o;
                                        o_totalCount := o_totalCount o;
                                        o_totalPages := o_totalPages o;
                                        o_currentPage := n;
                                        o_filters := o_filters o;
                                        o_sorters := o_sorters o;
                                        o_selectedRows := o_selectedRows o |}]> h)
      | AssignTotalCount n =>
          Some (<[snapshot := OState {| o_data := o_data o;
                                        o_totalCount := n;
                                        o_totalPages := o_totalPages o;
                                        o_currentPage := o_currentPage o;
                                        o_filters := o_filters o;
                                        o_sorters := o_sorters o;
                                        o_selectedRows := o_selectedRows o |}]> h)
      end
  | _ => None
  end.

(** An engine whose state object is at reference 4: page 1 of the two
    sample tickets, one filter, one sorter, one selected row. *)
Definition engine : nat := 4.
Definition sampleHeap : Heap :=
  [ ORows [Sample.ticketA; Sample.ticketB];
    OFilters [Grid.mkGridFilter "subject" "contains" "bug"];
    OSorters [mkSorter "dateCreated" "desc"];
    OSet [VStr "TKT-A"];
    OState {| o_data := 0; o_totalCount := 2; o_totalPages := 1;
              o_currentPage := 1; o_filters := 1; o_sorters := 2;
              o_selectedRows := 3 |} ].

End GridHeap.

(** ** Storage strategies and the confidentiality wrapper *)

Module Storage.

(** A call returns or throws. *)
Inductive Result (A : Type) : Type :=
| Returns (a : A)
| Throws.
Arguments Returns {A} a.
Arguments Throws {A}.

(** What [JSON.parse] gives back, as far as the strategies look at it: an
    array of records, or some other value (on which [unshift], [find] and
    [filter] are not functions). *)
Inductive JsonValue : Type :=
| JArray (tickets : list Ticket)
| JOther.

(** The primitives the code calls and does not define.
    - [AES_encrypt text key] is [CryptoJS.AES.encrypt(text, key).toString()],
      [None] when it throws;
    - [AES_decrypt_utf8 c key] is
      [CryptoJS.AES.decrypt(c, key).toString(CryptoJS.enc.Utf8)], [None] when
      either call throws (malformed input, bytes that are not UTF-8);
    - [JSON_stringify] on an array of records;
    - [JSON_parse], [None] when it throws a SyntaxError. *)
Class Runtime : Type := {
  AES_encrypt : string -> string -> option string;
  AES_decrypt_utf8 : string -> string -> option string;
  JSON_stringify : list Ticket -> string;
  JSON_parse : string -> option JsonValue
}.

Section WithRuntime.
Context `{Runtime}.

Definition CIPHER_KEY : string := "tatua_super_secret_key_for_aes_2025!".

(** [try { return CryptoJS.AES.encrypt(text, CIPHER_KEY).toString(); }
     catch (e) { return text; }] *)
Definition encryptAES (text : string) : string :=
  match AES_encrypt text CIPHER_KEY with
  | Some ciphertext => ciphertext
  | None => text
  end.

(** [try { ...; if (!decryptedText) throw ...; return decryptedText; }
     catch (e) { return ciphertext; }] *)
Definition decryptAES (ciphertext : string) : string :=
  match AES_decrypt_utf8 ciphertext CIPHER_KEY with
  | Some decryptedText =>
      if String.eqb decryptedText "" then ciphertext else decryptedText
  | None => ciphertext
  end.

(** [t.id === ticketId] *)
Definition idIs (ticketId : JsVal) (t : Ticket) : bool :=
  bool_decide (getField t "id" = ticketId).

(** [{ ...t, ...updatedData }] *)
Definition spread (t updatedData : Ticket) : Ticket := updatedData ∪ t.

(** *** MemoryStorage *)
Record MemoryStorage : Type := { tickets : list Ticket }.

Definition memory_getTickets (this : MemoryStorage) : list Ticket := tickets this.

Definition memory_saveTicket (ticket : Ticket) (this : MemoryStorage) : MemoryStorage :=
  {| tickets := ticket :: tickets this |}.

Definition memory_getTicket (ticketId : JsVal) (this : MemoryStorage) : option Ticket :=
  List.find (idIs ticketId) (tickets this).

Definition memory_deleteTicket (ticketId : JsVal) (this : MemoryStorage) : MemoryStorage :=
  {| tickets := List.filter (fun t => negb (idIs ticketId t)) (tickets this) |}.

Definition memory_updateTicket (ticketId : JsVal) (updatedData : Ticket)
    (this : MemoryStorage) : MemoryStorage :=
  match list_find (fun t => idIs ticketId t = true) (tickets this) with
  | Some (index, t) => {| tickets := <[index := spread t updatedData]> (tickets this) |}
  | None => this
  end.

(** *** PersistentStorage

    [storage] is the browser's key-value store ([getItem] / [setItem]). *)
Record PersistentStorage : Type := {
  storage : gmap string string;
  storageKey : string
}.

Definition persistent_getTickets (this : PersistentStorage) : JsonValue :=
  match storage this !! storageKey this with
  | None => JArray []
  | Some stored =>
      if String.eqb stored "" then JArray []
      else match JSON_parse (decryptAES stored) with
           | Some parsed => parsed
           | None => JArray []
           end
  end.

Definition saveToStorage (tickets : list Ticket) (this : PersistentStorage)
  : PersistentStorage :=
  {| storage := <[storageKey this := encryptAES (JSON_stringify tickets)]> (storage this);
     storageKey := storageKey this |}.

Definition persistent_saveTicket (ticket : Ticket) (this : PersistentStorage)
  : Result PersistentStorage :=
  match persistent_getTickets this with
  | JArray tickets => Returns (saveToStorage (ticket :: tickets) this)
  | JOther => Throws
  end.

Definition persistent_getTicket (ticketId : JsVal) (this : PersistentStorage)
  : Result (option Ticket) :=
  match persistent_getTickets this with
  | JArray tickets => Returns (List.find (idIs ticketId) tickets)
  | JOther => Throws
  end.

Definition persistent_deleteTicket (ticketId : JsVal) (this : PersistentStorage)
  : Result PersistentStorage :=
  match persistent_getTickets this with
  | JArray tickets =>
      Returns (saveToStorage (List.filter (fun t => negb (idIs ticketId t)) tickets) this)
  | JOther => Throws
  end.

Definition persistent_updateTicket (ticketId : JsVal) (updatedData : Ticket)
    (this : PersistentStorage) : Result PersistentStorage :=
  match persistent_getTickets this with
  | JArray tickets =>
      match list_find (fun t => idIs ticketId t = true) tickets with
      | Some (index, t) =>
          Returns (saveToStorage (<[index := spread t updatedData]> tickets) this)
      | None => Returns this
      end
  | JOther => Throws
  end.

(** *** The three strategies of [storageStrategies] *)
Inductive StorageType : Type := memory | session | local.

(** The memory strategy's array and the two stores of the browser. *)
Record World : Type := {
  memoryTickets : MemoryStorage;
  sessionStorage : gmap string string;
  localStorage : gmap string string
}.

(** [new SessionStorage()] and [new LocalStorage()] *)
Definition SessionStorage (w : World) : PersistentStorage :=
  {| storage := sessionStorage w; storageKey := "tatua_tickets_session_aes" |}.
Definition LocalStorage (w : World) : PersistentStorage :=
  {| storage := localStorage w; storageKey := "tatua_tickets_local_aes" |}.

(** [storageStrategies[type].getTickets()] and the like. *)
Definition getTickets (type : StorageType) (w : World) : JsonValue :=
  match type with
  | memory => JArray (memory_getTickets (memoryTickets w))
  | session => persistent_getTickets (SessionStorage w)
  | local => persistent_getTickets (LocalStorage w)
  end.

Definition saveTicket (type : StorageType) (ticket : Ticket) (w : World)
  : Result World :=
  match type with
  | memory =>
      Returns {| memoryTickets := memory_saveTicket ticket (memoryTickets w);
                 sessionStorage := sessionStorage w;
                 localStorage := localStorage w |}
  | session =>
      match persistent_saveTicket ticket (SessionStorage w) with
      | Returns this => Returns {| memoryTickets := memoryTickets w;
                                   sessionStorage := storage this;
                                   localStorage := localStorage w |}
      | Throws => Throws
      end
  | local =>
      match persistent_saveTicket ticket (LocalStorage w) with
      | Returns this => Returns {| memoryTickets := memoryTickets w;
                                   sessionStorage := sessionStorage w;
                                   localStorage := storage this |}
      | Throws => Throws
      end
  end.

Definition getTicket (type : StorageType) (ticketId : JsVal) (w : World)
  : Result (option Ticket) :=
  match type with
  | memory => Returns (memory_getTicket ticketId (memoryTickets w))
  | session => persistent_getTicket ticketId (SessionStorage w)
  | local => persistent_getTicket ticketId (LocalStorage w)
  end.


(** What the durable variants hold under their key. *)
Definition stored (type : StorageType) (w : World) : option string :=
  match type with
  | memory => None
  | session => sessionStorage w !! "tatua_tickets_session_aes"
  | local => localStorage w !! "tatua_tickets_local_aes"
  end.

(** A record that survives [JSON.stringify]: no member is [undefined]
    (such members are left out of the text). *)
Definition jsonClean (t : Ticket) : Prop :=
  map_Forall (fun _ v => v <> VUndef) t.

(** What the code relies on from the two libraries. *)
Record RuntimeLaws : Prop := {
  (** [decrypt(encrypt(x)) === x] for a non-empty [x], and a ciphertext is
      not empty *)
  aes_roundtrip : forall x, x <> "" -> decryptAES (encryptAES x) = x;
  aes_nonempty : forall x, x <> "" -> encryptAES x <> "";
  (** [JSON.parse(JSON.stringify(a))] is [a] for an array of clean records *)
  json_roundtrip : forall l, Forall jsonClean l ->
                             JSON_parse (JSON_stringify l) = Some (JArray l);
  json_nonempty : forall l, JSON_stringify l <> "";
  json_parse_clean : forall s l, JSON_parse s = Some (JArray l) -> Forall jsonClean l
}.

End WithRuntime.
End Storage.

(** ** A small runtime to run the storage code on

    A cipher that prefixes a marker and a serializer that writes the
    binary digits of the code of the array: stand-ins for CryptoJS and JSON
    that satisfy [Storage.RuntimeLaws].  As [JSON.stringify] does, the
    serializer leaves out the members that are [undefined]; as [JSON.parse]
    does, the parser reads the text [null] as a value that is no array. *)

#[global] Instance JsVal_countable : Countable JsVal.
Proof.
  refine (inj_countable'
    (fun v => match v with
              | VUndef => inl ()
              | VNull => inr (inl ())
              | VBool b => inr (inr (inl b))
              | VNum n => inr (inr (inr (inl n)))
              | VStr s => inr (inr (inr (inr s)))
              end)
    (fun x => match x with
              | inl _ => VUndef
              | inr (inl _) => VNull
              | inr (inr (inl b)) => VBool b
              | inr (inr (inr (inl n))) => VNum n
              | inr (inr (inr (inr s))) => VStr s
              end) _).
  intros []; reflexivity.
Defined.

#[global] Instance jsonClean_dec (t : Ticket) : Decision (Storage.jsonClean t).
Proof. unfold Storage.jsonClean. apply _. Defined.

Module ToyRuntime.

Fixpoint bits (p : positive) : string :=
  match p with
  | xH => EmptyString
  | xO p => String "0" (bits p)
  | xI p => String "1" (bits p)
  end.

Fixpoint unbits (s : string) : option positive :=
  match s with
  | EmptyString => Some xH
  | String c s' =>
      if Ascii.eqb c "0" then xO <$> unbits s'
      else if Ascii.eqb c "1" then xI <$> unbits s'
      else None
  end.

(** The members [JSON.stringify] writes. *)
Definition dropUndefined (t : Ticket) : Ticket :=
  filter (fun member => member.2 <> VUndef) t.

Definition stringify (l : list Ticket) : string :=
  String "[" (bits (encode (dropUndefined <$> l))).

Definition parse (s : string) : option Storage.JsonValue :=
  if String.eqb s "null" then Some Storage.JOther
  else
    match s with
    | String c s' =>
        if Ascii.eqb c "[" then
          p ← unbits s';
          l ← decode p;
          if decide (Forall Storage.jsonClean l) then Some (Storage.JArray l) else None
        else None
    | EmptyString => None
    end.

Definition encrypt (text key : string) : option string := Some (String "#" text).

Definition decrypt (ciphertext key : string) : option string :=
  match ciphertext with
  | String c text => if Ascii.eqb c "#" then Some text else None
  | EmptyString => None
  end.

#[global] Instance runtime : Storage.Runtime :=
  {| Storage.AES_encrypt := encrypt;
     Storage.AES_decrypt_utf8 := decrypt;
     Storage.JSON_stringify := stringify;
     Storage.JSON_parse := parse |}.

Definition emptyWorld : Storage.World :=
  {| Storage.memoryTickets := {| Storage.tickets := [] |};
     Storage.sessionStorage := ∅;
     Storage.localStorage := ∅ |}.

End ToyRuntime.

(** ** The strategies' remaining operations, by storage type *)

Module Strategies.
Import Storage.

Section WithRuntime.
Context `{Runtime}.

(** The world after a durable strategy has run. *)
Definition withSession (w : World) (this : PersistentStorage) : World :=
  {| memoryTickets := memoryTickets w;
     sessionStorage := storage this;
     localStorage := localStorage w |}.

Definition withLocal (w : World) (this : PersistentStorage) : World :=
  {| memoryTickets := memoryTickets w;
     sessionStorage := sessionStorage w;
     localStorage := storage this |}.

(** [storageStrategies[type].deleteTicket(ticketId)] *)
Definition deleteTicket (type : StorageType) (ticketId : JsVal) (w : World)
  : Result World :=
  match type with
  | memory =>
      Returns {| memoryTickets := memory_deleteTicket ticketId (memoryTickets w);
                 sessionStorage := sessionStorage w;
                 localStorage := localStorage w |}
  | session =>
      match persistent_deleteTicket ticketId (SessionStorage w) with
      | Returns this => Returns (withSession w this)
      | Throws => Throws
      end
  | local =>
      match persistent_deleteTicket ticketId (LocalStorage w) with
      | Returns this => Returns (withLocal w this)
      | Throws => Throws
      end
  end.

(** [storageStrategies[type].updateTicket(ticketId, updatedData)] *)
Definition updateTicket (type : StorageType) (ticketId : JsVal)
    (updatedData : Ticket) (w : World) : Result World :=
  match type with
  | memory =>
      Returns {| memoryTickets := memory_updateTicket ticketId updatedData (memoryTickets w);
                 sessionStorage := sessionStorage w;
                 localStorage := localStorage w |}
  | session =>
      match persistent_updateTicket ticketId updatedData (SessionStorage w) with
      | Returns this => Returns (withSession w this)
      | Throws => Throws
      end
  | local =>
      match persistent_updateTicket ticketId updatedData (LocalStorage w) with
      | Returns this => Returns (withLocal w this)
      | Throws => Throws
      end
  end.

End WithRuntime.
End Strategies.

(** ** Vocabulary for the properties of the strategies *)

(** [findIndex] followed by the assignment at that index, as a recursion on
    the array. *)
Fixpoint replaceFirst (ticketId : JsVal) (updatedData : Ticket) (l : list Ticket)
  : list Ticket :=
  match l with
  | [] => []
  | t :: l' =>
      if Storage.idIs ticketId t then Storage.spread t updatedData :: l'
      else t :: replaceFirst ticketId updatedData l'
  end.

(** The world in which the strategy of the given type holds the collection
    [l]: what [this.tickets = l] and [saveToStorage(l)] leave behind. *)
Definition holding `{Storage.Runtime} (type : Storage.StorageType)
    (l : list Ticket) (w : Storage.World) : Storage.World :=
  match type with
  | Storage.memory =>
      {| Storage.memoryTickets := {| Storage.tickets := l |};
         Storage.sessionStorage := Storage.sessionStorage w;
         Storage.localStorage := Storage.localStorage w |}
  | Storage.session =>
      Strategies.withSession w (Storage.saveToStorage l (Storage.SessionStorage w))
  | Storage.local =>
      Strategies.withLocal w (Storage.saveToStorage l (Storage.LocalStorage w))
  end.

Module SampleStorage.
(** A memory strategy holding two tickets. *)
Definition twoInMemory : Storage.World :=
  {| Storage.memoryTickets := {| Storage.tickets := [Sample.ticketB; Sample.ticketA] |};
     Storage.sessionStorage := ∅;
     Storage.localStorage := ∅ |}.

(** The fields an edit form sends: no [id] among them. *)
Definition edit : Ticket := {[ "subject" := VStr "Refund"; "fullName" := VStr "Ada L." ]}.



(** A local store whose payload was written without encryption. *)
Definition legacyLocal : Storage.PersistentStorage :=
  {| Storage.storage :=
       {[ "tatua_tickets_local_aes" := ToyRuntime.stringify [Sample.ticketA] ]};
     Storage.storageKey := "tatua_tickets_local_aes" |}.
End SampleStorage.

(** No two records of the collection compare equal in the column. *)
Fixpoint noTies (column : string) (tickets : list Ticket) : bool :=
  match tickets with
  | [] => true
  | a :: rest =>
      forallb (fun b => negb (comparison (getField a column) (getField b column) =? 0))
              rest
      && noTies column rest
  end.

(** ** The old grid: its page buttons and its public methods *)

Module OldTableApi.
Import OldTable.

(** [state.currentPage = page] *)
Definition setCurrentPage (page : Z) (state : State) : State :=
  {| displayedData := displayedData state;
     totalCount := totalCount state;
     totalPages := totalPages state;
     currentPage := page |}.

(** The [data-page] of a button that [renderPagination] writes: "prev",
    "next", or the decimal text of a page number (First, Last and the numbered
    buttons), which [parseInt] reads back. *)
Inductive PageButton : Type :=
| Prev
| Next
| Page (n : Z).

(** The click listener of [attachPaginationListeners]:
    [if (isNaN(page) || page < 1 || page > state.totalPages
         || page === state.currentPage) return;
     state.currentPage = page; await fetchData(); renderTable();] *)
Definition pageClicked (settings : Settings) (reply : ServerReply)
    (button : PageButton) (state : State) : State :=
  let page :=
    match button with
    | Prev => currentPage state - 1
    | Next => currentPage state + 1
    | Page n => n
    end in
  if (page <? 1) || (totalPages state <? page) || (page =? currentPage state)
  then state
  else fetchData settings reply (setCurrentPage page state).

(** [refresh()], as far as the state goes. *)
Definition refresh (settings : Settings) (reply : ServerReply) (state : State)
  : State :=
  fetchData settings reply state.

Definition withData (newData : list Ticket) (settings : Settings) : Settings :=
  {| data := newData; dataSource := dataSource settings;
     serverSide := serverSide settings; filters := filters settings;
     sorters := sorters settings; pagination := pagination settings |}.

Definition withFilters (newFilters : list FilterRule) (settings : Settings) : Settings :=
  {| data := data settings; dataSource := dataSource settings;
     serverSide := serverSide settings; filters := newFilters;
     sorters := sorters settings; pagination := pagination settings |}.

Definition withSorters (newSorters : list SortRule) (settings : Settings) : Settings :=
  {| data := data settings; dataSource := dataSource settings;
     serverSide := serverSide settings; filters := filters settings;
     sorters := newSorters; pagination := pagination settings |}.

(** [updateData(newData)]: refused in server-side mode. *)
Definition updateData (newData : list Ticket) (reply : ServerReply)
    (table : Settings * State) : Settings * State :=
  let '(settings, state) := table in
  if serverSide settings then table
  else
    let settings := withData newData settings in
    (settings, refresh settings reply (setCurrentPage 1 state)).

(** [updateFilters(newFilters)] *)
Definition updateFilters (newFilters : list FilterRule) (reply : ServerReply)
    (table : Settings * State) : Settings * State :=
  let '(settings, state) := table in
  let settings := withFilters newFilters settings in
  (settings, refresh settings reply (setCurrentPage 1 state)).

(** [updateSorters(newSorters)] *)
Definition updateSorters (newSorters : list SortRule) (reply : ServerReply)
    (table : Settings * State) : Settings * State :=
  let '(settings, state) := table in
  let settings := withSorters newSorters settings in
  (settings, refresh settings reply (setCurrentPage 1 state)).

(** What can happen to a table after it is created. *)
Inductive Event : Type :=
| UpdateData (newData : list Ticket)
| UpdateFilters (newFilters : list FilterRule)
| UpdateSorters (newSorters : list SortRule)
| Refresh
| Click (button : PageButton).

Definition handle (reply : ServerReply) (table : Settings * State) (e : Event)
  : Settings * State :=
  match e with
  | UpdateData newData => updateData newData reply table
  | UpdateFilters newFilters => updateFilters newFilters reply table
  | UpdateSorters newSorters => updateSorters newSorters reply table
  | Refresh => (fst table, refresh (fst table) reply (snd table))
  | Click button => (fst table, pageClicked (fst table) reply button (snd table))
  end.


(** The numbered buttons of [renderPagination]: the window of at most
    [maxVisiblePages = 5] pages, as its first and last page. *)
Definition pageWindow (state : State) : Z * Z :=
  let maxVisiblePages := 5 in
  let startPage := Z.max 1 (currentPage state - maxVisiblePages / 2) in
  let endPage := Z.min (totalPages state) (startPage + maxVisiblePages - 1) in
  let startPage := Z.max 1 (endPage - maxVisiblePages + 1) in
  (startPage, endPage).

(** The page numbers the loop [for (i = startPage; i <= endPage; i++)]
    writes buttons for. *)
Definition numberedButtons (state : State) : list Z :=
  let '(startPage, endPage) := pageWindow state in
  seqZ startPage (endPage - startPage + 1).


End OldTableApi.


(** ** The grid engine: pagination bar, page buttons, submit handlers *)

Module GridControls.
Import Grid.

(** What [renderPagination] computes when pagination is on: the row range
    of "Showing a-b of n", the page count of "Page p of q", and whether the
    Previous and Next buttons carry [disabled]. *)
Record PaginationBar : Type := {
  startRow : Z;
  endRow : Z;
  shownPages : Z;
  prevDisabled : bool;
  nextDisabled : bool
}.

Definition renderPagination (settings : Settings) (state : State)
  : option PaginationBar :=
  if negb (paginationEnabled settings) then None
  else
    let startRow :=
      if 0 <? totalCount state
      then (currentPage state - 1) * pageSize settings + 1 else 0 in
    let endRow := Z.min (currentPage state * pageSize settings) (totalCount state) in
    let totalPages := Z.max 1 (totalPages state) in
    Some {| startRow := startRow;
            endRow := endRow;
            shownPages := totalPages;
            prevDisabled := currentPage state <=? 1;
            nextDisabled := totalPages <=? currentPage state |}.

(** The click listener of the wrapper, for a click on a page button as
    [update()] last rendered it:
    [if (pageButton && !pageButton.disabled) { ...; refresh(); }].
    With pagination off there is no button to click. *)
Definition pageButtonClicked (settings : Settings) (button : PageButton)
    (state : State) : option State :=
  match renderPagination settings state with
  | None => None
  | Some bar =>
      let disabled :=
        match button with
        | Grid.Prev => prevDisabled bar
        | Grid.Next => nextDisabled bar
        end in
      if disabled then None else Some (pageClicked button state)
  end.

(** A row of the filter modal as the user left it. *)
Record FilterRow : Type := {
  row_column : string;
  row_operator : string;
  row_value : string
}.

End GridControls.

Module JsTrim.

(** [String.prototype.trim] on code units below 256. *)
Fixpoint trimStart (s : string) : string :=
  match s with
  | EmptyString => EmptyString
  | String c s' => if JsNumber.isWhite c then trimStart s' else s
  end.

Fixpoint trimEnd (s : string) : string :=
  match s with
  | EmptyString => EmptyString
  | String c s' => if JsNumber.allWhite s then EmptyString else String c (trimEnd s')
  end.

Definition trim (s : string) : string := trimEnd (trimStart s).

End JsTrim.

Module GridSubmit.
Import Grid GridControls.

(** [stateReaderFn] of the filter modal: the rows whose value is not blank,
    as rules. *)
Definition readFilters (rows : list FilterRow) : list GridFilter :=
  List.map (fun row => mkGridFilter (row_column row) (row_operator row) (row_value row))
           (List.filter
              (fun row => negb (String.eqb (JsTrim.trim (row_value row)) ""))
              rows).

(** [stateReaderFn] of the sort modal: every row. *)
Definition readSorters (rows : list SortRule) : list SortRule := rows.

(** What can happen to the engine once it is set up, each with the data
    source's behaviour during the [refresh()] it ends in. *)
Inductive Event : Type :=
| Refresh
| ClickPage (button : PageButton)
| SubmitFilters (rows : list FilterRow)
| SubmitSorters (rows : list SortRule)
| ResetFilters
| ResetSorters.

(** The handler's own assignments, before its [refresh()]; a click on a
    disabled or absent button does nothing at all. *)
Definition beforeRefresh (settings : Settings) (e : Event) (state : State)
  : option State :=
  match e with
  | Refresh => Some state
  | ClickPage button => pageButtonClicked settings button state
  | SubmitFilters rows => Some (commitFilters (readFilters rows) state)
  | SubmitSorters rows => Some (commitSorters (readSorters rows) state)
  | ResetFilters => Some (commitFilters [] state)
  | ResetSorters => Some (commitSorters [] state)
  end.

Definition handle (settings : Settings) (state : State)
    (step : Event * (Request -> Reply)) : State :=
  match beforeRefresh settings (fst step) state with
  | Some state' => fetchServerData settings (snd step) state'
  | None => state
  end.

(** The requests the data source receives over a run of events. *)
Fixpoint requests (settings : Settings) (state : State)
    (steps : list (Event * (Request -> Reply))) : list Request :=
  match steps with
  | [] => []
  | step :: rest =>
      match beforeRefresh settings (fst step) state with
      | Some state' =>
          request settings state' :: requests settings (handle settings state step) rest
      | None => requests settings state rest
      end
  end.

End GridSubmit.

(** A string with nothing but white space in it. *)
Definition blank (s : string) : Prop := JsNumber.allWhite s = true.

Module SampleControls.
Import Grid GridControls GridSubmit.

Definition settings : Settings := {| paginationEnabled := true; pageSize := 8 |}.

Definition resolves (total : Z) (request : Request) : Reply :=
  Resolved (Some [Sample.ticketA]) (Some total).
Definition rejects (request : Request) : Reply := Rejected.

Definition rows : list FilterRow :=
  [ {| row_column := "subject"; row_operator := "contains"; row_value := " bug " |};
    {| row_column := "email"; row_operator := "eq"; row_value := "   " |};
    {| row_column := "id"; row_operator := "eq"; row_value := "TKT-1" |} ].
End SampleControls.

(** ** The application's submit handlers ([js/app.js], [js/main.js]) *)

Module AppSubmit.
Import App.

(** A row of [#filterRowsContainer] as the user left it: the values of its
    two selects and of its text input. *)
Record FilterInput : Type := {
  in_column : string;
  in_relation : string;
  in_value : string
}.

Definition toRule (row : FilterInput) : FilterRule :=
  mkFilter (in_column row) (in_relation row) (VStr (in_value row)).

(** The value of a rule read from a row is a string. *)
Definition valueText (rule : FilterRule) : string :=
  match f_value rule with VStr s => s | _ => EmptyString end.

(** [applyFilters]: [Array.from(rows).map(row => ({...}))
    .filter(filter => filter.value.trim() !== '')]; the [loadTickets()] that
    follows reads the state it leaves. *)
Definition applyFilters (rows : list FilterInput) (app : State) : State :=
  {| currentFilters :=
       List.filter (fun filter => negb (String.eqb (JsTrim.trim (valueText filter)) ""))
                   (List.map toRule rows);
     currentSorters := currentSorters app;
     filterRows := filterRows app;
     sorterRows := sorterRows app |}.

(** [applySorters]: every row becomes a rule. *)
Definition applySorters (rows : list SortRule) (app : State) : State :=
  {| currentFilters := currentFilters app;
     currentSorters := rows;
     filterRows := filterRows app;
     sorterRows := sorterRows app |}.

(** The toast of [applyFilters]. *)
Definition filterToast (app : State) : string :=
  if 0 <? Z.of_nat (List.length (currentFilters app))
  then "Filter applied" else "Filter cleared".

End AppSubmit.

Module SampleApp.
Import AppSubmit.
Definition rows : list FilterInput :=
  [ {| in_column := "priority"; in_relation := "equals"; in_value := "high" |};
    {| in_column := "email"; in_relation := "contains"; in_value := " " |} ].
End SampleApp.

(** ** [escapeHtml] *)

Module Html.

(** [s.replace(/c/g, by)] for a single character [c]. *)
Fixpoint replaceAll (c : ascii) (by_ : string) (s : string) : string :=
  match s with
  | EmptyString => EmptyString
  | String d s' =>
      if Ascii.eqb d c then by_ +:+ replaceAll c by_ s'
      else String d (replaceAll c by_ s')
  end.

(** The double quote and the apostrophe. *)
Definition quot : ascii := "034"%char.
Definition apos : ascii := "039"%char.

(** [escapeHtml] of the old grid: five global replacements one after the
    other, of the ampersand, the two angle brackets, the double quote and the
    apostrophe, in that order. *)
Definition escapeHtml (unsafe : string) : string :=
  replaceAll apos "&#039;"
    (replaceAll quot "&quot;"
       (replaceAll ">" "&gt;"
          (replaceAll "<" "&lt;"
             (replaceAll "&" "&amp;" unsafe)))).

(** [escapeHtml] of the ticket service and of [main.js]: the same chain on
    [text.toString()] when [text] is truthy, the empty string otherwise. *)
Definition escapeHtmlText (text : JsVal) : string :=
  if truthy text
  then match toStringMethod text with
       | Some s => escapeHtml s
       | None => EmptyString
       end
  else EmptyString.

(** The entity a character is written as. *)
Definition entity (c : ascii) : string :=
  if Ascii.eqb c "&" then "&amp;"
  else if Ascii.eqb c "<" then "&lt;"
  else if Ascii.eqb c ">" then "&gt;"
  else if Ascii.eqb c quot then "&quot;"
  else if Ascii.eqb c apos then "&#039;"
  else String c EmptyString.

(** Every character written as its entity, in one pass. *)
Fixpoint escapeEach (s : string) : string :=
  match s with
  | EmptyString => EmptyString
  | String c s' => entity c +:+ escapeEach s'
  end.

(** The characters that open or close a tag or an attribute value. *)
Definition markup (c : ascii) : bool :=
  Ascii.eqb c "<" || Ascii.eqb c ">" || Ascii.eqb c quot || Ascii.eqb c apos.

Definition special (c : ascii) : bool := Ascii.eqb c "&" || markup c.

End Html.

(** ** Form validation *)

(** Regular expressions without groups to capture, as far as the patterns of
    [validateField] need them, matched by derivatives. *)
Module RegExp.

Inductive Pattern : Type :=
| Never
| Empty
| Class (p : ascii -> bool)
| Seq (r1 r2 : Pattern)
| Alt (r1 r2 : Pattern)
| Star (r : Pattern).

(** [c], [r+], [r{n}], [r{0,n}] and [r{lo,hi}]. *)
Definition Char (c : ascii) : Pattern := Class (Ascii.eqb c).

Definition Plus (r : Pattern) : Pattern := Seq r (Star r).

Fixpoint Times (n : nat) (r : Pattern) : Pattern :=
  match n with
  | O => Empty
  | S n' => Seq r (Times n' r)
  end.

Fixpoint UpTo (n : nat) (r : Pattern) : Pattern :=
  match n with
  | O => Empty
  | S n' => Alt Empty (Seq r (UpTo n' r))
  end.

Definition Between (lo hi : nat) (r : Pattern) : Pattern :=
  Seq (Times lo r) (UpTo (hi - lo) r).

Fixpoint nullable (r : Pattern) : bool :=
  match r with
  | Never => false
  | Empty => true
  | Class _ => false
  | Seq r1 r2 => nullable r1 && nullable r2
  | Alt r1 r2 => nullable r1 || nullable r2
  | Star _ => true
  end.

Fixpoint deriv (c : ascii) (r : Pattern) : Pattern :=
  match r with
  | Never => Never
  | Empty => Never
  | Class p => if p c then Empty else Never
  | Seq r1 r2 =>
      if nullable r1 then Alt (Seq (deriv c r1) r2) (deriv c r2)
      else Seq (deriv c r1) r2
  | Alt r1 r2 => Alt (deriv c r1) (deriv c r2)
  | Star r1 => Seq (deriv c r1) (Star r1)
  end.

Fixpoint matchList (r : Pattern) (s : list ascii) : bool :=
  match s with
  | [] => nullable r
  | c :: s' => matchList (deriv c r) s'
  end.

(** [/^r$/.test(s)]. *)
Definition test (r : Pattern) (s : string) : bool :=
  matchList r (list_ascii_of_string s).

(** The strings of a pattern. *)
Inductive Matches : Pattern -> list ascii -> Prop :=
| MEmpty : Matches Empty []
| MClass p c : p c = true -> Matches (Class p) [c]
| MSeq r1 r2 s1 s2 : Matches r1 s1 -> Matches r2 s2 -> Matches (Seq r1 r2) (s1 ++ s2)
| MAltL r1 r2 s : Matches r1 s -> Matches (Alt r1 r2) s
| MAltR r1 r2 s : Matches r2 s -> Matches (Alt r1 r2) s
| MStarNil r : Matches (Star r) []
| MStarCons r s1 s2 : Matches r s1 -> Matches (Star r) s2 -> Matches (Star r) (s1 ++ s2).

End RegExp.

Module Validation.
Import RegExp.

(** The elements of a form, in document order, with what [validateField]
    and [validateForm] read of them. *)
Inductive Tag : Type :=
| Input (radio : bool)
| Textarea
| Select
| OtherTag.

Record Element : Type := mkElement {
  el_tag : Tag;
  el_name : string;
  el_id : string;
  el_value : string;
  el_checked : bool
}.

Definition Form : Type := list Element.

(** [\d], [\s] and the classes of the two patterns. *)
Definition digit (c : ascii) : bool :=
  let n := nat_of_ascii c in ((48 <=? n) && (n <=? 57))%nat.

Definition space (c : ascii) : bool := JsNumber.isWhite c.

(** [[^\s@]] *)
Definition plain (c : ascii) : bool := negb (space c) && negb (Ascii.eqb c "@").

(** [[17]] and [[1-9]] *)
Definition oneOrSeven (c : ascii) : bool := Ascii.eqb c "1" || Ascii.eqb c "7".

Definition nonZeroDigit (c : ascii) : bool :=
  let n := nat_of_ascii c in ((49 <=? n) && (n <=? 57))%nat.

(** [[\s\-\(\)]] *)
Definition separator (c : ascii) : bool :=
  space c || Ascii.eqb c "-" || Ascii.eqb c "(" || Ascii.eqb c ")".

(** [/^[^\s@]+@[^\s@]+\.[^\s@]+$/] *)
Definition emailPattern : Pattern :=
  Seq (Plus (Class plain))
      (Seq (Char "@")
           (Seq (Plus (Class plain))
                (Seq (Char ".") (Plus (Class plain))))).

(** [/^(?:0[17]\d{8}|(?:\+|00)[1-9]\d{6,14})$/] *)
Definition phonePattern : Pattern :=
  Alt (Seq (Char "0") (Seq (Class oneOrSeven) (Times 8 (Class digit))))
      (Seq (Alt (Char "+") (Seq (Char "0") (Char "0")))
           (Seq (Class nonZeroDigit) (Between 6 14 (Class digit)))).

(** [value.replace(/[\s\-\(\)]/g, '')] *)
Fixpoint stripSeparators (s : string) : string :=
  match s with
  | EmptyString => EmptyString
  | String c s' =>
      if separator c then stripSeparators s' else String c (stripSeparators s')
  end.

(** [field.name || field.id] *)
Definition fieldName (field : Element) : string :=
  if String.eqb (el_name field) "" then el_id field else el_name field.

Definition isInput (e : Element) : bool :=
  match el_tag e with
  | Input _ => true
  | _ => false
  end.

(** [form.querySelector(`input[name="${fieldName}"]:checked`)] finds
    something. *)
Definition groupChecked (form : Form) (name : string) : bool :=
  existsb (fun e => isInput e && String.eqb (el_name e) name && el_checked e) form.

Definition oneOf (names : list string) (s : string) : bool :=
  existsb (String.eqb s) names.

(** [validateField]: what it returns and the message it passes to
    [showFieldError], if it calls it.  [form] is the form the field is in. *)
Definition validateField (form : Form) (field : Element) : bool * option string :=
  let fieldName := fieldName field in
  let value := el_value field in
  if oneOf ["fullName"; "editFullName"] fieldName then
    if String.eqb (JsTrim.trim value) "" then (false, Some "Full name is required")
    else if (String.length (JsTrim.trim value) <? 2)%nat
         then (false, Some "Must be at least 2 characters")
         else (true, None)
  else if oneOf ["email"; "editEmail"] fieldName then
    if String.eqb (JsTrim.trim value) "" then (false, Some "Email is required")
    else if negb (test emailPattern (JsTrim.trim value))
         then (false, Some "Please enter a valid email")
         else (true, None)
  else if oneOf ["phone"; "editPhone"] fieldName then
    if String.eqb (JsTrim.trim value) "" then (false, Some "Phone number is required")
    else if negb (test phonePattern (stripSeparators value))
         then (false, Some "Enter a valid Kenyan (07/01) or intl number")
         else (true, None)
  else if oneOf ["subject"; "editSubject"] fieldName then
    if String.eqb value "" then (false, Some "Please select a subject")
    else (true, None)
  else if oneOf ["message"; "editMessage"] fieldName then
    if String.eqb (JsTrim.trim value) "" then (false, Some "Message is required")
    else if (String.length (JsTrim.trim value) <? 10)%nat
         then (false, Some "Message must be at least 10 characters")
         else (true, None)
  else if oneOf ["terms"] fieldName then
    if negb (el_checked field) then (false, Some "You must agree to the terms")
    else (true, None)
  else if oneOf ["contact"; "editContact"] fieldName then
    if negb (groupChecked form fieldName)
    then (false, Some "Please select a contact method")
    else (true, None)
  else (true, None).

(** The strings of [emailPattern]. *)
Definition emailShape (chars : list ascii) : Prop :=
  exists a b c,
    chars = a ++ "@"%char :: b ++ "."%char :: c /\
    a <> [] /\ b <> [] /\ c <> [] /\
    Forall (fun x => plain x = true) a /\
    Forall (fun x => plain x = true) b /\
    Forall (fun x => plain x = true) c.

(** The strings of [phonePattern]. *)
Definition localShape (digits : list ascii) : Prop :=
  exists d rest,
    digits = "0"%char :: d :: rest /\ oneOrSeven d = true /\
    List.length rest = 8%nat /\ Forall (fun x => digit x = true) rest.

Definition internationalShape (digits : list ascii) : Prop :=
  exists prefix d rest,
    (prefix = ["+"%char] \/ prefix = ["0"%char; "0"%char]) /\
    digits = prefix ++ d :: rest /\ nonZeroDigit d = true /\
    (6 <= List.length rest <= 14)%nat /\ Forall (fun x => digit x = true) rest.

(** The names [validateField] has a case for. *)
Definition knownNames : list string :=
  ["fullName"; "editFullName"; "email"; "editEmail"; "phone"; "editPhone";
   "subject"; "editSubject"; "message"; "editMessage"; "terms";
   "contact"; "editContact"].

(** [input:not([type=radio]), textarea, select] *)
Definition control (e : Element) : bool :=
  match el_tag e with
  | Input radio => negb radio
  | Textarea | Select => true
  | OtherTag => false
  end.

(** The fields [validateForm] validates, in the order it does: the controls
    that are no radio buttons, then the first element named [contact] or
    [editContact], then the first one named [terms]. *)
Definition validated (form : Form) : list Element :=
  List.filter control form
  ++ match List.find (fun e => oneOf ["contact"; "editContact"] (el_name e)) form with
     | Some contactField => [contactField]
     | None => []
     end
  ++ match List.find (fun e => String.eqb (el_name e) "terms") form with
     | Some termsField => [termsField]
     | None => []
     end.

(** The calls of [showFieldError] a run makes, with the field name and the
    message of each. *)
Definition Shown : Type := list (string * string).

Definition shownBy (form : Form) (field : Element) : Shown :=
  match snd (validateField form field) with
  | Some message => [(fieldName field, message)]
  | None => []
  end.

(** [validateForm]: [isValid] starts as [true] and is set to [false] at each
    field that [validateField] rejects; every field is validated. *)
Definition validateForm (form : Form) : bool * Shown :=
  fold_left
    (fun (acc : bool * Shown) field =>
       let (isValid, shown) := acc in
       (if negb (fst (validateField form field)) then false else isValid,
        shown ++ shownBy form field))
    (validated form)
    (true, []).

End Validation.

Module SampleForm.
Import Validation.

Definition text (name value : string) : Element :=
  mkElement (Input false) name name value false.

Definition radio (name value : string) (checked : bool) : Element :=
  mkElement (Input true) name "" value checked.

Definition ticketForm : Form :=
  [ text "fullName" "Ada Lovelace";
    text "email" " ada@example.org ";
    text "phone" "+254 (712) 345-678";
    mkElement Select "subject" "subject" "billing" false;
    mkElement Textarea "message" "message" "The invoice is wrong." false;
    radio "contact" "email" false;
    radio "contact" "phone" true;
    mkElement (Input false) "terms" "terms" "on" true ].

(** The same form with a short name, a dotless address and nothing chosen
    among the radio buttons. *)
Definition badForm : Form :=
  [ text "fullName" " A ";
    text "email" "ada@example";
    text "phone" "0712 345 678";
    mkElement Select "subject" "subject" "billing" false;
    mkElement Textarea "message" "message" "The invoice is wrong." false;
    radio "contact" "email" false;
    radio "contact" "phone" false;
    mkElement (Input false) "terms" "terms" "on" true ].

End SampleForm.

(** ** The query of the server-side grid *)

Module OData.
Import OldTable.

(** A column of [settings.columns]: its [id] and its [dataType], [None]
    when the column has none. *)
Record Column : Type := mkColumn {
  col_id : string;
  col_dataType : option string
}.

(** [settings.columns.find(c => c.id === filter.column)?.dataType || 'string'] *)
Definition dataTypeOf (columns : list Column) (filter : FilterRule) : string :=
  match List.find (fun c => String.eqb (col_id c) (f_column filter)) columns with
  | Some column =>
      match col_dataType column with
      | Some dataType => if String.eqb dataType "" then "string" else dataType
      | None => "string"
      end
  | None => "string"
  end.

(** The callback of [settings.filters.map]: the part of [$filter] a rule
    gives, the empty string for none.  The value of a column that is no
    number column goes through the grid's [escapeHtml], which calls
    [replace] on it: that throws a [TypeError] for a value that is no
    string, here [None]. *)
Definition filterPart (columns : list Column) (filter : FilterRule) : option string :=
  let dataType := dataTypeOf columns filter in
  value ← (if String.eqb dataType "number" then Some (ToString (f_value filter))
           else match f_value filter with
                | VStr s => Some ("'" +:+ Html.escapeHtml s +:+ "'")
                | _ => None
                end);
  let relation := f_relation filter in
  Some
    (if String.eqb relation "equals" then f_column filter +:+ " eq " +:+ value
     else if String.eqb relation "contains" then
       if negb (String.eqb dataType "string") then ""
       else "contains(" +:+ f_column filter +:+ ", " +:+ value +:+ ")"
     else if String.eqb relation "startsWith" then
       if negb (String.eqb dataType "string") then ""
       else "startswith(" +:+ f_column filter +:+ ", " +:+ value +:+ ")"
     else if String.eqb relation "endsWith" then
       if negb (String.eqb dataType "string") then ""
       else "endswith(" +:+ f_column filter +:+ ", " +:+ value +:+ ")"
     else "").

(** [settings.filters.map(...)]: the rules in order, up to the first that
    throws. *)
Fixpoint mapParts (columns : list Column) (filters : list FilterRule)
  : option (list string) :=
  match filters with
  | [] => Some []
  | filter :: rest =>
      part ← filterPart columns filter;
      parts ← mapParts columns rest;
      Some (part :: parts)
  end.

Definition orderPart (sorter : SortRule) : string :=
  s_column sorter +:+ " " +:+ s_order sorter.

(** The array [params] at the end of [buildODataQuery]. *)
Definition queryParams (columns : list Column) (settings : Settings) (state : State)
  : option (list string) :=
  let paging :=
    if enabled (pagination settings) then
      let pageSize := pageSize (pagination settings) in
      let skip := (currentPage state - 1) * pageSize in
      ["$top=" +:+ ToString (VNum pageSize); "$skip=" +:+ ToString (VNum skip)]
    else [] in
  parts ← mapParts columns (filters settings);
  let filterParts := List.filter (fun part => negb (String.eqb part "")) parts in
  let orderParts := List.map orderPart (sorters settings) in
  Some (paging ++ ["$count=true"]
        ++ (if (0 <? List.length filterParts)%nat
            then ["$filter=" +:+ String.concat " and " filterParts] else [])
        ++ (if (0 <? List.length orderParts)%nat
            then ["$orderby=" +:+ String.concat "," orderParts] else [])).

Definition buildODataQuery (columns : list Column) (settings : Settings) (state : State)
  : option string :=
  params ← queryParams columns settings state;
  Some (if (0 <? List.length params)%nat then "?" +:+ String.concat "&" params else "").

(** A rule that puts a condition into [$filter]: [equals], or one of the
    three text relations on a column of type [string]. *)
Definition constrains (columns : list Column) (filter : FilterRule) : bool :=
  String.eqb (f_relation filter) "equals"
  || (String.eqb (dataTypeOf columns filter) "string"
      && (String.eqb (f_relation filter) "contains"
          || String.eqb (f_relation filter) "startsWith"
          || String.eqb (f_relation filter) "endsWith")).

(** A rule whose value makes the query throw. *)
Definition throwing (columns : list Column) (filter : FilterRule) : Prop :=
  dataTypeOf columns filter <> "number" /\ forall s, f_value filter <> VStr s.

End OData.

Module SampleQuery.
Import OldTable OData.

Definition columns : list Column :=
  [mkColumn "subject" None; mkColumn "priority" (Some "number")].

Definition settings (filters : list FilterRule) : Settings :=
  {| data := []; dataSource := Some "https://example.org/odata/Tickets";
     serverSide := true; filters := filters;
     sorters := [mkSorter "subject" "asc"];
     pagination := {| enabled := true; pageSize := 10 |} |}.

Definition state : State :=
  {| displayedData := []; totalCount := 0; totalPages := 0; currentPage := 3 |}.

Definition rules : list FilterRule :=
  [mkFilter "subject" "contains" (VStr "bug");
   mkFilter "subject" "gt" (VStr "x");
   mkFilter "priority" "contains" (VNum 2);
   mkFilter "priority" "equals" (VNum 2)].

End SampleQuery.

(** * Properties *)

(** ** Strings *)

Lemma startsWith_spec (s p : string) :
  JsString.startsWith s p = true <-> exists post, s = (p +:+ post).
Proof.
  revert s; induction p as [|c p IH]; intros s; simpl.
  - split; eauto.
  - destruct s as [|d s]; simpl.
    + split; [discriminate | intros [post H]; discriminate].
    + rewrite andb_true_iff, Ascii.eqb_eq, IH. split.
      * intros [-> [post ->]]. eauto.
      * intros [post H]. injection H as -> ->. eauto.
Qed.

Lemma includes_spec (s p : string) :
  JsString.includes s p = true <->
  exists pre post, s = (pre +:+ p +:+ post).
Proof.
  induction s as [|d s IH]; simpl.
  - rewrite orb_false_r, startsWith_spec. split.
    + intros [post H]. exists "", post. exact H.
    + intros [pre [post H]]. destruct pre; simpl in H; [eauto | discriminate].
  - rewrite orb_true_iff, IH, startsWith_spec. split.
    + intros [[post H] | [pre [post H]]].
      * exists "", post. exact H.
      * exists (String d pre), post. simpl. rewrite H. reflexivity.
    + intros [pre [post H]]. destruct pre as [|e pre]; simpl in H.
      * left. eauto.
      * right. injection H as -> ->. eauto.
Qed.

Lemma endsWith_spec (s p : string) :
  JsString.endsWith s p = true <-> exists pre, s = (pre +:+ p).
Proof.
  induction s as [|d s IH]; cbn [JsString.endsWith].
  - rewrite orb_false_r, String.eqb_eq. split.
    + intros <-. exists "". reflexivity.
    + intros [pre H]. destruct pre; simpl in H; [exact H | discriminate].
  - rewrite orb_true_iff, IH, String.eqb_eq. split.
    + intros [<- | [pre ->]].
      * exists "". reflexivity.
      * exists (String d pre). reflexivity.
    + intros [pre H]. destruct pre as [|e pre]; simpl in H.
      * left. exact H.
      * right. injection H as -> ->. eauto.
Qed.

(** ** The filter callback *)


(** [toString] never throws behind [|| '']. *)
Lemma fieldText_defined (v : JsVal) :
  toStringMethod (js_or v (VStr "")) <> None.
Proof. unfold js_or. destruct v as [| |[]|n|s]; simpl; try discriminate; destruct (negb _); discriminate. Qed.






Lemma filter_Kept {A : Type} (P : A -> Prop) (f : A -> bool) (l : list A) :
  (forall x, f x = true <-> P x) -> Kept P l (List.filter f l).
Proof.
  intros Hf. induction l as [|x l IH]; simpl.
  - constructor.
  - destruct (f x) eqn:E.
    + apply Kept_keep; [apply Hf, E | exact IH].
    + apply Kept_drop; [rewrite <- Hf; congruence | exact IH].
Qed.


(** [Kept] determines its result. *)
Lemma Kept_unique {A : Type} (P : A -> Prop) (l l1 l2 : list A) :
  Kept P l l1 -> Kept P l l2 -> l1 = l2.
Proof.
  intros H1. revert l2. induction H1; intros l2 H2; inversion H2; subst;
    try reflexivity; try contradiction; try (f_equal; auto); auto.
Qed.


(** ** [Array.prototype.sort] *)

Section ArraySortFacts.
Context {A : Type} (comparefn : A -> A -> Z).

Lemma sortInsert_Permutation (x : A) (l : list A) :
  Permutation (sortInsert comparefn x l) (x :: l).
Proof.
  induction l as [|y l IH]; simpl.
  - reflexivity.
  - destruct (0 <? comparefn x y).
    + rewrite IH. apply perm_swap.
    + reflexivity.
Qed.

Lemma arraySort_Permutation (l : list A) :
  Permutation (arraySort comparefn l) l.
Proof.
  induction l as [|x l IH]; simpl.
  - reflexivity.
  - rewrite sortInsert_Permutation. constructor. exact IH.
Qed.

Lemma arraySort_length (l : list A) :
  List.length (arraySort comparefn l) = List.length l.
Proof. apply Permutation_length, arraySort_Permutation. Qed.

(** An array that is already in order is left as it is. *)
Lemma arraySort_sorted_id (l : list A) :
  StronglySorted (fun a b => comparefn a b <= 0) l -> arraySort comparefn l = l.
Proof.
  induction 1 as [|x l Hl IH Hx]; simpl.
  - reflexivity.
  - rewrite IH. destruct l as [|y l]; simpl; [reflexivity|].
    apply Forall_cons_iff in Hx as [Hxy _].
    replace (0 <? comparefn x y) with false; [reflexivity|].
    symmetry. apply Z.ltb_ge. exact Hxy.
Qed.

(** A consistent comparator on a domain [D]. *)
Variable D : A -> Prop.
Hypothesis comparefn_antisym :
  forall x y, D x -> D y -> Z.sgn (comparefn y x) = - Z.sgn (comparefn x y).
Hypothesis comparefn_trans :
  forall x y z, D x -> D y -> D z ->
    comparefn x y <= 0 -> comparefn y z <= 0 -> comparefn x z <= 0.

Lemma sortInsert_sorted (x : A) (l : list A) :
  D x -> Forall D l ->
  StronglySorted (fun a b => comparefn a b <= 0) l ->
  StronglySorted (fun a b => comparefn a b <= 0) (sortInsert comparefn x l).
Proof.
  intros Dx Dl Hs. induction Hs as [|y l Hl IH Hy]; simpl.
  - repeat constructor.
  - apply Forall_cons_iff in Dl as [Dy Dl].
    destruct (0 <? comparefn x y) eqn:E.
    + apply Z.ltb_lt in E. constructor; [apply IH, Dl|].
      rewrite (sortInsert_Permutation x l). constructor; [|exact Hy].
      specialize (comparefn_antisym x y Dx Dy). lia.
    + apply Z.ltb_ge in E. constructor; [constructor; assumption|].
      constructor; [exact E|].
      rewrite Forall_forall in Hy, Dl |- *. intros z Hz.
      apply (comparefn_trans x y z); auto.
Qed.

Lemma arraySort_sorted (l : list A) :
  Forall D l ->
  StronglySorted (fun a b => comparefn a b <= 0) (arraySort comparefn l).
Proof.
  induction l as [|x l IH]; intros Dl; simpl.
  - constructor.
  - apply Forall_cons_iff in Dl as [Dx Dl]. apply sortInsert_sorted; auto.
    rewrite (arraySort_Permutation l). exact Dl.
Qed.


End ArraySortFacts.

(** ** The relational operators *)

Lemma string_compare_refl (s : string) : String.compare s s = Eq.
Proof.
  induction s as [|c s IH]; simpl; [reflexivity|].
  unfold Ascii.compare. rewrite N.compare_refl. exact IH.
Qed.

Lemma string_compare_Lt_trans (s t u : string) :
  String.compare s t = Lt -> String.compare t u = Lt -> String.compare s u = Lt.
Proof.
  intros Hst Htu.
  assert (String.le s u) as Hsu.
  { transitivity t; unfold String.le, String.leb; [rewrite Hst | rewrite Htu]; exact I. }
  unfold String.le, String.leb in Hsu.
  destruct (String.compare s u) eqn:E; [|reflexivity|contradiction].
  apply String.compare_eq_iff in E. subst u.
  rewrite String.compare_antisym, Hst in Htu. discriminate.
Qed.

Lemma js_lt_asym (a b : JsVal) : js_lt a b = true -> js_lt b a = false.
Proof.
  unfold js_lt, JsString.lt.
  destruct a as [| |x|x|s], b as [| |y|y|t]; simpl; try discriminate;
    try (destruct (JsNumber.StringToNumber _); try discriminate);
    try (rewrite Z.ltb_lt, Z.ltb_ge; lia).
  rewrite (String.compare_antisym t s). destruct (String.compare s t); simpl; congruence.
Qed.

Lemma comparison_antisym (a b : JsVal) : comparison b a = - comparison a b.
Proof.
  unfold comparison, js_gt.
  destruct (js_lt a b) eqn:E1; destruct (js_lt b a) eqn:E2; try reflexivity.
  apply js_lt_asym in E1. congruence.
Qed.

Lemma comparison_range (a b : JsVal) :
  comparison a b = -1 \/ comparison a b = 0 \/ comparison a b = 1.
Proof. unfold comparison. destruct (js_gt a b), (js_lt a b); auto. Qed.

(** An [undefined] on either side is incomparable: the result is 0. *)
Lemma comparison_undefined (v : JsVal) :
  comparison VUndef v = 0 /\ comparison v VUndef = 0.
Proof.
  unfold comparison, js_gt, js_lt.
  destruct v as [| |x|x|s]; simpl; try (split; reflexivity).
  destruct (JsNumber.StringToNumber s); split; reflexivity.
Qed.

Lemma comparison_strings (s t : string) :
  comparison (VStr s) (VStr t) =
  match String.compare s t with Lt => -1 | Eq => 0 | Gt => 1 end.
Proof.
  unfold comparison, js_gt, js_lt, JsString.lt.
  rewrite (String.compare_antisym s t). destruct (String.compare t s); reflexivity.
Qed.

Lemma comparison_numeric (a b : JsVal) (x y : Z) :
  isString a && isString b = false ->
  JsNumber.ToNumber a = Some x -> JsNumber.ToNumber b = Some y ->
  comparison a b = Z.sgn (x - y).
Proof.
  intros Hs Ha Hb. unfold comparison, js_gt, js_lt.
  destruct a as [| |p|p|s], b as [| |q|q|t]; try discriminate;
    cbn [JsNumber.ToNumber] in *; simplify_eq;
    try rewrite ?Ha, ?Hb;
    repeat match goal with |- context [?u <? ?v] => destruct (Z.ltb_spec u v) end;
    lia.
Qed.

(** The shape of transitivity that a tie-break chain needs, for the values
    of one comparable column. *)
Definition signTransitive (x y z : Z) : Prop :=
  (x <= 0 -> y <= 0 -> z <= 0 /\ (z = 0 -> x = 0 /\ y = 0)) /\
  (0 <= x -> 0 <= y -> 0 <= z /\ (z = 0 -> x = 0 /\ y = 0)).

Lemma comparison_trans_strings (s t u : string) :
  signTransitive (comparison (VStr s) (VStr t)) (comparison (VStr t) (VStr u))
                 (comparison (VStr s) (VStr u)).
Proof.
  rewrite !comparison_strings. unfold signTransitive.
  destruct (String.compare s t) eqn:Est; destruct (String.compare t u) eqn:Etu;
    try (apply String.compare_eq_iff in Est; subst t; rewrite ?Etu);
    try (apply String.compare_eq_iff in Etu; subst u; rewrite ?Est);
    rewrite ?string_compare_refl; try (split; intros; lia).
  - rewrite (string_compare_Lt_trans s t u Est Etu). split; intros; lia.
  - assert (String.compare u t = Lt) as H1
        by (rewrite String.compare_antisym, Etu; reflexivity).
    assert (String.compare t s = Lt) as H2
        by (rewrite String.compare_antisym, Est; reflexivity).
    rewrite String.compare_antisym, (string_compare_Lt_trans u t s H1 H2).
    split; intros; simpl; lia.
Qed.

Lemma comparison_trans_numeric (a b c : JsVal) :
  isNumeric a = true -> isNumeric b = true -> isNumeric c = true ->
  signTransitive (comparison a b) (comparison b c) (comparison a c).
Proof.
  intros Ha Hb Hc.
  assert (forall v, isNumeric v = true ->
            isString v = false /\ exists n, JsNumber.ToNumber v = Some n) as Hnum.
  { intros [| |p|p|s]; simpl; try discriminate; eauto. }
  destruct (Hnum a Ha) as [Sa [x Hx]], (Hnum b Hb) as [Sb [y Hy]],
           (Hnum c Hc) as [Sc [z Hz]].
  rewrite (comparison_numeric a b x y), (comparison_numeric b c y z),
          (comparison_numeric a c x z); auto; try (rewrite ?Sa, ?Sb; reflexivity).
  unfold signTransitive. lia.
Qed.

(** ** The comparator of the sort phase *)



Lemma compareTickets_antisym (sorters : list SortRule) (a b : Ticket) :
  compareTickets sorters b a = - compareTickets sorters a b.
Proof.
  induction sorters as [|s rest IH]; simpl; [reflexivity|].
  rewrite (comparison_antisym (getField a (s_column s)) (getField b (s_column s))).
  set (c := comparison _ _).
  destruct (Z.eqb_spec c 0) as [E|E]; destruct (Z.eqb_spec (- c) 0) as [E'|E'];
    try lia; simpl; [exact IH|].
  destruct (String.eqb (s_order s) "asc"); lia.
Qed.



Lemma compareTickets_zero (sorters : list SortRule) (a b : Ticket) :
  compareTickets sorters a b = 0 <-> EqualUnderAll sorters a b.
Proof.
  unfold EqualUnderAll. induction sorters as [|s rest IH]; simpl.
  - split; [constructor | reflexivity].
  - rewrite Forall_cons_iff. unfold EqualUnder at 1.
    destruct (Z.eqb_spec (comparison (getField a (s_column s)) (getField b (s_column s))) 0)
      as [E|E]; simpl.
    + rewrite IH. tauto.
    + destruct (String.eqb (s_order s) "asc"); split; intros; try lia; tauto.
Qed.

Lemma comparableColumn_signTransitive (tickets : list Ticket) (column : string)
    (a b c : Ticket) :
  comparableColumn tickets column = true ->
  In a tickets -> In b tickets -> In c tickets ->
  signTransitive (comparison (getField a column) (getField b column))
                 (comparison (getField b column) (getField c column))
                 (comparison (getField a column) (getField c column)).
Proof.
  unfold comparableColumn. rewrite orb_true_iff, !forallb_forall.
  intros [H|H] Ha Hb Hc.
  - pose proof (H a Ha) as Sa. pose proof (H b Hb) as Sb. pose proof (H c Hc) as Sc.
    destruct (getField a column), (getField b column), (getField c column);
      try discriminate. apply comparison_trans_strings.
  - apply comparison_trans_numeric; auto.
Qed.

Lemma compareTickets_trans (tickets : list Ticket) (sorters : list SortRule)
    (a b c : Ticket) :
  comparableColumns tickets sorters = true ->
  In a tickets -> In b tickets -> In c tickets ->
  compareTickets sorters a b <= 0 -> compareTickets sorters b c <= 0 ->
  compareTickets sorters a c <= 0.
Proof.
  unfold comparableColumns. intros Hcols Ha Hb Hc.
  induction sorters as [|s rest IH]; simpl; [lia|].
  simpl in Hcols. apply andb_true_iff in Hcols as [Hcol Hcols].
  pose proof (comparableColumn_signTransitive tickets (s_column s) a b c Hcol Ha Hb Hc)
    as [T1 T2].
  specialize (IH Hcols).
  destruct (Z.eqb_spec (comparison (getField a (s_column s)) (getField b (s_column s))) 0);
  destruct (Z.eqb_spec (comparison (getField b (s_column s)) (getField c (s_column s))) 0);
  destruct (Z.eqb_spec (comparison (getField a (s_column s)) (getField c (s_column s))) 0);
  destruct (String.eqb (s_order s) "asc"); simpl; try lia; auto.
Qed.



(** ** [processTickets] on the store *)


(** ** Filtering: claim C1 *)




Example processTickets_filter_sample :
  processTickets [Sample.ticketA; Sample.ticketB; Sample.ticketC]
                 [Sample.subjectContainsBug] []
  = [Sample.ticketA; Sample.ticketC].
Proof. vm_compute. reflexivity. Qed.

(** ** Sorting: claims C2 and C3 *)

Lemma StronglySorted_weaken {A : Type} (R S : A -> A -> Prop) (l : list A) :
  (forall a b, R a b -> S a b) -> StronglySorted R l -> StronglySorted S l.
Proof.
  intros HRS. induction 1 as [|x l Hl IH Hx]; constructor; [exact IH|].
  eapply Forall_impl; [|exact Hx]. intros b. apply HRS.
Qed.




(** The scenario of the specification: the default sorter lists the newer
    ticket first. *)
Example sortPhase_newest_first :
  sortPhase [Sample.ticketA; Sample.ticketB; Sample.ticketC] [Sample.newestFirst]
  = [Sample.ticketB; Sample.ticketC; Sample.ticketA].
Proof. vm_compute. reflexivity. Qed.

Lemma comparison_mixed (a b : JsVal) :
  isString a && isString b = false ->
  comparison a b =
  match JsNumber.ToNumber a, JsNumber.ToNumber b with
  | Some x, Some y => Z.sgn (x - y)
  | _, _ => 0
  end.
Proof.
  intros Hs.
  destruct (JsNumber.ToNumber a) as [x|] eqn:Ea;
    [destruct (JsNumber.ToNumber b) as [y|] eqn:Eb|].
  - apply comparison_numeric; assumption.
  - unfold comparison, js_gt, js_lt.
    destruct a as [| |p|p|s], b as [| |q|q|t]; try discriminate;
      cbn [JsNumber.ToNumber] in *; rewrite ?Ea, ?Eb; reflexivity.
  - unfold comparison, js_gt, js_lt.
    destruct a as [| |p|p|s], b as [| |q|q|t]; try discriminate;
      cbn [JsNumber.ToNumber] in *; rewrite ?Ea;
      try destruct (JsNumber.StringToNumber _); reflexivity.
Qed.

(** Sort rules on columns that no record has leave the order alone. *)
Lemma sortPhase_absent_columns (tickets : list Ticket) (sorters : list SortRule) :
  (forall s t, In s sorters -> In t tickets -> t !! s_column s = None) ->
  sortPhase tickets sorters = tickets.
Proof.
  intros Habs. unfold sortPhase. apply arraySort_sorted_id.
  assert (forall a b, In a tickets -> In b tickets ->
                      compareTickets sorters a b <= 0) as Hle.
  { intros a b Ha Hb. enough (compareTickets sorters a b = 0) by lia.
    apply compareTickets_zero. apply Forall_forall. intros s Hs.
    unfold EqualUnder, getField. rewrite (Habs s a Hs Ha), (Habs s b Hs Hb).
    pose proof (comparison_antisym (default VUndef (ObjectPrototype (s_column s)))
                                   (default VUndef (ObjectPrototype (s_column s)))).
    lia. }
  clear Habs. induction tickets as [|t l IH]; constructor.
  - apply IH. intros a b Ha Hb. apply Hle; right; assumption.
  - apply Forall_forall. intros b Hb. apply Hle; [left; reflexivity|right; exact Hb].
Qed.

(** C3, as stated, fails on both counts: against a string, [undefined]
    compares equal (0) where the claim makes it the lowest (-1), so a record
    without the sort column is not moved to the front; and [null] against the
    number 1 compares as the numbers 0 and 1 (-1) where the claim compares
    the strings "null" and "1" (1). *)
Lemma C3_comparison_counterexample :
  comparison VUndef (VStr "a") = 0 /\ statedComparison VUndef (VStr "a") = -1 /\
  comparison VNull (VNum 1) = -1 /\ statedComparison VNull (VNum 1) = 1 /\
  sortPhase [Sample.keyA; Sample.keyNone] [Sample.byKeyAsc]
    = [Sample.keyA; Sample.keyNone].
Proof. repeat split; vm_compute; reflexivity. Qed.

(** C3, amended: the comparator always yields -1, 0 or 1 and never throws,
    and swapping the operands negates the result; two strings compare by code
    units, every other pair compares as numbers after [ToNumber], and a pair
    with a NaN on either side is reported equal; in particular [undefined]
    compares equal to every value, so sort rules naming columns that no record
    has leave the records in their original order. *)
Theorem C3_comparison_total :
  (forall a b, comparison a b = -1 \/ comparison a b = 0 \/ comparison a b = 1) /\
  (forall a b, comparison b a = - comparison a b) /\
  (forall s t, comparison (VStr s) (VStr t) =
               match String.compare s t with Lt => -1 | Eq => 0 | Gt => 1 end) /\
  (forall a b, isString a && isString b = false ->
               comparison a b =
               match JsNumber.ToNumber a, JsNumber.ToNumber b with
               | Some x, Some y => Z.sgn (x - y)
               | _, _ => 0
               end) /\
  (forall v, comparison VUndef v = 0 /\ comparison v VUndef = 0) /\
  (forall tickets sorters,
     (forall s t, In s sorters -> In t tickets -> t !! s_column s = None) ->
     sortPhase tickets sorters = tickets).
Proof.
  split; [exact comparison_range|].
  split; [exact comparison_antisym|].
  split; [exact comparison_strings|].
  split; [exact comparison_mixed|].
  split; [exact comparison_undefined|].
  exact sortPhase_absent_columns.
Qed.

Lemma filter_all {A : Type} (P : A -> Prop) `{forall x, Decision (P x)} (l : list A) :
  (forall x, In x l -> P x) -> filter P l = l.
Proof.
  induction l as [|x l IH]; intros Hl; [reflexivity|].
  rewrite filter_cons. destruct (decide (P x)) as [_|N].
  - f_equal. apply IH. intros y Hy. apply Hl. right. exact Hy.
  - exfalso. apply N, Hl. left. reflexivity.
Qed.

(** The failure of C2 on the three sample records does not depend on how the
    engine sorts: no arrangement of them is both ordered by the chain and
    stable. *)
Lemma sort_chain_unsatisfiable (p : list Ticket) :
  Permutation p [Sample.keyB; Sample.keyNone; Sample.keyA] ->
  StronglySorted (fun a b => ~ Before [Sample.byKeyAsc] b a) p ->
  filter (EqualUnderAll [Sample.byKeyAsc] Sample.keyNone) p
    = filter (EqualUnderAll [Sample.byKeyAsc] Sample.keyNone)
             [Sample.keyB; Sample.keyNone; Sample.keyA] ->
  False.
Proof.
  intros Hp Hs Hst.
  assert (forall t, EqualUnderAll [Sample.byKeyAsc] Sample.keyNone t) as Hall.
  { intros t. constructor; [|constructor]. apply comparison_undefined. }
  rewrite !filter_all in Hst by (intros; apply Hall). subst p.
  inversion Hs as [|? ? _ Hb]; subst.
  apply Forall_forall with (x := Sample.keyA) in Hb; [|simpl; auto].
  apply Hb. apply Before_here. vm_compute. reflexivity.
Qed.

(** ** Unknown relations: claim C10 *)

Lemma matchesFilter_unknownRelation (t : Ticket) (rule : FilterRule) :
  unknownRelation rule -> matchesFilter t rule = true.
Proof.
  intros (N1 & N2 & N3 & N4). unfold matchesFilter.
  apply String.eqb_neq in N1, N2, N3, N4. rewrite N1, N2, N3, N4. reflexivity.
Qed.

Lemma startsWith_empty (p : string) : JsString.startsWith "" p = true -> p = "".
Proof. destruct p; [reflexivity | discriminate]. Qed.

(** Reading a field that the record has no member for and that is not
    inherited either. *)
Lemma getField_absent (t : Ticket) (column : string) :
  t !! column = None -> ObjectPrototype column = None -> getField t column = VUndef.
Proof. intros Hown Hinherited. unfold getField. rewrite Hown, Hinherited. reflexivity. Qed.

Lemma getField_own (t : Ticket) (column : string) :
  ObjectPrototype column = None -> getField t column = default VUndef (t !! column).
Proof. intros Hinherited. unfold getField. rewrite Hinherited. destruct (t !! column); reflexivity. Qed.

Example getField_sample :
  getField Sample.ticketA "subject" = VStr "Login Bug" /\
  getField Sample.ticketA "nope" = VUndef /\
  getField Sample.ticketA "constructor" = VStr "function Object() { [native code] }" /\
  getField Sample.ticketA "toString" = VStr "function toString() { [native code] }" /\
  getField {[ "constructor" := VNum 7 ]} "constructor" = VNum 7.
Proof. repeat split; vm_compute; reflexivity. Qed.

Lemma matchesFilter_unknown_column (t : Ticket) (rule : FilterRule) :
  knownRelation rule -> t !! f_column rule = None ->
  ObjectPrototype (f_column rule) = None ->
  matchesFilter t rule = true -> fieldText (f_value rule) = "".
Proof.
  intros Hk Habs Hinherited. unfold matchesFilter.
  rewrite (getField_absent t _ Habs Hinherited).
  change (fieldText VUndef) with "".
  set (fv := fieldText (f_value rule)).
  destruct Hk as [E|[E|[E|E]]]; rewrite E; simpl;
    destruct fv; simpl; intros; (reflexivity || discriminate).
Qed.

Lemma matchesFilter_empty_value (t : Ticket) (rule : FilterRule) :
  t !! f_column rule = None -> ObjectPrototype (f_column rule) = None ->
  fieldText (f_value rule) = "" -> matchesFilter t rule = true.
Proof.
  intros Habs Hinherited Hv. unfold matchesFilter.
  rewrite (getField_absent t _ Habs Hinherited), Hv.
  change (fieldText VUndef) with "".
  repeat match goal with
         | |- context [if ?b then _ else _] => destruct b
         end; reflexivity.
Qed.

(** C10, as stated, fails in its contrast.  A rule with an empty value on a
    column that no record has compares the empty text with the empty text
    and keeps every record; and a column that no record has as a field may
    still be read: [constructor] is inherited by every record, so the rule
    [constructor contains 'function'] keeps every record too. *)
Lemma C10_unknown_column_counterexample :
  Forall (fun t : Ticket => t !! "nope" = None /\ t !! "constructor" = None)
         [Sample.ticketA; Sample.ticketB] /\
  processTickets [Sample.ticketA; Sample.ticketB]
                 [mkFilter "nope" "equals" (VStr "")] []
  = [Sample.ticketA; Sample.ticketB] /\
  processTickets [Sample.ticketA; Sample.ticketB]
                 [mkFilter "constructor" "contains" (VStr "function")] []
  = [Sample.ticketA; Sample.ticketB].
Proof.
  split; [repeat constructor|]. split; vm_compute; reflexivity.
Qed.

(** C10, amended: a rule whose relation is none of equals, contains,
    startsWith and endsWith is satisfied by every record, so a rule set of
    such rules only filters out nothing, whatever the sorters do to the
    order.  By contrast, take a rule with one of the four relations on a
    column that no record has, neither as a member of its own nor as one
    inherited from [Object.prototype]: when the rule's value is not empty
    after the coercion (it is not falsy) no record satisfies the rule and
    everything is filtered out, and when the value is falsy every record
    satisfies it and nothing is filtered out. *)
Theorem C10_unknown_relation (filters : list FilterRule) :
  Forall unknownRelation filters ->
  (forall rule t, In rule filters -> matchesFilter t rule = true) /\
  (forall tickets, filterPhase tickets filters = tickets) /\
  (forall tickets sorters, Permutation (processTickets tickets filters sorters) tickets) /\
  (forall rule tickets,
     knownRelation rule -> fieldText (f_value rule) <> "" ->
     ObjectPrototype (f_column rule) = None ->
     (forall t, In t tickets -> t !! f_column rule = None) ->
     filterPhase tickets [rule] = []) /\
  (forall rule tickets,
     fieldText (f_value rule) = "" ->
     ObjectPrototype (f_column rule) = None ->
     (forall t, In t tickets -> t !! f_column rule = None) ->
     filterPhase tickets [rule] = tickets).
Proof.
  intros Hunk. rewrite Forall_forall in Hunk.
  assert (forall tickets, filterPhase tickets filters = tickets) as Hall.
  { intros tickets. unfold filterPhase. destruct (0 <? _); [|reflexivity].
    induction tickets as [|t l IH]; [reflexivity|]. simpl.
    replace (matchesAll filters t) with true; [rewrite IH; reflexivity|].
    symmetry. apply forallb_forall. intros r Hr.
    apply matchesFilter_unknownRelation, Hunk, Hr. }
  split; [intros rule t Hr; apply matchesFilter_unknownRelation, Hunk, Hr|].
  split; [exact Hall|].
  split; [|split].
  - intros tickets sorters. unfold processTickets. rewrite Hall.
    apply arraySort_Permutation.
  - intros rule tickets Hk Hv Hinherited Habs. unfold filterPhase. simpl.
    induction tickets as [|t l IH]; [reflexivity|]. simpl.
    destruct (matchesFilter t rule) eqn:E.
    + exfalso. apply Hv. apply (matchesFilter_unknown_column t rule Hk); auto.
      apply Habs. left. reflexivity.
    + simpl. apply IH. intros t' Ht'. apply Habs. right. exact Ht'.
  - intros rule tickets Hv Hinherited Habs. unfold filterPhase. simpl.
    induction tickets as [|t l IH]; [reflexivity|]. simpl.
    rewrite (matchesFilter_empty_value t rule (Habs t (or_introl eq_refl)) Hinherited Hv).
    simpl. f_equal. apply IH. intros t' Ht'. apply Habs. right. exact Ht'.
Qed.

Lemma C10_unknown_relation_witness :
  Forall unknownRelation [mkFilter "subject" "gt" (VStr "x")] /\
  (forall tickets, filterPhase tickets [mkFilter "subject" "gt" (VStr "x")] = tickets).
Proof.
  assert (Forall unknownRelation [mkFilter "subject" "gt" (VStr "x")]) as H
    by (repeat constructor; simpl; discriminate).
  split; [exact H|].
  exact (proj1 (proj2 (C10_unknown_relation [mkFilter "subject" "gt" (VStr "x")] H))).
Defined.

(** ** The local data provider: claim C4 *)

Lemma firstn_min_length {A : Type} (n : nat) (l : list A) :
  firstn (Nat.min n (List.length l)) l = firstn n l.
Proof.
  destruct (Nat.le_ge_cases n (List.length l)) as [H|H].
  - rewrite Nat.min_l by exact H. reflexivity.
  - rewrite Nat.min_r by exact H. rewrite !firstn_all2; auto.
Qed.

Lemma slice_page {A : Type} (l : list A) (start size : Z) :
  0 <= start -> 0 <= size ->
  slice l start (start + size) = firstn (Z.to_nat size) (skipn (Z.to_nat start) l).
Proof.
  intros Hs Hz. unfold slice.
  replace (start <? 0) with false by (symmetry; apply Z.ltb_ge; lia).
  replace (start + size <? 0) with false by (symmetry; apply Z.ltb_ge; lia).
  destruct (Z.le_gt_cases (Z.of_nat (List.length l)) start) as [Hge|Hlt].
  - rewrite !skipn_all2 by lia. rewrite !firstn_nil. reflexivity.
  - rewrite (Z.min_l start) by lia.
    rewrite <- (firstn_min_length (Z.to_nat size)). f_equal.
    rewrite length_skipn. lia.
Qed.

Lemma processData_length (data : list Ticket) (filters : list FilterRule)
    (sorters : list SortRule) :
  List.length (processData data filters sorters)
  = List.length (filterPhase data filters).
Proof. unfold processData, sortPhase. apply arraySort_length. Qed.

(** C4: for a page request with page >= 1 and pageSize >= 1 against the
    local provider (client-side mode, pagination enabled), [totalCount] is the
    length of the filtered collection, the data are the slice of the filtered
    and then sorted collection that starts at index (page-1)*pageSize and is
    pageSize long at most, and the length of the data is
    min(pageSize, totalCount - (page-1)*pageSize), or 0 when that is
    negative. *)
Theorem C4_fetchData_page (settings : OldTable.Settings) (reply : OldTable.ServerReply)
    (state : OldTable.State) :
  OldTable.serverSide settings = false ->
  OldTable.enabled (OldTable.pagination settings) = true ->
  1 <= OldTable.currentPage state ->
  1 <= OldTable.pageSize (OldTable.pagination settings) ->
  let page := OldTable.currentPage state in
  let pageSize := OldTable.pageSize (OldTable.pagination settings) in
  let state' := OldTable.fetchData settings reply state in
  let filtered := filterPhase (OldTable.data settings) (OldTable.filters settings) in
  let full := sortPhase filtered (OldTable.sorters settings) in
  OldTable.totalCount state' = Z.of_nat (List.length filtered) /\
  OldTable.displayedData state'
    = firstn (Z.to_nat pageSize) (skipn (Z.to_nat ((page - 1) * pageSize)) full) /\
  Z.of_nat (List.length (OldTable.displayedData state'))
    = Z.max 0 (Z.min pageSize (OldTable.totalCount state' - (page - 1) * pageSize)).
Proof.
  intros Hlocal Hen Hpage Hsize. cbv zeta.
  unfold OldTable.fetchData. rewrite Hlocal, Hen. cbn [OldTable.totalCount OldTable.displayedData].
  rewrite processData_length.
  split; [reflexivity|].
  rewrite slice_page by nia.
  split; [reflexivity|].
  rewrite length_firstn, length_skipn, processData_length.
  assert (0 <= (OldTable.currentPage state - 1)
               * OldTable.pageSize (OldTable.pagination settings)) by nia.
  lia.
Qed.

Lemma C4_fetchData_page_witness :
  let state' := OldTable.fetchData SampleGrid.settings OldTable.ReplyFails (SampleGrid.page 2) in
  OldTable.totalCount state' = 3 /\
  OldTable.displayedData state' = [SampleGrid.rec "5" "debug build"] /\
  OldTable.totalPages state' = 2.
Proof.
  pose proof (C4_fetchData_page SampleGrid.settings OldTable.ReplyFails (SampleGrid.page 2)
                eq_refl eq_refl ltac:(simpl; lia) ltac:(simpl; lia)) as (H1 & H2 & _).
  cbv zeta. rewrite H1, H2. vm_compute. repeat split; reflexivity.
Defined.

(** The paging scenario of the specification: page size 2, five records of
    which three match, gives two records on page 1, one on page 2, a total
    count of 3 and 2 pages. *)
Example fetchData_scenario :
  let p1 := OldTable.fetchData SampleGrid.settings OldTable.ReplyFails (SampleGrid.page 1) in
  let p2 := OldTable.fetchData SampleGrid.settings OldTable.ReplyFails (SampleGrid.page 2) in
  OldTable.displayedData p1
    = [SampleGrid.rec "1" "Bug: login"; SampleGrid.rec "3" "export bug"] /\
  OldTable.displayedData p2 = [SampleGrid.rec "5" "debug build"] /\
  OldTable.totalCount p1 = 3 /\ OldTable.totalPages p1 = 2.
Proof. vm_compute. repeat split; reflexivity. Qed.

(** ** The grid engine: claim C5 *)

(** A fetch that resolves establishes the invariant. *)
Lemma fetchServerData_resolved_invariant (settings : Grid.Settings)
    (dataSource : Grid.Request -> Grid.Reply) (state : Grid.State)
    (data : option (list Ticket)) (totalCount : option Z) :
  dataSource (Grid.request settings state) = Grid.Resolved data totalCount ->
  Grid.invariant settings (Grid.fetchServerData settings dataSource state).
Proof.
  intros Hreply. unfold Grid.fetchServerData, Grid.invariant. rewrite Hreply.
  cbn [Grid.currentPage Grid.totalPages Grid.totalCount].
  split; [|reflexivity].
  set (tp := if Grid.paginationEnabled settings then _ else 1).
  destruct (Z.eqb_spec tp 0); lia.
Qed.

(** A fetch that fails empties the data and zeroes the count, and touches
    nothing else. *)
Lemma fetchServerData_failed (settings : Grid.Settings)
    (dataSource : Grid.Request -> Grid.Reply) (state : Grid.State) :
  (forall request, dataSource request = Grid.Rejected \/
                   dataSource request = Grid.ResolvedNullish) ->
  let state' := Grid.fetchServerData settings dataSource state in
  Grid.data state' = [] /\ Grid.totalCount state' = 0 /\
  Grid.totalPages state' = Grid.totalPages state /\
  Grid.currentPage state' = Grid.currentPage state /\
  Grid.filters state' = Grid.filters state /\
  Grid.sorters state' = Grid.sorters state /\
  Grid.selectedRows state' = Grid.selectedRows state.
Proof.
  intros Hfail. cbv zeta. unfold Grid.fetchServerData.
  destruct (Hfail (Grid.request settings state)) as [-> | ->];
    repeat split; reflexivity.
Qed.

(** With pagination on, the state after a failed fetch satisfies the
    invariant only if the page count was already 0. *)
Lemma fetchServerData_failed_invariant (settings : Grid.Settings)
    (dataSource : Grid.Request -> Grid.Reply) (state : Grid.State) :
  (forall request, dataSource request = Grid.Rejected \/
                   dataSource request = Grid.ResolvedNullish) ->
  Grid.paginationEnabled settings = true ->
  Grid.pageSize settings <> 0 ->
  Grid.totalPages state <> 0 ->
  ~ Grid.invariant settings (Grid.fetchServerData settings dataSource state).
Proof.
  intros Hfail Hen Hps Htp [_ Hinv].
  destruct (fetchServerData_failed settings dataSource state Hfail)
    as (_ & Hc & Hp & _).
  rewrite Hp, Hc, Hen in Hinv. unfold ceilDiv in Hinv.
  change (- 0) with 0 in Hinv. rewrite Z.div_0_l in Hinv by exact Hps. lia.
Qed.

(** C5 at the failing input: page 3 of 3 of twenty rows is shown (the
    invariant holds), then a refresh fails.  The data are emptied and the
    count is 0, but [totalPages] is still 3 and [currentPage] still 3: the
    invariant, which asks for [totalPages = ceil(0 / 8) = 0] and
    [currentPage <= max(1, 0)], is broken. *)
Theorem C5_failed_fetch_breaks_invariant :
  Grid.invariant SampleEngine.settings SampleEngine.onPage3 /\
  Grid.data SampleEngine.afterFailure = [] /\
  Grid.totalCount SampleEngine.afterFailure = 0 /\
  Grid.totalPages SampleEngine.afterFailure = 3 /\
  Grid.currentPage SampleEngine.afterFailure = 3 /\
  ceilDiv (Grid.totalCount SampleEngine.afterFailure)
          (Grid.pageSize SampleEngine.settings) = 0 /\
  ~ Grid.invariant SampleEngine.settings SampleEngine.afterFailure.
Proof.
  split; [vm_compute; split; [split; discriminate | reflexivity]|].
  repeat (split; [reflexivity|]).
  apply fetchServerData_failed_invariant.
  - intros request. left. reflexivity.
  - reflexivity.
  - discriminate.
  - discriminate.
Qed.

(** ** Rule editor sessions: claim C7 *)

(** The two versions of [loadTickets] show the same list. *)
Lemma loadTickets_inline_eq (tickets : list Ticket) (app : App.State) :
  App.loadTickets_inline tickets app = App.loadTickets tickets app.
Proof. reflexivity. Qed.

(** C7, as stated, fails for the grid engine: its reset handler assigns
    [[]] to [state[stateKey]] whichever the key, so a sorter session commits
    the empty list and not the default rule. *)
Lemma C7_grid_reset_sorters_counterexample :
  let state := Grid.commitSorters [mkSorter "fullName" "asc"] Grid.initialState in
  let modal := Grid.openClicked (Grid.sorters state) {| Grid.rows := []; Grid.visible := false |} in
  Grid.sorters (fst (Grid.resetSortersClicked state modal)) = [] /\
  Grid.sorters (fst (Grid.resetSortersClicked state modal))
    <> [mkSorter "dateCreated" "desc"].
Proof. split; [reflexivity | discriminate]. Qed.

(** C7, amended: a reset of a filter session commits the empty rule set, in
    the application and in the grid engine; a reset of a sorter session
    commits the single default rule (dateCreated, descending) in the
    application and the empty rule set in the grid engine.  The scratch rows
    are discarded: the application re-renders them from the committed rules at
    once (one blank row for no filters), the grid engine closes the modal and
    rebuilds the rows from the committed rules when it is opened again, and
    also returns to page 1. *)
Theorem C7_reset_commits :
  (forall app,
     App.currentFilters (App.resetFilters app) = [] /\
     App.filterRows (App.resetFilters app) = [App.defaultFilterRow] /\
     App.currentSorters (App.resetFilters app) = App.currentSorters app /\
     forall tickets, Permutation (App.loadTickets tickets (App.resetFilters app)) tickets) /\
  (forall app,
     App.currentSorters (App.resetSorters app) = [mkSorter "dateCreated" "desc"] /\
     App.sorterRows (App.resetSorters app) = [mkSorter "dateCreated" "desc"] /\
     App.currentFilters (App.resetSorters app) = App.currentFilters app) /\
  (forall settings dataSource state modal,
     let '(state', modal') := Grid.resetFiltersClicked state modal in
     Grid.filters state' = [] /\ Grid.sorters state' = Grid.sorters state /\
     Grid.visible modal' = false /\
     Grid.rows (Grid.openClicked (Grid.filters state') modal') = [None] /\
     Grid.req_page (Grid.request settings state') = 1 /\
     Grid.req_filters (Grid.request settings state') = [] /\
     Grid.filters (Grid.fetchServerData settings dataSource state') = []) /\
  (forall settings dataSource state modal,
     let '(state', modal') := Grid.resetSortersClicked state modal in
     Grid.sorters state' = [] /\ Grid.filters state' = Grid.filters state /\
     Grid.visible modal' = false /\
     Grid.rows (Grid.openClicked (Grid.sorters state') modal') = [None] /\
     Grid.req_page (Grid.request settings state') = 1 /\
     Grid.req_sorters (Grid.request settings state') = [] /\
     Grid.sorters (Grid.fetchServerData settings dataSource state') = []).
Proof.
  split; [|split; [|split]].
  - intros app. repeat split.
    intros tickets. unfold App.loadTickets, App.resetFilters, processTickets. simpl.
    apply arraySort_Permutation.
  - intros app. repeat split.
  - intros settings dataSource state modal. simpl. repeat split.
    unfold Grid.fetchServerData. destruct (dataSource _); reflexivity.
  - intros settings dataSource state modal. simpl. repeat split.
    unfold Grid.fetchServerData. destruct (dataSource _); reflexivity.
Qed.

(** ** Snapshots: claim C6 *)

Section Snapshots.
Import GridHeap.

Lemma lookup_two_fresh {A : Type} (h : list A) (a b : A) :
  (h ++ [a; b]) !! List.length h = Some a /\
  (h ++ [a; b]) !! S (List.length h) = Some b /\
  (forall l : nat, (l < List.length h)%nat -> (h ++ [a; b]) !! l = h !! l).
Proof.
  split; [|split].
  - apply (list_lookup_middle h [b] a). reflexivity.
  - change [a; b] with ([a] ++ [b]). rewrite app_assoc.
    apply (list_lookup_middle (h ++ [a]) [] b). rewrite length_app. simpl. lia.
  - intros l Hl. apply lookup_app_l. exact Hl.
Qed.

(** A view only depends on the objects it reaches, which exist. *)
Lemma view_agree (state : nat) (h h2 : Heap) (v : Grid.State) :
  (forall l : nat, (l < List.length h)%nat -> h2 !! l = h !! l) ->
  view state h = Some v -> view state h2 = Some v.
Proof.
  intros Hagree. unfold view.
  destruct (h !! state) as [[| | | |o]|] eqn:Es; try discriminate.
  rewrite (Hagree state) by (eapply lookup_lt_Some; exact Es). rewrite Es.
  destruct (h !! o_data o) as [[rows| | | |]|] eqn:Ed; try discriminate.
  rewrite (Hagree (o_data o)) by (eapply lookup_lt_Some; exact Ed). rewrite Ed.
  destruct (h !! o_filters o) as [[|fs| | |]|] eqn:Ef; try discriminate.
  rewrite (Hagree (o_filters o)) by (eapply lookup_lt_Some; exact Ef). rewrite Ef.
  destruct (h !! o_sorters o) as [[| |ss| |]|] eqn:Eo; try discriminate.
  rewrite (Hagree (o_sorters o)) by (eapply lookup_lt_Some; exact Eo). rewrite Eo.
  destruct (h !! o_selectedRows o) as [[| | |keys|]|] eqn:Ek; try discriminate.
  rewrite (Hagree (o_selectedRows o)) by (eapply lookup_lt_Some; exact Ek). rewrite Ek.
  trivial.
Qed.

(** [getState] on a well-formed engine state: two fresh objects, the copy of
    the set and the snapshot, which holds the engine's own references to the
    rows and the rules. *)
Lemma getState_spec (state : nat) (h : Heap) (v : Grid.State) :
  view state h = Some v ->
  exists o,
    h !! state = Some (OState o) /\
    getState state h =
      Some (S (List.length h),
            h ++ [OSet (Grid.selectedRows v);
                  OState {| o_data := o_data o;
                            o_totalCount := o_totalCount o;
                            o_totalPages := o_totalPages o;
                            o_currentPage := o_currentPage o;
                            o_filters := o_filters o;
                            o_sorters := o_sorters o;
                            o_selectedRows := List.length h |}]) /\
    h !! o_data o = Some (ORows (Grid.data v)) /\
    h !! o_filters o = Some (OFilters (Grid.filters v)) /\
    h !! o_sorters o = Some (OSorters (Grid.sorters v)).
Proof.
  unfold view, getState. intros Hv.
  destruct (h !! state) as [[| | | |o]|] eqn:Es; try discriminate.
  destruct (h !! o_data o) as [[rows| | | |]|] eqn:Ed; try discriminate.
  destruct (h !! o_filters o) as [[|fs| | |]|] eqn:Ef; try discriminate.
  destruct (h !! o_sorters o) as [[| |ss| |]|] eqn:Eo; try discriminate.
  destruct (h !! o_selectedRows o) as [[| | |keys|]|] eqn:Ek; try discriminate.
  injection Hv as <-. exists o. cbn [Grid.selectedRows Grid.data Grid.filters Grid.sorters].
  rewrite length_app, <- app_assoc. simpl.
  replace (List.length h + 1)%nat with (S (List.length h)) by lia.
  repeat split; try assumption; reflexivity.
Qed.

(** The snapshot denotes the state the engine has at that moment. *)
Lemma getState_view (state : nat) (h : Heap) (v : Grid.State) :
  view state h = Some v ->
  exists snapshot h',
    getState state h = Some (snapshot, h') /\
    view snapshot h' = Some v /\ view state h' = Some v.
Proof.
  intros Hv. destruct (getState_spec state h v Hv) as (o & Hs & Hg & Hd & Hf & Ho).
  eexists _, _. split; [exact Hg|]. split.
  - unfold view.
    rewrite (lookup_app_r h) by lia.
    replace (S (List.length h) - List.length h)%nat with 1%nat by lia.
    cbn [lookup list_lookup o_data o_filters o_sorters o_selectedRows
         o_totalCount o_totalPages o_currentPage].
    rewrite !(lookup_app_l h) by (eapply lookup_lt_Some; eassumption).
    rewrite Hd, Hf, Ho.
    rewrite (lookup_app_r h) by lia. rewrite Nat.sub_diag. cbn [lookup list_lookup].
    unfold view in Hv. rewrite Hs, Hd, Hf, Ho in Hv.
    destruct (h !! o_selectedRows o) as [[| | |keys|]|]; try discriminate.
    injection Hv as <-. reflexivity.
  - apply (view_agree state h); [|exact Hv].
    intros l Hl. apply lookup_app_l. exact Hl.
Qed.

(** What the copy does protect: adding to or clearing the snapshot's set,
    and assigning to the snapshot's own members, leave the engine's state
    as it was. *)
Lemma mutate_unshared_frame (state : nat) (h : Heap) (v : Grid.State)
    (snapshot : nat) (h' h'' : Heap) (m : Mutation) :
  view state h = Some v ->
  getState state h = Some (snapshot, h') ->
  throughSharedArray m = false ->
  mutate snapshot m h' = Some h'' ->
  view state h'' = Some v.
Proof.
  intros Hv Hg Hm Hmut.
  destruct (getState_spec state h v Hv) as (o & Hs & Hg' & _).
  rewrite Hg' in Hg. injection Hg as <- <-.
  apply (view_agree state h); [|exact Hv].
  match goal with |- forall l : nat, _ -> ?h2 !! l = _ =>
    match type of Hmut with mutate _ _ (h ++ [?a; ?b]) = _ =>
      destruct (lookup_two_fresh h a b) as (Ha & Hb & Hlow)
    end
  end.
  intros l Hl. unfold mutate in Hmut. rewrite Hb in Hmut.
  destruct m; try discriminate; cbn [o_selectedRows] in Hmut;
    rewrite ?Ha in Hmut; injection Hmut as <-;
    rewrite list_lookup_insert_ne by lia; apply Hlow; exact Hl.
Qed.

(** What it does not: a row pushed through the snapshot's [data] is a row
    of the engine's [data], and likewise for the rules. *)
Lemma mutate_pushRow_shared (state : nat) (h : Heap) (v : Grid.State)
    (snapshot : nat) (h' : Heap) (row : Ticket) :
  view state h = Some v ->
  getState state h = Some (snapshot, h') ->
  exists h'',
    mutate snapshot (PushRow row) h' = Some h'' /\
    Grid.data <$> view state h'' = Some (Grid.data v ++ [row]).
Proof.
  intros Hv Hg.
  destruct (getState_spec state h v Hv) as (o & Hs & Hg' & Hd & Hf & Ho).
  rewrite Hg' in Hg. injection Hg as <- <-.
  assert (exists keys, h !! o_selectedRows o = Some (OSet keys)) as [keys Hk].
  { unfold view in Hv. rewrite Hs, Hd, Hf, Ho in Hv.
    destruct (h !! o_selectedRows o) as [[| | |keys|]|]; try discriminate. eauto. }
  assert (view state h = Some v) as Hv' by exact Hv.
  unfold view in Hv. rewrite Hs, Hd, Hf, Ho, Hk in Hv. injection Hv as Hv.
  pose proof (lookup_lt_Some _ _ _ Hd) as Ld.
  match goal with |- context [mutate _ _ (h ++ [?a; ?b])] =>
    destruct (lookup_two_fresh h a b) as (Ha & Hb & Hlow);
    set (h1 := h ++ [a; b]) in *
  end.
  unfold mutate. rewrite Hb. cbn [o_data].
  rewrite (Hlow (o_data o) Ld), Hd.
  eexists. split; [reflexivity|].
  assert (forall l x, h !! l = Some x -> l <> o_data o ->
            <[o_data o := ORows (Grid.data v ++ [row])]> h1 !! l = Some x) as Hother.
  { intros l x Hl Hne. rewrite list_lookup_insert_ne by congruence.
    rewrite Hlow by (eapply lookup_lt_Some; exact Hl). exact Hl. }
  unfold view.
  rewrite (Hother state _ Hs) by (intros E; rewrite E, Hd in Hs; discriminate).
  rewrite list_lookup_insert_eq
    by (unfold h1; rewrite length_app; simpl; lia).
  rewrite (Hother _ _ Hf) by (intros E; rewrite E, Hd in Hf; discriminate).
  rewrite (Hother _ _ Ho) by (intros E; rewrite E, Hd in Ho; discriminate).
  rewrite (Hother _ _ Hk) by (intros E; rewrite E, Hd in Hk; discriminate).
  reflexivity.
Qed.
End Snapshots.

(** C6 at the failing input: a caller takes a snapshot of the sample engine
    and pushes a row onto the snapshot's [data].  The engine's own [data] now
    has that third row, because the snapshot shares the array; the same call
    sequence with a key added to the snapshot's [selectedRows] leaves the
    engine's state as it was, because the set alone is copied. *)
Theorem C6_getState_shares_arrays :
  exists snapshot h1 h2 h3,
    GridHeap.getState GridHeap.engine GridHeap.sampleHeap = Some (snapshot, h1) /\
    GridHeap.mutate snapshot (GridHeap.PushRow Sample.ticketC) h1 = Some h2 /\
    Grid.data <$> GridHeap.view GridHeap.engine GridHeap.sampleHeap
      = Some [Sample.ticketA; Sample.ticketB] /\
    Grid.data <$> GridHeap.view GridHeap.engine h2
      = Some [Sample.ticketA; Sample.ticketB; Sample.ticketC] /\
    GridHeap.view GridHeap.engine h2 <> GridHeap.view GridHeap.engine GridHeap.sampleHeap /\
    GridHeap.mutate snapshot (GridHeap.AddKey (VStr "TKT-B")) h1 = Some h3 /\
    GridHeap.view GridHeap.engine h3 = GridHeap.view GridHeap.engine GridHeap.sampleHeap.
Proof.
  eexists _, _, _, _.
  split; [reflexivity|]. split; [reflexivity|].
  split; [reflexivity|]. split; [reflexivity|].
  split; [intros H; apply (f_equal (fmap (fun s => List.length (Grid.data s)))) in H;
          vm_compute in H; discriminate|].
  split; reflexivity.
Qed.

(** ** The confidentiality wrapper: claim C9 *)

(** [decryptAES] always returns: the input unchanged, or the decrypted text
    when there is one and it is not empty. *)
Lemma decryptAES_cases `{Storage.Runtime} (ciphertext : string) :
  Storage.decryptAES ciphertext = ciphertext \/
  exists text, text <> "" /\
    Storage.AES_decrypt_utf8 ciphertext Storage.CIPHER_KEY = Some text /\
    Storage.decryptAES ciphertext = text.
Proof.
  unfold Storage.decryptAES.
  destruct (Storage.AES_decrypt_utf8 ciphertext Storage.CIPHER_KEY) as [text|];
    [|left; reflexivity].
  destruct (String.eqb_spec text "") as [E|E]; [left; reflexivity|].
  right. exists text. auto.
Qed.

(** C9: [decryptAES] never throws; when the library call throws (wrong key,
    corrupted or never encrypted payload) or yields the empty string,
    [decryptAES] returns its input unchanged. *)
Theorem C9_decryptAES_fail_open `{Storage.Runtime} (garbage : string) :
  Storage.AES_decrypt_utf8 garbage Storage.CIPHER_KEY = None \/
  Storage.AES_decrypt_utf8 garbage Storage.CIPHER_KEY = Some "" ->
  Storage.decryptAES garbage = garbage.
Proof.
  intros [Hfail | Hempty]; unfold Storage.decryptAES.
  - rewrite Hfail. reflexivity.
  - rewrite Hempty. reflexivity.
Qed.

Lemma C9_decryptAES_fail_open_witness :
  @Storage.decryptAES ToyRuntime.runtime "[{ legacy plain text }]" = "[{ legacy plain text }]".
Proof.
  apply (@C9_decryptAES_fail_open ToyRuntime.runtime "[{ legacy plain text }]").
  left. reflexivity.
Defined.

(** ** Storage round trip: claim C8 *)


Section StorageFacts.
Context `{Storage.Runtime}.
Hypothesis laws : Storage.RuntimeLaws.

(** Whatever [getTickets] reads as an array is an array of clean records. *)
Lemma persistent_getTickets_clean (this : Storage.PersistentStorage) (l : list Ticket) :
  Storage.persistent_getTickets this = Storage.JArray l -> Forall Storage.jsonClean l.
Proof.
  unfold Storage.persistent_getTickets.
  destruct (Storage.storage this !! Storage.storageKey this) as [stored|].
  - destruct (String.eqb stored "").
    + intros [= <-]. constructor.
    + destruct (Storage.JSON_parse (Storage.decryptAES stored)) as [parsed|] eqn:E.
      * intros ->. eapply Storage.json_parse_clean; eassumption.
      * intros [= <-]. constructor.
  - intros [= <-]. constructor.
Qed.

(** Reading back what [saveToStorage] wrote. *)
Lemma persistent_getTickets_saveToStorage (this : Storage.PersistentStorage)
    (l : list Ticket) :
  Forall Storage.jsonClean l ->
  Storage.persistent_getTickets (Storage.saveToStorage l this) = Storage.JArray l.
Proof.
  intros Hclean. unfold Storage.persistent_getTickets, Storage.saveToStorage.
  cbn [Storage.storage Storage.storageKey]. rewrite lookup_insert_eq.
  pose proof (Storage.json_nonempty laws l) as Hne.
  pose proof (Storage.aes_nonempty laws _ Hne) as Hne'.
  apply String.eqb_neq in Hne'. rewrite Hne'.
  rewrite (Storage.aes_roundtrip laws _ Hne).
  rewrite (Storage.json_roundtrip laws l Hclean). reflexivity.
Qed.

End StorageFacts.


(** The stand-in runtime satisfies the laws. *)
Lemma unbits_bits (p : positive) : ToyRuntime.unbits (ToyRuntime.bits p) = Some p.
Proof. induction p as [p IH|p IH|]; simpl; rewrite ?IH; reflexivity. Qed.

Lemma dropUndefined_clean (t : Ticket) :
  Storage.jsonClean t -> ToyRuntime.dropUndefined t = t.
Proof.
  intros Hclean. unfold ToyRuntime.dropUndefined. apply map_filter_id.
  intros k v Hk. exact (Hclean k v Hk).
Qed.

Lemma dropUndefined_is_clean (t : Ticket) :
  Storage.jsonClean (ToyRuntime.dropUndefined t).
Proof.
  intros k v Hk. apply map_lookup_filter_Some in Hk as [_ Hv]. exact Hv.
Qed.

Lemma dropUndefined_clean_list (l : list Ticket) :
  Forall Storage.jsonClean l -> ToyRuntime.dropUndefined <$> l = l.
Proof.
  induction 1 as [|t l Ht _ IH]; [reflexivity|].
  cbn. rewrite (dropUndefined_clean t Ht). f_equal. exact IH.
Qed.

(** The stand-in parser reads back the members the stand-in serializer
    wrote. *)
Lemma toy_parse_stringify (l : list Ticket) :
  Forall Storage.jsonClean l ->
  ToyRuntime.parse (String "[" (ToyRuntime.bits (encode l))) = Some (Storage.JArray l).
Proof.
  intros Hl. unfold ToyRuntime.parse.
  change (String.eqb (String "[" (ToyRuntime.bits (encode l))) "null") with false.
  cbn [Ascii.eqb Bool.eqb]. cbn match.
  change (Ascii.eqb "[" "[") with true. cbn match.
  rewrite unbits_bits. cbn [mbind option_bind].
  rewrite decode_encode. cbn [mbind option_bind].
  destruct (decide (Forall Storage.jsonClean l)); [reflexivity | contradiction].
Qed.

Lemma toy_runtime_laws : @Storage.RuntimeLaws ToyRuntime.runtime.
Proof.
  split.
  - intros x Hx. unfold Storage.decryptAES, Storage.encryptAES. simpl.
    apply String.eqb_neq in Hx. rewrite Hx. reflexivity.
  - intros x _. unfold Storage.encryptAES. simpl. discriminate.
  - intros l Hl.
    change (ToyRuntime.parse (ToyRuntime.stringify l) = Some (Storage.JArray l)).
    unfold ToyRuntime.stringify. rewrite (dropUndefined_clean_list l Hl).
    apply toy_parse_stringify, Hl.
  - intros l. simpl. discriminate.
  - intros s l. simpl. unfold ToyRuntime.parse.
    destruct (String.eqb s "null"); [discriminate|].
    destruct s as [|c s]; [discriminate|].
    destruct (Ascii.eqb c "["); [|discriminate].
    destruct (ToyRuntime.unbits s) as [p|]; [|discriminate]. cbn [mbind option_bind].
    destruct (decode p) as [l'|]; [|discriminate]. cbn [mbind option_bind].
    destruct (decide (Forall Storage.jsonClean l')) as [Hc|]; [|discriminate].
    intros [= <-]. exact Hc.
Qed.

Lemma sample_ticket_clean : Storage.jsonClean Sample.ticketA.
Proof.
  unfold Storage.jsonClean, Sample.ticketA.
  repeat (apply map_Forall_insert_2; [discriminate|]).
  apply map_Forall_empty.
Qed.



(** * Further properties of the code *)

(** ** Storage strategies: delete, update, isolation *)

Lemma find_filter_same (ticketId : JsVal) (l : list Ticket) :
  List.find (Storage.idIs ticketId)
            (List.filter (fun t => negb (Storage.idIs ticketId t)) l) = None.
Proof.
  induction l as [|t l IH]; [reflexivity|]. simpl.
  destruct (Storage.idIs ticketId t) eqn:E; simpl; [exact IH|].
  rewrite E. exact IH.
Qed.

Lemma idIs_other (a b : JsVal) (t : Ticket) :
  a <> b -> Storage.idIs a t = true -> Storage.idIs b t = false.
Proof.
  unfold Storage.idIs. intros Hne Ha. apply bool_decide_eq_true in Ha.
  apply bool_decide_eq_false. congruence.
Qed.

Lemma find_filter_other (ticketId other : JsVal) (l : list Ticket) :
  other <> ticketId ->
  List.find (Storage.idIs other)
            (List.filter (fun t => negb (Storage.idIs ticketId t)) l)
  = List.find (Storage.idIs other) l.
Proof.
  intros Hne. induction l as [|t l IH]; [reflexivity|]. simpl.
  destruct (Storage.idIs ticketId t) eqn:E; simpl.
  - rewrite (idIs_other ticketId other t) by auto. exact IH.
  - destruct (Storage.idIs other t); [reflexivity | exact IH].
Qed.


Lemma list_find_replaceFirst (ticketId : JsVal) (updatedData : Ticket)
    (l : list Ticket) :
  match list_find (fun t => Storage.idIs ticketId t = true) l with
  | Some (index, t) => <[index := Storage.spread t updatedData]> l
  | None => l
  end = replaceFirst ticketId updatedData l.
Proof.
  induction l as [|t l IH]; [reflexivity|].
  cbn [list_find replaceFirst].
  destruct (decide (Storage.idIs ticketId t = true)) as [E|E].
  - rewrite E. reflexivity.
  - apply not_true_is_false in E. rewrite E.
    destruct (list_find (fun t => Storage.idIs ticketId t = true) l) as [[i x]|];
      cbn [fmap option_fmap option_map prod_map fst snd]; simpl; rewrite <- IH; reflexivity.
Qed.

Lemma list_find_find (ticketId : JsVal) (l : list Ticket) :
  snd <$> list_find (fun t => Storage.idIs ticketId t = true) l
  = List.find (Storage.idIs ticketId) l.
Proof.
  induction l as [|t l IH]; [reflexivity|].
  cbn [list_find List.find].
  destruct (decide (Storage.idIs ticketId t = true)) as [E|E].
  - rewrite E. reflexivity.
  - apply not_true_is_false in E. rewrite E. rewrite <- IH.
    destruct (list_find (fun t => Storage.idIs ticketId t = true) l) as [[i x]|];
      reflexivity.
Qed.




Lemma replaceFirst_none (ticketId : JsVal) (updatedData : Ticket) (l : list Ticket) :
  List.find (Storage.idIs ticketId) l = None ->
  replaceFirst ticketId updatedData l = l.
Proof.
  induction l as [|x l IH]; [reflexivity|]. simpl.
  destruct (Storage.idIs ticketId x); [discriminate|].
  intros Hl. rewrite (IH Hl). reflexivity.
Qed.



Lemma filter_clean (f : Ticket -> bool) (l : list Ticket) :
  Forall Storage.jsonClean l -> Forall Storage.jsonClean (List.filter f l).
Proof.
  induction 1 as [|x l Hx Hl IH]; simpl; [constructor|].
  destruct (f x); [constructor|]; auto.
Qed.

Section StrategyFacts.
Context `{Storage.Runtime}.
Hypothesis laws : Storage.RuntimeLaws.

Lemma getTicket_getTickets (type : Storage.StorageType) (ticketId : JsVal)
    (w : Storage.World) :
  Storage.getTicket type ticketId w =
  match Storage.getTickets type w with
  | Storage.JArray l => Storage.Returns (List.find (Storage.idIs ticketId) l)
  | Storage.JOther => Storage.Throws
  end.
Proof. destruct type; reflexivity. Qed.

Lemma getTickets_clean (type : Storage.StorageType) (w : Storage.World)
    (l : list Ticket) :
  type <> Storage.memory ->
  Storage.getTickets type w = Storage.JArray l -> Forall Storage.jsonClean l.
Proof.
  destruct type; [congruence| |]; intros _; apply persistent_getTickets_clean; exact laws.
Qed.

Lemma getTickets_holding (type : Storage.StorageType) (l : list Ticket)
    (w : Storage.World) :
  (type <> Storage.memory -> Forall Storage.jsonClean l) ->
  Storage.getTickets type (holding type l w) = Storage.JArray l.
Proof.
  intros Hclean. destruct type; [reflexivity| |].
  - apply (persistent_getTickets_saveToStorage laws (Storage.SessionStorage w)).
    apply Hclean. discriminate.
  - apply (persistent_getTickets_saveToStorage laws (Storage.LocalStorage w)).
    apply Hclean. discriminate.
Qed.

Lemma getTickets_holding_other (type other : Storage.StorageType) (l : list Ticket)
    (w : Storage.World) :
  other <> type ->
  Storage.getTickets other (holding type l w) = Storage.getTickets other w.
Proof. destruct type, other; intros Hne; try congruence; reflexivity. Qed.

Lemma saveTicket_holding (type : Storage.StorageType) (r : Ticket)
    (w : Storage.World) (old : list Ticket) :
  Storage.getTickets type w = Storage.JArray old ->
  Storage.saveTicket type r w = Storage.Returns (holding type (r :: old) w).
Proof.
  destruct type; cbn [Storage.getTickets Storage.saveTicket holding].
  - intros [= <-]. reflexivity.
  - intros Hold. unfold Storage.persistent_saveTicket. rewrite Hold. reflexivity.
  - intros Hold. unfold Storage.persistent_saveTicket. rewrite Hold. reflexivity.
Qed.

Lemma deleteTicket_holding (type : Storage.StorageType) (ticketId : JsVal)
    (w : Storage.World) (old : list Ticket) :
  Storage.getTickets type w = Storage.JArray old ->
  Strategies.deleteTicket type ticketId w =
  Storage.Returns
    (holding type (List.filter (fun t => negb (Storage.idIs ticketId t)) old) w).
Proof.
  destruct type; cbn [Storage.getTickets Strategies.deleteTicket holding].
  - intros [= <-]. reflexivity.
  - intros Hold. unfold Storage.persistent_deleteTicket. rewrite Hold. reflexivity.
  - intros Hold. unfold Storage.persistent_deleteTicket. rewrite Hold. reflexivity.
Qed.

Lemma updateTicket_holding (type : Storage.StorageType) (ticketId : JsVal)
    (updatedData : Ticket) (w : Storage.World) (old : list Ticket) (t : Ticket) :
  Storage.getTickets type w = Storage.JArray old ->
  List.find (Storage.idIs ticketId) old = Some t ->
  Strategies.updateTicket type ticketId updatedData w =
  Storage.Returns (holding type (replaceFirst ticketId updatedData old) w).
Proof.
  intros Hold Hfind.
  pose proof (list_find_replaceFirst ticketId updatedData old) as Hrep.
  pose proof (list_find_find ticketId old) as Hff. rewrite Hfind in Hff.
  destruct (list_find (fun t => Storage.idIs ticketId t = true) old) as [[i x]|] eqn:E;
    [|discriminate].
  destruct type; cbn [Storage.getTickets Strategies.updateTicket holding] in *.
  - injection Hold as <-. unfold Storage.memory_updateTicket, Storage.memory_getTickets in *.
    rewrite E, Hrep. reflexivity.
  - unfold Storage.persistent_updateTicket. rewrite Hold, E, Hrep. reflexivity.
  - unfold Storage.persistent_updateTicket. rewrite Hold, E, Hrep. reflexivity.
Qed.

Lemma updateTicket_absent (type : Storage.StorageType) (ticketId : JsVal)
    (updatedData : Ticket) (w : Storage.World) (old : list Ticket) :
  Storage.getTickets type w = Storage.JArray old ->
  List.find (Storage.idIs ticketId) old = None ->
  Strategies.updateTicket type ticketId updatedData w = Storage.Returns w.
Proof.
  intros Hold Hfind.
  pose proof (list_find_find ticketId old) as Hff. rewrite Hfind in Hff.
  destruct (list_find (fun t => Storage.idIs ticketId t = true) old) as [[i x]|] eqn:E;
    [discriminate|].
  destruct w as [[mem] ses loc].
  destruct type; cbn [Storage.getTickets Strategies.updateTicket] in *.
  - injection Hold as <-. unfold Storage.memory_updateTicket, Storage.memory_getTickets in *.
    cbn [Storage.memoryTickets Storage.tickets] in *. rewrite E. reflexivity.
  - unfold Storage.persistent_updateTicket. rewrite Hold, E. reflexivity.
  - unfold Storage.persistent_updateTicket. rewrite Hold, E. reflexivity.
Qed.
End StrategyFacts.

(** X1: after [deleteTicket(id)] no ticket is found under [id], every ticket
    with another id is found as before, and the collection is the old one
    without the tickets whose id is [id] (all of them, in the old order); this
    for each of the three strategies, the durable ones read back through the
    cipher and JSON. *)
Theorem X1_delete_then_get `{Storage.Runtime} (type : Storage.StorageType)
    (ticketId : JsVal) (w : Storage.World) (old : list Ticket) :
  Storage.RuntimeLaws ->
  Storage.getTickets type w = Storage.JArray old ->
  exists w',
    Strategies.deleteTicket type ticketId w = Storage.Returns w' /\
    Storage.getTicket type ticketId w' = Storage.Returns None /\
    (forall other, other <> ticketId ->
       Storage.getTicket type other w' = Storage.getTicket type other w) /\
    Storage.getTickets type w' =
      Storage.JArray (List.filter (fun t => negb (Storage.idIs ticketId t)) old).
Proof.
  intros laws Hold. eexists. split; [apply deleteTicket_holding, Hold|].
  assert (Storage.getTickets type
            (holding type (List.filter (fun t => negb (Storage.idIs ticketId t)) old) w)
          = Storage.JArray (List.filter (fun t => negb (Storage.idIs ticketId t)) old))
    as Hnew.
  { apply (getTickets_holding laws). intros Hd. apply filter_clean.
    apply (getTickets_clean laws type w old Hd Hold). }
  split; [rewrite getTicket_getTickets, Hnew, find_filter_same; reflexivity|].
  split; [|exact Hnew].
  intros other Hne. rewrite !getTicket_getTickets, Hnew, Hold.
  rewrite find_filter_other by exact Hne. reflexivity.
Qed.

Lemma X1_delete_then_get_witness :
  exists w',
    @Strategies.deleteTicket ToyRuntime.runtime Storage.memory (VStr "TKT-B")
       SampleStorage.twoInMemory = Storage.Returns w' /\
    @Storage.getTicket ToyRuntime.runtime Storage.memory (VStr "TKT-B") w'
      = Storage.Returns None /\
    @Storage.getTicket ToyRuntime.runtime Storage.memory (VStr "TKT-A") w'
      = Storage.Returns (Some Sample.ticketA).
Proof.
  destruct (@X1_delete_then_get ToyRuntime.runtime Storage.memory (VStr "TKT-B")
              SampleStorage.twoInMemory [Sample.ticketB; Sample.ticketA]
              toy_runtime_laws eq_refl) as (w' & Hdel & Hgone & Hother & _).
  exists w'. split; [exact Hdel|]. split; [exact Hgone|].
  rewrite (Hother (VStr "TKT-A")) by discriminate. vm_compute. reflexivity.
Defined.

(** X2: [updateTicket] with an id that no stored ticket has changes nothing:
    the memory strategy keeps its array and the durable strategies do not
    write to their store. *)
Theorem X2_update_absent_id `{Storage.Runtime} (type : Storage.StorageType)
    (ticketId : JsVal) (updatedData : Ticket) (w : Storage.World) :
  Storage.getTicket type ticketId w = Storage.Returns None ->
  Strategies.updateTicket type ticketId updatedData w = Storage.Returns w.
Proof.
  rewrite getTicket_getTickets.
  destruct (Storage.getTickets type w) as [old|] eqn:Hold; [|discriminate].
  intros [= Hfind]. eapply updateTicket_absent; eassumption.
Qed.

Lemma X2_update_absent_id_witness :
  @Strategies.updateTicket ToyRuntime.runtime Storage.local (VStr "TKT-NONE")
     SampleStorage.edit ToyRuntime.emptyWorld
  = Storage.Returns ToyRuntime.emptyWorld.
Proof.
  apply (@X2_update_absent_id ToyRuntime.runtime Storage.local). reflexivity.
Defined.



(** X4: an operation on one strategy leaves the collections of the other two
    as they were: saving, deleting or updating under one storage type never
    shows under another. *)
Theorem X4_strategies_isolated `{Storage.Runtime} (type other : Storage.StorageType)
    (r updatedData : Ticket) (ticketId : JsVal) (w w' : Storage.World) :
  other <> type ->
  Storage.saveTicket type r w = Storage.Returns w' \/
  Strategies.deleteTicket type ticketId w = Storage.Returns w' \/
  Strategies.updateTicket type ticketId updatedData w = Storage.Returns w' ->
  Storage.getTickets other w' = Storage.getTickets other w.
Proof.
  intros Hne Hop.
  destruct (Storage.getTickets type w) as [old|] eqn:Hold.
  - destruct Hop as [Hop | [Hop | Hop]].
    + rewrite (saveTicket_holding type r w old Hold) in Hop. injection Hop as <-.
      apply getTickets_holding_other, Hne.
    + rewrite (deleteTicket_holding type ticketId w old Hold) in Hop. injection Hop as <-.
      apply getTickets_holding_other, Hne.
    + destruct (List.find (Storage.idIs ticketId) old) as [t|] eqn:Hfind.
      * rewrite (updateTicket_holding type ticketId updatedData w old t Hold Hfind) in Hop.
        injection Hop as <-. apply getTickets_holding_other, Hne.
      * rewrite (updateTicket_absent type ticketId updatedData w old Hold Hfind) in Hop.
        injection Hop as <-. reflexivity.
  - exfalso. destruct type; cbn in Hold; try discriminate;
      cbn [Storage.saveTicket Strategies.deleteTicket Strategies.updateTicket] in Hop;
      unfold Storage.persistent_saveTicket, Storage.persistent_deleteTicket,
             Storage.persistent_updateTicket in Hop;
      rewrite Hold in Hop; destruct Hop as [Hop | [Hop | Hop]]; discriminate.
Qed.

Lemma X4_strategies_isolated_witness :
  @Storage.getTickets ToyRuntime.runtime Storage.memory
     (@holding ToyRuntime.runtime Storage.local [Sample.ticketC] SampleStorage.twoInMemory)
  = Storage.JArray [Sample.ticketB; Sample.ticketA].
Proof.
  rewrite (@X4_strategies_isolated ToyRuntime.runtime Storage.local Storage.memory
             Sample.ticketC ∅ VUndef SampleStorage.twoInMemory _
             ltac:(discriminate)
             (or_introl (@saveTicket_holding ToyRuntime.runtime Storage.local
                           Sample.ticketC SampleStorage.twoInMemory [] eq_refl))).
  reflexivity.
Defined.

(** X5: a payload that does not decrypt is read as it is: when the library
    call throws on the stored text, [getTickets] parses the stored text itself,
    so a collection written without encryption still loads, and a text that
    does not parse either is read as the empty collection; [getTickets] does
    not throw in either case. *)
Theorem X5_undecryptable_payload `{Storage.Runtime} (this : Storage.PersistentStorage)
    (payload : string) :
  Storage.storage this !! Storage.storageKey this = Some payload ->
  payload <> "" ->
  Storage.AES_decrypt_utf8 payload Storage.CIPHER_KEY = None ->
  Storage.persistent_getTickets this =
  match Storage.JSON_parse payload with
  | Some parsed => parsed
  | None => Storage.JArray []
  end.
Proof.
  intros Hstored Hne Hfail. unfold Storage.persistent_getTickets.
  rewrite Hstored. apply String.eqb_neq in Hne. rewrite Hne.
  unfold Storage.decryptAES. rewrite Hfail. reflexivity.
Qed.

Lemma X5_undecryptable_payload_witness :
  @Storage.persistent_getTickets ToyRuntime.runtime SampleStorage.legacyLocal
  = Storage.JArray [Sample.ticketA].
Proof.
  rewrite (@X5_undecryptable_payload ToyRuntime.runtime SampleStorage.legacyLocal
             (ToyRuntime.stringify [Sample.ticketA]) eq_refl
             ltac:(discriminate) eq_refl).
  change (ToyRuntime.stringify [Sample.ticketA])
    with (@Storage.JSON_stringify ToyRuntime.runtime [Sample.ticketA]).
  rewrite (Storage.json_roundtrip toy_runtime_laws [Sample.ticketA]
             (Forall_cons _ _ _ sample_ticket_clean (Forall_nil _))).
  reflexivity.
Defined.



(** ** The query evaluator: how filters and sorts compose *)

Lemma matchesAll_app (f1 f2 : list FilterRule) (t : Ticket) :
  matchesAll (f1 ++ f2) t = matchesAll f1 t && matchesAll f2 t.
Proof. unfold matchesAll. apply forallb_app. Qed.

Lemma filterPhase_filter (tickets : list Ticket) (filters : list FilterRule) :
  filterPhase tickets filters = List.filter (matchesAll filters) tickets.
Proof.
  unfold filterPhase. destruct filters as [|r fs]; [|reflexivity]. simpl.
  induction tickets as [|t l IH]; [reflexivity|]. simpl. rewrite <- IH. reflexivity.
Qed.

Lemma filter_filter_andb {A : Type} (f g : A -> bool) (l : list A) :
  List.filter g (List.filter f l) = List.filter (fun x => f x && g x) l.
Proof.
  induction l as [|x l IH]; [reflexivity|]. simpl.
  destruct (f x); simpl; [destruct (g x)|]; rewrite ?IH; reflexivity.
Qed.

Lemma matchesAll_Permutation (f1 f2 : list FilterRule) (t : Ticket) :
  Permutation f1 f2 -> matchesAll f1 t = matchesAll f2 t.
Proof.
  unfold matchesAll. induction 1 as [|r l l' _ IH|r r' l|l l' l'' _ IH1 _ IH2]; simpl.
  - reflexivity.
  - rewrite IH. reflexivity.
  - destruct (matchesFilter t r), (matchesFilter t r'); reflexivity.
  - congruence.
Qed.

(** X7: filter rules combine by conjunction.  Filtering by one rule list and
    then by another is filtering by the two lists together; filtering twice
    by the same rules is filtering once; and the order in which the rules are
    listed does not change the result. *)
Theorem X7_filters_compose :
  (forall tickets f1 f2,
     filterPhase (filterPhase tickets f1) f2 = filterPhase tickets (f1 ++ f2)) /\
  (forall tickets filters,
     filterPhase (filterPhase tickets filters) filters = filterPhase tickets filters) /\
  (forall tickets f1 f2,
     Permutation f1 f2 -> filterPhase tickets f1 = filterPhase tickets f2).
Proof.
  split; [|split].
  - intros tickets f1 f2. rewrite !filterPhase_filter, filter_filter_andb.
    apply filter_ext. intros t. symmetry. apply matchesAll_app.
  - intros tickets filters. rewrite !filterPhase_filter, filter_filter_andb.
    apply filter_ext. intros t. destruct (matchesAll filters t); reflexivity.
  - intros tickets f1 f2 Hp. rewrite !filterPhase_filter.
    apply filter_ext. intros t. apply matchesAll_Permutation, Hp.
Qed.

Lemma string_append_empty (s : string) : s +:+ "" = s.
Proof.
  induction s as [|c s IH]; [reflexivity|].
  change (String c (s +:+ "") = String c s). rewrite IH. reflexivity.
Qed.

(** X8: the four relations are nested.  For one column and one value, a
    record that matches [equals] matches [startsWith] and [endsWith], and a
    record that matches [startsWith] or [endsWith] matches [contains]. *)
Theorem X8_relations_nested (t : Ticket) (column : string) (value : JsVal) :
  (matchesFilter t (mkFilter column "equals" value) = true ->
   matchesFilter t (mkFilter column "startsWith" value) = true /\
   matchesFilter t (mkFilter column "endsWith" value) = true) /\
  (matchesFilter t (mkFilter column "startsWith" value) = true ->
   matchesFilter t (mkFilter column "contains" value) = true) /\
  (matchesFilter t (mkFilter column "endsWith" value) = true ->
   matchesFilter t (mkFilter column "contains" value) = true).
Proof.
  unfold matchesFilter. cbn [f_column f_relation f_value].
  set (tv := fieldText (getField t column)). set (fv := fieldText value).
  change (String.eqb "equals" "equals") with true.
  change (String.eqb "startsWith" "equals") with false.
  change (String.eqb "startsWith" "contains") with false.
  change (String.eqb "startsWith" "startsWith") with true.
  change (String.eqb "endsWith" "equals") with false.
  change (String.eqb "endsWith" "contains") with false.
  change (String.eqb "endsWith" "startsWith") with false.
  change (String.eqb "endsWith" "endsWith") with true.
  change (String.eqb "contains" "equals") with false.
  change (String.eqb "contains" "contains") with true.
  cbv iota.
  split; [|split].
  - rewrite String.eqb_eq. intros ->. split.
    + apply startsWith_spec. exists "". symmetry. apply string_append_empty.
    + apply endsWith_spec. exists "". reflexivity.
  - rewrite startsWith_spec, includes_spec. intros [post ->]. exists "", post. reflexivity.
  - rewrite endsWith_spec, includes_spec. intros [pre ->]. exists pre, "".
    rewrite string_append_empty. reflexivity.
Qed.

Lemma X8_relations_nested_witness :
  matchesFilter Sample.ticketB (mkFilter "subject" "startsWith" (VStr "BILLING")) = true /\
  matchesFilter Sample.ticketB (mkFilter "subject" "endsWith" (VStr "BILLING")) = true.
Proof.
  apply (proj1 (X8_relations_nested Sample.ticketB "subject" (VStr "BILLING"))).
  vm_compute. reflexivity.
Defined.

(** X9: sorting is idempotent.  When the values in every sort column are
    comparable among themselves, sorting an already sorted collection by the
    same rules returns it unchanged. *)
Theorem X9_sort_idempotent (tickets : list Ticket) (sorters : list SortRule) :
  comparableColumns tickets sorters = true ->
  sortPhase (sortPhase tickets sorters) sorters = sortPhase tickets sorters.
Proof.
  intros Hcols. unfold sortPhase. apply arraySort_sorted_id.
  apply (arraySort_sorted (compareTickets sorters) (fun t => In t tickets)).
  - intros x y _ _. rewrite (compareTickets_antisym sorters x y). lia.
  - intros x y z Hx Hy Hz. apply (compareTickets_trans tickets); assumption.
  - apply Forall_forall. auto.
Qed.

Lemma X9_sort_idempotent_witness :
  sortPhase (sortPhase [Sample.ticketA; Sample.ticketB; Sample.ticketC] [Sample.newestFirst])
            [Sample.newestFirst]
  = sortPhase [Sample.ticketA; Sample.ticketB; Sample.ticketC] [Sample.newestFirst].
Proof.
  apply (X9_sort_idempotent [Sample.ticketA; Sample.ticketB; Sample.ticketC]
           [Sample.newestFirst]).
  vm_compute. reflexivity.
Defined.

Lemma arraySort_ext {A : Type} (c1 c2 : A -> A -> Z) (l : list A) :
  (forall a b, In a l -> In b l -> c1 a b = c2 a b) ->
  arraySort c1 l = arraySort c2 l.
Proof.
  induction l as [|x l IH]; intros Hext; [reflexivity|]. simpl.
  rewrite IH by (intros a b Ha Hb; apply Hext; right; assumption).
  assert (forall m, (forall y, In y m -> In y l) ->
            sortInsert c1 x m = sortInsert c2 x m) as Hins.
  { induction m as [|y m IHm]; intros Hm; [reflexivity|]. simpl.
    rewrite (Hext x y) by (simpl; auto using in_eq, in_cons).
    rewrite IHm by (intros z Hz; apply Hm; right; exact Hz). reflexivity. }
  apply Hins. intros y Hy.
  apply (Permutation_in y (arraySort_Permutation c2 l)). exact Hy.
Qed.

Lemma comparison_refl (v : JsVal) : comparison v v = 0.
Proof. pose proof (comparison_antisym v v). lia. Qed.

Lemma noTies_spec (column : string) (tickets : list Ticket) :
  noTies column tickets = true ->
  NoDup tickets /\
  forall a b, In a tickets -> In b tickets -> a <> b ->
    comparison (getField a column) (getField b column) <> 0.
Proof.
  induction tickets as [|x l IH]; simpl.
  - intros _. split; [constructor | contradiction].
  - rewrite andb_true_iff, forallb_forall. intros [Hx Hl].
    destruct (IH Hl) as [Hnd Hne]. clear IH.
    assert (forall b, In b l ->
              comparison (getField x column) (getField b column) <> 0) as Hx'.
    { intros b Hb. specialize (Hx b Hb). apply negb_true_iff, Z.eqb_neq in Hx. exact Hx. }
    split.
    + apply NoDup_cons_2; [|exact Hnd]. rewrite list_elem_of_In. intros Hin.
      apply (Hx' x Hin), comparison_refl.
    + intros a b [<-|Ha] [<-|Hb] Hab; auto; try contradiction.
      rewrite comparison_antisym. specialize (Hx' a Ha). lia.
Qed.

Lemma StronglySorted_rev {A : Type} (R : A -> A -> Prop) (l : list A) :
  StronglySorted R l -> StronglySorted (fun a b => R b a) (rev l).
Proof.
  induction 1 as [|x l Hl IH Hx]; simpl; [constructor|].
  assert (forall m, StronglySorted (fun a b => R b a) m ->
            Forall (fun y => R x y) m ->
            StronglySorted (fun a b => R b a) (m ++ [x])) as Happ.
  { induction m as [|y m IHm]; intros Hm Hxm; simpl.
    - repeat constructor.
    - inversion Hm; subst. apply Forall_cons_iff in Hxm as [Hxy Hxm].
      constructor; [apply IHm; assumption|].
      apply Forall_app. split; [assumption | repeat constructor; exact Hxy]. }
  apply Happ; [exact IH|]. apply Forall_forall. intros y Hy.
  rewrite Forall_forall in Hx. apply Hx. apply in_rev. exact Hy.
Qed.

(** Two arrangements of the same elements that are both strictly ordered by
    an asymmetric relation are the same. *)
Lemma StronglySorted_asym_unique {A : Type} (R : A -> A -> Prop) (l1 l2 : list A) :
  (forall a b, In a l1 -> In b l1 -> R a b -> R b a -> False) ->
  Permutation l1 l2 -> StronglySorted R l1 -> StronglySorted R l2 -> l1 = l2.
Proof.
  revert l2. induction l1 as [|x l1 IH]; intros l2 Hasym Hp H1 H2.
  - apply Permutation_nil in Hp. subst. reflexivity.
  - destruct l2 as [|y l2]; [apply Permutation_sym, Permutation_nil in Hp; discriminate|].
    inversion H1 as [|? ? H1' Hx]; subst. inversion H2 as [|? ? H2' Hy]; subst.
    rewrite Forall_forall in Hx, Hy.
    assert (x = y) as ->.
    { assert (In x (y :: l2)) as [E|Hin]
        by (apply (Permutation_in x Hp); left; reflexivity); [auto|].
      assert (In y (x :: l1)) as [E|Hin']
        by (apply (Permutation_in y (Permutation_sym Hp)); left; reflexivity); [auto|].
      exfalso. apply (Hasym x y); simpl; auto. }
    f_equal. apply IH; auto.
    + intros a b Ha Hb. apply Hasym; right; assumption.
    + apply Permutation_cons_inv in Hp. exact Hp.
Qed.

Lemma StronglySorted_strict {A : Type} (R : A -> A -> Prop) (l : list A) :
  NoDup l -> StronglySorted R l -> StronglySorted (fun a b => R a b /\ a <> b) l.
Proof.
  intros Hnd. induction 1 as [|x l Hl IH Hx]; [constructor|].
  inversion Hnd as [|? ? Hnot Hnd']; subst.
  constructor; [apply IH, Hnd'|].
  rewrite Forall_forall in Hx |- *. intros y Hy. split; [apply Hx, Hy|].
  intros ->. apply Hnot, list_elem_of_In, Hy.
Qed.

(** With no ties in the first column the later rules never decide. *)
Lemma compareTickets_first (sorter : SortRule) (rest : list SortRule)
    (tickets : list Ticket) (a b : Ticket) :
  noTies (s_column sorter) tickets = true ->
  In a tickets -> In b tickets ->
  compareTickets (sorter :: rest) a b = compareTickets [sorter] a b.
Proof.
  intros Hnt Ha Hb. destruct (noTies_spec _ _ Hnt) as [_ Hne].
  destruct (decide (a = b)) as [->|Hab].
  - pose proof (compareTickets_antisym (sorter :: rest) b b).
    pose proof (compareTickets_antisym [sorter] b b). lia.
  - specialize (Hne a b Ha Hb Hab). simpl.
    apply Z.eqb_neq in Hne. rewrite Hne. reflexivity.
Qed.

(** X10: swapping the direction of the first sort rule reverses the result
    when no two records tie in that rule's column (the values of the column
    being comparable among themselves): sorting with the first rule in any
    order other than 'asc' gives the reverse of sorting with it ascending,
    whatever rules follow. *)
Theorem X10_direction_reverses (tickets : list Ticket) (column order : string)
    (rest rest' : list SortRule) :
  comparableColumn tickets column = true ->
  noTies column tickets = true ->
  order <> "asc" ->
  sortPhase tickets (mkSorter column order :: rest)
  = rev (sortPhase tickets (mkSorter column "asc" :: rest')).
Proof.
  intros Hcol Hnt Hord. unfold sortPhase.
  rewrite (arraySort_ext (compareTickets (mkSorter column order :: rest))
             (compareTickets [mkSorter column order]))
    by (intros a b Ha Hb; apply (compareTickets_first _ _ tickets); assumption).
  rewrite (arraySort_ext (compareTickets (mkSorter column "asc" :: rest'))
             (compareTickets [mkSorter column "asc"]))
    by (intros a b Ha Hb; apply (compareTickets_first _ _ tickets); assumption).
  set (cD := compareTickets [mkSorter column order]).
  set (cA := compareTickets [mkSorter column "asc"]).
  destruct (noTies_spec _ _ Hnt) as [Hnd Hne].
  assert (forall a b, cD a b = - cA a b) as Hflip.
  { intros a b. subst cD cA. simpl. apply String.eqb_neq in Hord. rewrite Hord.
    destruct (comparison _ _ =? 0); simpl; lia. }
  assert (forall sorter, s_column sorter = column ->
            comparableColumns tickets [sorter] = true) as Hcols
    by (intros s Hs; simpl; rewrite Hs, Hcol; reflexivity).
  assert (forall sorter, s_column sorter = column ->
            StronglySorted (fun a b => compareTickets [sorter] a b <= 0 /\ a <> b)
                           (arraySort (compareTickets [sorter]) tickets)) as Hsorted.
  { intros s Hs. apply StronglySorted_strict.
    - rewrite (arraySort_Permutation (compareTickets [s]) tickets). exact Hnd.
    - apply (arraySort_sorted (compareTickets [s]) (fun t => In t tickets)).
      + intros x y _ _. rewrite (compareTickets_antisym [s] x y). lia.
      + intros x y z Hx Hy Hz. apply (compareTickets_trans tickets); auto.
      + apply Forall_forall. auto. }
  apply (StronglySorted_asym_unique (fun a b => cD a b <= 0 /\ a <> b)).
  - intros a b Ha Hb [H1 Hab] [H2 _].
    apply (Permutation_in _ (arraySort_Permutation _ tickets)) in Ha, Hb.
    assert (cD a b = 0) as Hz
      by (subst cD; rewrite (compareTickets_antisym _ a b) in H2; lia).
    subst cD. simpl in Hz. specialize (Hne a b Ha Hb Hab).
    apply Z.eqb_neq in Hne. rewrite Hne in Hz. simpl in Hz.
    apply Z.eqb_neq in Hne. destruct (String.eqb order "asc"); lia.
  - rewrite arraySort_Permutation, <- Permutation_rev, arraySort_Permutation. reflexivity.
  - apply (Hsorted (mkSorter column order)). reflexivity.
  - eapply StronglySorted_weaken;
      [|apply StronglySorted_rev, (Hsorted (mkSorter column "asc")); reflexivity].
    intros a b [Hle Hab]. split; [|congruence].
    pose proof (compareTickets_antisym [mkSorter column "asc"] a b) as Hanti.
    fold cA in Hle, Hanti. rewrite Hflip. lia.
Qed.

Lemma X10_direction_reverses_witness :
  sortPhase [Sample.ticketA; Sample.ticketB; Sample.ticketC]
            [mkSorter "dateCreated" "desc"; mkSorter "id" "asc"]
  = rev (sortPhase [Sample.ticketA; Sample.ticketB; Sample.ticketC]
                   [mkSorter "dateCreated" "asc"]).
Proof.
  apply (X10_direction_reverses [Sample.ticketA; Sample.ticketB; Sample.ticketC]
           "dateCreated" "desc" [mkSorter "id" "asc"] []);
    [vm_compute; reflexivity | vm_compute; reflexivity | discriminate].
Defined.

(** ** The old grid: pages *)

Lemma ceilDiv_bounds (a b : Z) :
  1 <= b -> (ceilDiv a b - 1) * b < a <= ceilDiv a b * b.
Proof.
  intros Hb. unfold ceilDiv.
  pose proof (Z.div_mod (- a) b ltac:(lia)) as Hdm.
  pose proof (Z.mod_pos_bound (- a) b ltac:(lia)) as Hmod.
  nia.
Qed.

Lemma firstn_plus {A : Type} (n m : nat) (l : list A) :
  firstn (n + m) l = firstn n l ++ firstn m (skipn n l).
Proof.
  revert l. induction n as [|n IH]; intros l; [reflexivity|].
  destruct l as [|x l]; simpl; [rewrite firstn_nil; reflexivity|].
  rewrite IH. reflexivity.
Qed.

(** The first [k] chunks of [size] elements make up the first [k * size]
    elements. *)
Lemma chunks_concat {A : Type} (size k : nat) (l : list A) :
  concat (List.map (fun i => firstn size (skipn (i * size) l)) (seq 0 k))
  = firstn (k * size) l.
Proof.
  induction k as [|k IH]; [reflexivity|].
  rewrite seq_S, List.map_app, concat_app, IH. simpl.
  rewrite app_nil_r. rewrite (Nat.add_comm size (k * size)). symmetry. apply firstn_plus.
Qed.

Section OldTablePages.
Import OldTable OldTableApi.

Variable settings : Settings.
Variable reply : ServerReply.
Hypothesis client : serverSide settings = false.
Hypothesis paged : enabled (pagination settings) = true.
Hypothesis sized : 1 <= pageSize (pagination settings).

Let full := processData (data settings) (filters settings) (sorters settings).
Let size := pageSize (pagination settings).

Lemma fetchData_client (state : State) :
  fetchData settings reply state =
  {| displayedData :=
       slice full ((currentPage state - 1) * size) ((currentPage state - 1) * size + size);
     totalCount := Z.of_nat (List.length full);
     totalPages := ceilDiv (Z.of_nat (List.length full)) size;
     currentPage := currentPage state |}.
Proof. unfold fetchData. rewrite client, paged. reflexivity. Qed.

Lemma page_contents (state : State) :
  1 <= currentPage state ->
  displayedData (fetchData settings reply state)
  = firstn (Z.to_nat size) (skipn (Z.to_nat (currentPage state - 1) * Z.to_nat size) full).
Proof.
  intros Hp. rewrite fetchData_client. cbn [displayedData].
  rewrite slice_page by (subst size; nia). f_equal. f_equal. subst size. nia.
Qed.

Lemma pages_concat (state : State) :
  concat (List.map (fun n => displayedData (fetchData settings reply (setCurrentPage n state)))
                   (seqZ 1 (totalPages (fetchData settings reply state))))
  = full.
Proof.
  rewrite (fetchData_client state). cbn [totalPages].
  set (pages := ceilDiv (Z.of_nat (List.length full)) size).
  pose proof (ceilDiv_bounds (Z.of_nat (List.length full)) size sized) as Hb.
  fold pages in Hb.
  unfold seqZ.
  change (List.map ?f (?g <$> ?l)) with (List.map f (List.map g l)).
  rewrite List.map_map.
  rewrite (map_ext_in _ (fun i => firstn (Z.to_nat size) (skipn (i * Z.to_nat size) full))).
  - rewrite chunks_concat. apply firstn_all2. subst size. nia.
  - intros i _. rewrite page_contents by (cbn; lia). cbn [currentPage setCurrentPage].
    f_equal. f_equal. f_equal. lia.
Qed.

Lemma page_in_range_nonempty (state : State) :
  1 <= currentPage state <= totalPages (fetchData settings reply state) ->
  displayedData (fetchData settings reply state) <> [].
Proof.
  intros [Hlo Hhi]. rewrite page_contents by exact Hlo. rewrite fetchData_client in Hhi.
  cbn [totalPages] in Hhi.
  pose proof (ceilDiv_bounds (Z.of_nat (List.length full)) size sized) as Hb.
  intros Hnil. apply (f_equal (@List.length Ticket)) in Hnil.
  rewrite length_firstn, length_skipn in Hnil. simpl in Hnil.
  subst size. nia.
Qed.

Lemma page_beyond_empty (state : State) :
  totalPages (fetchData settings reply state) < currentPage state ->
  displayedData (fetchData settings reply state) = [].
Proof.
  intros Hhi. rewrite fetchData_client in Hhi. cbn [totalPages] in Hhi.
  pose proof (ceilDiv_bounds (Z.of_nat (List.length full)) size sized) as Hb.
  assert (0 <= ceilDiv (Z.of_nat (List.length full)) size) as Hnn by (subst size; nia).
  rewrite page_contents by lia.
  rewrite skipn_all2 by (subst size; nia). apply firstn_nil.
Qed.
End OldTablePages.

(** X11: the pages tile the collection.  In client-side mode with pagination
    on and a page size of at least 1, the data of pages 1 to [totalPages], one
    after the other, are the filtered and sorted collection: every record on
    exactly one page, in order. *)
Theorem X11_pages_concat (settings : OldTable.Settings) (reply : OldTable.ServerReply)
    (state : OldTable.State) :
  OldTable.serverSide settings = false ->
  OldTable.enabled (OldTable.pagination settings) = true ->
  1 <= OldTable.pageSize (OldTable.pagination settings) ->
  concat (List.map
            (fun n => OldTable.displayedData
                        (OldTable.fetchData settings reply
                           (OldTableApi.setCurrentPage n state)))
            (seqZ 1 (OldTable.totalPages (OldTable.fetchData settings reply state))))
  = processData (OldTable.data settings) (OldTable.filters settings)
                (OldTable.sorters settings).
Proof. intros. apply pages_concat; assumption. Qed.

Lemma X11_pages_concat_witness :
  OldTable.displayedData (OldTable.fetchData SampleGrid.settings OldTable.ReplyFails
                            (SampleGrid.page 1))
  ++ OldTable.displayedData (OldTable.fetchData SampleGrid.settings OldTable.ReplyFails
                               (SampleGrid.page 2))
  = [SampleGrid.rec "1" "Bug: login"; SampleGrid.rec "3" "export bug";
     SampleGrid.rec "5" "debug build"].
Proof.
  pose proof (X11_pages_concat SampleGrid.settings OldTable.ReplyFails (SampleGrid.page 1)
                eq_refl eq_refl ltac:(simpl; lia)) as H.
  vm_compute in H. vm_compute. exact H.
Defined.

(** X12: which pages have rows.  In client-side mode with pagination on and
    a page size of at least 1, a page between 1 and [totalPages] is never
    empty, a page beyond [totalPages] is empty, and [totalPages] is 0 exactly
    when no record passes the filters. *)
Theorem X12_page_range (settings : OldTable.Settings) (reply : OldTable.ServerReply)
    (state : OldTable.State) :
  OldTable.serverSide settings = false ->
  OldTable.enabled (OldTable.pagination settings) = true ->
  1 <= OldTable.pageSize (OldTable.pagination settings) ->
  let state' := OldTable.fetchData settings reply state in
  (1 <= OldTable.currentPage state <= OldTable.totalPages state' ->
   OldTable.displayedData state' <> []) /\
  (OldTable.totalPages state' < OldTable.currentPage state ->
   OldTable.displayedData state' = []) /\
  (OldTable.totalPages state' = 0 <->
   filterPhase (OldTable.data settings) (OldTable.filters settings) = []).
Proof.
  intros client paged sized. cbv zeta.
  split; [apply page_in_range_nonempty; assumption|].
  split; [apply page_beyond_empty; assumption|].
  rewrite (fetchData_client settings reply client paged). cbn [OldTable.totalPages].
  rewrite processData_length.
  pose proof (ceilDiv_bounds
                (Z.of_nat (List.length (filterPhase (OldTable.data settings)
                                                    (OldTable.filters settings))))
                _ sized) as Hb.
  split.
  - intros Hz. rewrite Hz in Hb. apply length_zero_iff_nil. lia.
  - intros Hnil. rewrite Hnil in *. simpl in *. nia.
Qed.

Lemma X12_page_range_witness :
  OldTable.displayedData
    (OldTable.fetchData SampleGrid.settings OldTable.ReplyFails (SampleGrid.page 3)) = [].
Proof.
  apply (X12_page_range SampleGrid.settings OldTable.ReplyFails (SampleGrid.page 3)
           eq_refl eq_refl ltac:(simpl; lia)).
  vm_compute. reflexivity.
Defined.

Section OldTableEvents.
Import OldTable OldTableApi.
Variable reply : ServerReply.


End OldTableEvents.



(** X14: the numbered page buttons.  On a page between 1 and [totalPages],
    [renderPagination] writes buttons for a run of consecutive pages that lies
    within 1..[totalPages], contains the current page and has
    min(5, totalPages) pages. *)
Theorem X14_page_window (state : OldTable.State) :
  1 <= OldTable.currentPage state <= OldTable.totalPages state ->
  let '(startPage, endPage) := OldTableApi.pageWindow state in
  1 <= startPage <= OldTable.currentPage state /\
  OldTable.currentPage state <= endPage <= OldTable.totalPages state /\
  OldTable.currentPage state ∈ OldTableApi.numberedButtons state /\
  Z.of_nat (List.length (OldTableApi.numberedButtons state))
    = Z.min 5 (OldTable.totalPages state).
Proof.
  intros Hpage. unfold OldTableApi.numberedButtons, OldTableApi.pageWindow.
  change (5 / 2) with 2. cbv zeta.
  split; [lia|]. split; [lia|]. split.
  - apply elem_of_seqZ. lia.
  - rewrite length_seqZ. lia.
Qed.

Lemma X14_page_window_witness :
  9 ∈ OldTableApi.numberedButtons
        {| OldTable.displayedData := []; OldTable.totalCount := 90;
           OldTable.totalPages := 9; OldTable.currentPage := 9 |} /\
  OldTableApi.numberedButtons
    {| OldTable.displayedData := []; OldTable.totalCount := 90;
       OldTable.totalPages := 9; OldTable.currentPage := 9 |} = [5; 6; 7; 8; 9].
Proof.
  pose proof (X14_page_window
                {| OldTable.displayedData := []; OldTable.totalCount := 90;
                   OldTable.totalPages := 9; OldTable.currentPage := 9 |}
                ltac:(simpl; lia)) as H.
  unfold OldTableApi.pageWindow in H. cbv zeta in H.
  destruct H as (_ & _ & Hin & _). split; [exact Hin | reflexivity].
Defined.

(** ** The grid engine: pages and submit handlers *)

Lemma fetchServerData_keeps_range (settings : Grid.Settings)
    (dataSource : Grid.Request -> Grid.Reply) (state : Grid.State) :
  1 <= Grid.currentPage state <= Z.max 1 (Grid.totalPages state) ->
  let state' := Grid.fetchServerData settings dataSource state in
  1 <= Grid.currentPage state' <= Z.max 1 (Grid.totalPages state').
Proof.
  intros Hr. cbv zeta. unfold Grid.fetchServerData.
  destruct (dataSource _) as [| |data totalCount];
    cbn [Grid.currentPage Grid.totalPages]; try exact Hr.
  set (tp := if Grid.paginationEnabled settings then _ else 1).
  destruct (Z.eqb_spec tp 0); lia.
Qed.

Lemma beforeRefresh_keeps_range (settings : Grid.Settings) (e : GridSubmit.Event)
    (state state' : Grid.State) :
  1 <= Grid.currentPage state <= Z.max 1 (Grid.totalPages state) ->
  GridSubmit.beforeRefresh settings e state = Some state' ->
  1 <= Grid.currentPage state' <= Z.max 1 (Grid.totalPages state').
Proof.
  intros Hr. destruct e as [|button|rows|rows| |]; cbn [GridSubmit.beforeRefresh];
    try (intros [= <-]; cbn; lia).
  unfold GridControls.pageButtonClicked, GridControls.renderPagination.
  destruct (Grid.paginationEnabled settings); [|discriminate]. cbn [negb].
  destruct button; cbn [GridControls.prevDisabled GridControls.nextDisabled].
  - destruct (Z.leb_spec (Grid.currentPage state) 1); [discriminate|].
    intros [= <-]. cbn. lia.
  - destruct (Z.leb_spec (Z.max 1 (Grid.totalPages state)) (Grid.currentPage state));
      [discriminate|].
    intros [= <-]. cbn. lia.
Qed.

(** X15: the grid engine never asks for a page out of range.  Starting from
    the initial state and handling events one at a time (refreshes, clicks
    on the page buttons as last rendered, submits and resets of the two
    modals), each fetch settling as its data source decides, resolved or
    failed, the current page stays between 1 and max(1, totalPages) and every
    request the data source receives is for a page of at least 1. *)
Theorem X15_grid_page_in_range (settings : Grid.Settings)
    (steps : list (GridSubmit.Event * (Grid.Request -> Grid.Reply))) :
  let final := fold_left (GridSubmit.handle settings) steps Grid.initialState in
  1 <= Grid.currentPage final <= Z.max 1 (Grid.totalPages final) /\
  Forall (fun r => 1 <= Grid.req_page r)
         (GridSubmit.requests settings Grid.initialState steps).
Proof.
  cbv zeta.
  assert (1 <= Grid.currentPage Grid.initialState
          <= Z.max 1 (Grid.totalPages Grid.initialState)) as H0 by (cbn; lia).
  revert H0. generalize Grid.initialState.
  induction steps as [|[e ds] steps IH]; intros state Hr; [split; [exact Hr | constructor]|].
  cbn [fold_left GridSubmit.requests fst snd].
  destruct (GridSubmit.beforeRefresh settings e state) as [state'|] eqn:Eb.
  - assert (GridSubmit.handle settings state (e, ds)
            = Grid.fetchServerData settings ds state') as ->
      by (unfold GridSubmit.handle; cbn [fst snd]; rewrite Eb; reflexivity).
    pose proof (beforeRefresh_keeps_range settings e state state' Hr Eb) as Hr'.
    destruct (IH _ (fetchServerData_keeps_range settings ds state' Hr')) as [Hf Hq].
    split; [exact Hf|]. constructor; [cbn; lia | exact Hq].
  - assert (GridSubmit.handle settings state (e, ds) = state) as ->
      by (unfold GridSubmit.handle; cbn [fst snd]; rewrite Eb; reflexivity).
    apply IH, Hr.
Qed.

(** X16: the row range of the pagination bar.  After a fetch that resolves
    with a total count [c >= 0], with pagination on and a page size of at
    least 1, "Showing a-b of c" is "0-0" when [c] is 0 and otherwise has
    1 <= a <= b <= c with at most a page's worth of rows between them, and
    the page shown is at most the number of pages shown. *)
Theorem X16_pagination_bar (settings : Grid.Settings)
    (dataSource : Grid.Request -> Grid.Reply) (state : Grid.State)
    (data : option (list Ticket)) (c : Z) :
  Grid.paginationEnabled settings = true ->
  1 <= Grid.pageSize settings ->
  0 <= c ->
  dataSource (Grid.request settings state) = Grid.Resolved data (Some c) ->
  let state' := Grid.fetchServerData settings dataSource state in
  exists bar,
    GridControls.renderPagination settings state' = Some bar /\
    (c = 0 -> GridControls.startRow bar = 0 /\ GridControls.endRow bar = 0) /\
    (0 < c ->
     1 <= GridControls.startRow bar <= GridControls.endRow bar /\
     GridControls.endRow bar <= c /\
     GridControls.endRow bar - GridControls.startRow bar + 1 <= Grid.pageSize settings) /\
    Grid.currentPage state' <= GridControls.shownPages bar.
Proof.
  intros Hen Hps Hc Hreply. cbv zeta.
  unfold GridControls.renderPagination, Grid.fetchServerData.
  rewrite Hreply, Hen.
  cbn [negb Grid.totalCount Grid.currentPage Grid.totalPages default from_option id].
  eexists. split; [reflexivity|].
  cbn [GridControls.startRow GridControls.endRow GridControls.shownPages].
  pose proof (ceilDiv_bounds c (Grid.pageSize settings) Hps) as Hb.
  remember (ceilDiv c (Grid.pageSize settings)) as tp eqn:Etp.
  remember (Z.max 1 (Z.min (Grid.currentPage state) (if tp =? 0 then 1 else tp)))
    as cp eqn:Ecp.
  remember (Grid.pageSize settings) as ps eqn:Eps.
  assert (1 <= cp <= Z.max 1 tp) as Hcp
    by (subst cp; destruct (Z.eqb_spec tp 0); lia).
  clear Ecp Etp Hreply.
  split; [|split].
  - intros Hz. subst c. change (0 <? 0) with false. cbv iota.
    split; [reflexivity|]. apply Z.min_r. nia.
  - intros Hpos. replace (0 <? c) with true by (symmetry; apply Z.ltb_lt; exact Hpos).
    assert (1 <= tp) as Htp by nia.
    assert ((cp - 1) * ps < c) as Hstart by nia.
    assert (0 <= (cp - 1) * ps) as Hnn by nia.
    destruct (Z.min_spec (cp * ps) c) as [[Hm ->] | [Hm ->]]; lia.
  - lia.
Qed.

Lemma X16_pagination_bar_witness :
  exists bar,
    GridControls.renderPagination SampleControls.settings
      (Grid.fetchServerData SampleControls.settings (SampleControls.resolves 20)
         (Grid.pageClicked Grid.Next (Grid.pageClicked Grid.Next SampleEngine.onPage1)))
      = Some bar /\
    1 <= GridControls.startRow bar <= GridControls.endRow bar /\
    GridControls.endRow bar <= 20.
Proof.
  destruct (X16_pagination_bar SampleControls.settings (SampleControls.resolves 20)
              (Grid.pageClicked Grid.Next (Grid.pageClicked Grid.Next SampleEngine.onPage1))
              (Some [Sample.ticketA]) 20 eq_refl
              ltac:(simpl; lia) ltac:(lia) eq_refl)
    as (bar & Hbar & _ & Hrows & _).
  exists bar. split; [exact Hbar|].
  destruct (Hrows ltac:(lia)) as (H1 & H2 & _). split; assumption.
Defined.

Lemma trimStart_empty (s : string) :
  JsTrim.trimStart s = "" <-> JsNumber.allWhite s = true.
Proof.
  induction s as [|c s IH]; simpl; [tauto|].
  destruct (JsNumber.isWhite c); simpl; [exact IH|]. split; discriminate.
Qed.

Lemma trimEnd_empty (s : string) :
  JsTrim.trimEnd s = "" <-> JsNumber.allWhite s = true.
Proof.
  destruct s as [|c s]; [simpl; tauto|].
  cbn [JsTrim.trimEnd]. destruct (JsNumber.allWhite (String c s)); split;
    (reflexivity || discriminate).
Qed.

Lemma allWhite_trimStart (s : string) :
  JsNumber.allWhite (JsTrim.trimStart s) = JsNumber.allWhite s.
Proof.
  induction s as [|c s IH]; [reflexivity|]. cbn [JsTrim.trimStart].
  destruct (JsNumber.isWhite c) eqn:E; [|reflexivity].
  rewrite IH. simpl. rewrite E. reflexivity.
Qed.

(** [trim] gives the empty string exactly on blank strings. *)
Lemma trim_empty (s : string) : JsTrim.trim s = "" <-> blank s.
Proof.
  unfold JsTrim.trim, blank. rewrite trimEnd_empty, allWhite_trimStart. tauto.
Qed.

Lemma trim_eqb_blank (s : string) :
  negb (String.eqb (JsTrim.trim s) "") = true <-> ~ blank s.
Proof.
  rewrite negb_true_iff, String.eqb_neq, trim_empty. tauto.
Qed.

(** X17: what the filter modal's Submit commits.  The rows whose value is
    blank are dropped and the others become the rules, in the order of the
    rows; the engine takes those rules and goes to page 1 before it fetches,
    so the request carries page 1 and the new rules, and the rules stay
    committed whether the fetch resolves or fails.  Rows that are all blank
    commit the empty rule set. *)
Theorem X17_submit_filters (settings : Grid.Settings)
    (dataSource : Grid.Request -> Grid.Reply) (rows : list GridControls.FilterRow)
    (state : Grid.State) :
  let step := (GridSubmit.SubmitFilters rows, dataSource) in
  let toRule row :=
    Grid.mkGridFilter (GridControls.row_column row) (GridControls.row_operator row)
                      (GridControls.row_value row) in
  (exists kept,
     Kept (fun row => ~ blank (GridControls.row_value row)) rows kept /\
     GridSubmit.readFilters rows = List.map toRule kept) /\
  Forall (fun rule => ~ blank (Grid.g_value rule)) (GridSubmit.readFilters rows) /\
  (Forall (fun row => blank (GridControls.row_value row)) rows ->
   GridSubmit.readFilters rows = []) /\
  Grid.filters (GridSubmit.handle settings state step) = GridSubmit.readFilters rows /\
  (exists r, GridSubmit.requests settings state [step] = [r] /\
             Grid.req_page r = 1 /\ Grid.req_filters r = GridSubmit.readFilters rows).
Proof.
  cbv zeta. split; [|split; [|split; [|split]]].
  - eexists. split; [|reflexivity]. apply filter_Kept.
    intros row. apply trim_eqb_blank.
  - unfold GridSubmit.readFilters. apply Forall_forall. intros rule Hin.
    apply in_map_iff in Hin as (row & <- & Hrow). apply filter_In in Hrow as [_ Hrow].
    apply trim_eqb_blank in Hrow. exact Hrow.
  - intros Hall. unfold GridSubmit.readFilters.
    induction Hall as [|row rows' Hrow _ IH]; [reflexivity|]. simpl.
    apply trim_empty in Hrow. rewrite Hrow. simpl. exact IH.
  - unfold GridSubmit.handle. cbn [fst snd GridSubmit.beforeRefresh].
    unfold Grid.fetchServerData. destruct (dataSource _); reflexivity.
  - eexists. split; [reflexivity|]. split; reflexivity.
Qed.

Lemma X17_submit_filters_witness :
  GridSubmit.readFilters SampleControls.rows
  = [Grid.mkGridFilter "subject" "contains" " bug "; Grid.mkGridFilter "id" "eq" "TKT-1"].
Proof.
  destruct (X17_submit_filters SampleControls.settings SampleControls.rejects
              SampleControls.rows Grid.initialState) as [(kept & Hk & ->) _].
  assert (kept = [ {| GridControls.row_column := "subject";
                      GridControls.row_operator := "contains";
                      GridControls.row_value := " bug " |};
                   {| GridControls.row_column := "id";
                      GridControls.row_operator := "eq";
                      GridControls.row_value := "TKT-1" |} ]) as ->; [|reflexivity].
  apply (Kept_unique _ _ _ _ Hk).
  apply Kept_keep; [rewrite <- trim_eqb_blank; reflexivity|].
  apply Kept_drop; [intros H; apply H; reflexivity|].
  apply Kept_keep; [rewrite <- trim_eqb_blank; reflexivity|].
  constructor.
Defined.

(** ** The application's filter form and what it shows *)

Lemma fieldText_nonblank (s : string) : ~ blank s -> fieldText (VStr s) <> "".
Proof.
  intros Hb. destruct s as [|c s]; [exfalso; apply Hb; reflexivity|].
  unfold fieldText, js_or. simpl. discriminate.
Qed.

Lemma filterPhase_rule_rejects (tickets : list Ticket) (filters : list FilterRule)
    (rule : FilterRule) :
  In rule filters ->
  (forall t, In t tickets -> matchesFilter t rule = false) ->
  filterPhase tickets filters = [].
Proof.
  intros Hin Hrej. rewrite filterPhase_filter.
  induction tickets as [|t l IH]; [reflexivity|]. simpl.
  assert (matchesAll filters t = false) as ->.
  { apply not_true_is_false. intros Hall. unfold matchesAll in Hall.
    rewrite forallb_forall in Hall. specialize (Hall rule Hin).
    rewrite (Hrej t) in Hall by (left; reflexivity). discriminate. }
  apply IH. intros t' Ht'. apply Hrej. right. exact Ht'.
Qed.

(** X18: what the application's filter form commits and shows.  The rules
    [applyFilters] commits are the rows with a value that is not blank, so
    none of them compares against the empty text; a committed rule with one of
    the four relations on a column that no ticket has, neither as a member of
    its own nor as one inherited from [Object.prototype], therefore empties
    the list that [loadTickets] shows.  Rows that are all blank commit no
    rule: the toast says "Filter cleared" and every ticket is shown.  The
    sort rules are left as they were. *)
Theorem X18_applied_filters (rows : list AppSubmit.FilterInput) (app : App.State) :
  let app' := AppSubmit.applyFilters rows app in
  Forall (fun rule => exists s, f_value rule = VStr s /\ ~ blank s /\
                                fieldText (f_value rule) <> "")
         (App.currentFilters app') /\
  (forall tickets rule,
     In rule (App.currentFilters app') -> knownRelation rule ->
     ObjectPrototype (f_column rule) = None ->
     (forall t, In t tickets -> t !! f_column rule = None) ->
     App.loadTickets tickets app' = []) /\
  (Forall (fun row => blank (AppSubmit.in_value row)) rows ->
   App.currentFilters app' = [] /\
   AppSubmit.filterToast app' = "Filter cleared" /\
   forall tickets, Permutation (App.loadTickets tickets app') tickets) /\
  App.currentSorters app' = App.currentSorters app.
Proof.
  cbv zeta.
  assert (Forall (fun rule => exists s, f_value rule = VStr s /\ ~ blank s /\
                                        fieldText (f_value rule) <> "")
                 (App.currentFilters (AppSubmit.applyFilters rows app))) as Hcommitted.
  { cbn [AppSubmit.applyFilters App.currentFilters]. apply Forall_forall.
    intros rule Hin. apply filter_In in Hin as [Hin Hrule].
    apply in_map_iff in Hin as (row & <- & _).
    cbn [AppSubmit.toRule AppSubmit.valueText f_value] in *.
    apply trim_eqb_blank in Hrule.
    exists (AppSubmit.in_value row). split; [reflexivity|]. split; [exact Hrule|].
    apply fieldText_nonblank, Hrule. }
  split; [exact Hcommitted|]. split; [|split; [|reflexivity]].
  - intros tickets rule Hin Hknown Hinherited Habsent.
    unfold App.loadTickets, processTickets.
    rewrite (filterPhase_rule_rejects tickets _ rule Hin); [reflexivity|].
    intros t Ht. apply not_true_is_false. intros Hmatch.
    rewrite Forall_forall in Hcommitted. destruct (Hcommitted rule Hin) as (s & _ & _ & Hne).
    apply Hne.
    apply (matchesFilter_unknown_column t rule Hknown (Habsent t Ht) Hinherited Hmatch).
  - intros Hall.
    assert (App.currentFilters (AppSubmit.applyFilters rows app) = []) as Hnone.
    { cbn [AppSubmit.applyFilters App.currentFilters]. clear Hcommitted.
      induction Hall as [|row rows' Hrow _ IH]; [reflexivity|]. simpl.
      apply trim_empty in Hrow. cbn [AppSubmit.valueText AppSubmit.toRule f_value].
      rewrite Hrow. simpl. exact IH. }
    split; [exact Hnone|]. split.
    + unfold AppSubmit.filterToast. rewrite Hnone. reflexivity.
    + intros tickets. unfold App.loadTickets, processTickets. rewrite Hnone.
      apply arraySort_Permutation.
Qed.

Lemma X18_applied_filters_witness :
  App.loadTickets [Sample.ticketA; Sample.ticketB; Sample.ticketC]
                  (AppSubmit.applyFilters SampleApp.rows App.initialState) = [].
Proof.
  apply (proj1 (proj2 (X18_applied_filters SampleApp.rows App.initialState))
           [Sample.ticketA; Sample.ticketB; Sample.ticketC]
           (mkFilter "priority" "equals" (VStr "high"))).
  - left. reflexivity.
  - left. reflexivity.
  - reflexivity.
  - intros t [<-|[<-|[<-|[]]]]; reflexivity.
Defined.

(** ** [escapeHtml] *)

Lemma string_app_assoc (a b c : string) : (a +:+ b) +:+ c = a +:+ (b +:+ c).
Proof.
  induction a as [|x a IH]; [reflexivity|].
  change (String x ((a +:+ b) +:+ c) = String x (a +:+ (b +:+ c))). rewrite IH. reflexivity.
Qed.

Lemma replaceAll_app (c : ascii) (by_ x y : string) :
  Html.replaceAll c by_ (x +:+ y) = Html.replaceAll c by_ x +:+ Html.replaceAll c by_ y.
Proof.
  induction x as [|d x IH]; [reflexivity|].
  change (String d x +:+ y) with (String d (x +:+ y)). cbn [Html.replaceAll].
  rewrite IH. destruct (Ascii.eqb d c); [rewrite string_app_assoc|]; reflexivity.
Qed.

Lemma escapeHtml_app (x y : string) :
  Html.escapeHtml (x +:+ y) = Html.escapeHtml x +:+ Html.escapeHtml y.
Proof. unfold Html.escapeHtml. rewrite !replaceAll_app. reflexivity. Qed.

Lemma replaceAll_other (c d : ascii) (by_ : string) :
  Ascii.eqb d c = false -> Html.replaceAll c by_ (String d "") = String d "".
Proof. intros H. simpl. rewrite H. reflexivity. Qed.

Lemma escapeHtml_char (c : ascii) : Html.escapeHtml (String c "") = Html.entity c.
Proof.
  unfold Html.entity.
  destruct (Ascii.eqb_spec c "&") as [->|N1]; [reflexivity|].
  destruct (Ascii.eqb_spec c "<") as [->|N2]; [reflexivity|].
  destruct (Ascii.eqb_spec c ">") as [->|N3]; [reflexivity|].
  destruct (Ascii.eqb_spec c Html.quot) as [->|N4]; [reflexivity|].
  destruct (Ascii.eqb_spec c Html.apos) as [->|N5]; [reflexivity|].
  apply Ascii.eqb_neq in N1, N2, N3, N4, N5.
  unfold Html.escapeHtml. rewrite !replaceAll_other by assumption. reflexivity.
Qed.

Lemma escapeHtml_escapeEach (s : string) : Html.escapeHtml s = Html.escapeEach s.
Proof.
  induction s as [|c s IH]; [reflexivity|].
  change (String c s) with (String c "" +:+ s).
  rewrite escapeHtml_app, escapeHtml_char, IH. reflexivity.
Qed.

Lemma entity_cases (c : ascii) :
  (Html.special c = true /\
   exists body, Html.entity c = String "&" body /\
                Forall (fun d => Html.special d = false) (list_ascii_of_string body)) \/
  (Html.special c = false /\ Html.entity c = String c "").
Proof.
  unfold Html.entity, Html.special, Html.markup.
  destruct (Ascii.eqb_spec c "&") as [->|N1];
    [left; split; [reflexivity|]; eexists; split; [reflexivity|];
     repeat constructor|].
  destruct (Ascii.eqb_spec c "<") as [->|N2];
    [left; split; [reflexivity|]; eexists; split; [reflexivity|];
     repeat constructor|].
  destruct (Ascii.eqb_spec c ">") as [->|N3];
    [left; split; [reflexivity|]; eexists; split; [reflexivity|];
     repeat constructor|].
  destruct (Ascii.eqb_spec c Html.quot) as [->|N4];
    [left; split; [reflexivity|]; eexists; split; [reflexivity|];
     repeat constructor|].
  destruct (Ascii.eqb_spec c Html.apos) as [->|N5];
    [left; split; [reflexivity|]; eexists; split; [reflexivity|];
     repeat constructor|].
  right. split; reflexivity.
Qed.

Lemma list_ascii_app (a b : string) :
  list_ascii_of_string (a +:+ b) = (list_ascii_of_string a ++ list_ascii_of_string b)%list.
Proof.
  induction a as [|x a IH]; [reflexivity|].
  change (list_ascii_of_string (String x (a +:+ b))
          = x :: (list_ascii_of_string a ++ list_ascii_of_string b)%list).
  simpl. rewrite IH. reflexivity.
Qed.

Lemma escapeEach_no_markup (s : string) :
  Forall (fun c => Html.markup c = false) (list_ascii_of_string (Html.escapeEach s)).
Proof.
  induction s as [|c s IH]; [constructor|]. cbn [Html.escapeEach].
  rewrite list_ascii_app. apply Forall_app. split; [|exact IH].
  destruct (entity_cases c) as [(_ & body & -> & Hbody) | (Hs & ->)].
  - simpl. constructor; [reflexivity|].
    eapply Forall_impl; [|exact Hbody]. intros d Hd.
    unfold Html.special in Hd. apply orb_false_iff in Hd as [_ Hd]. exact Hd.
  - simpl. constructor; [|constructor].
    unfold Html.special in Hs. apply orb_false_iff in Hs as [_ Hs]. exact Hs.
Qed.

Lemma escapeEach_plain (s : string) :
  Forall (fun c => Html.special c = false) (list_ascii_of_string s) ->
  Html.escapeEach s = s.
Proof.
  induction s as [|c s IH]; [reflexivity|]. simpl. intros H.
  apply Forall_cons_iff in H as [Hc Hs]. rewrite (IH Hs).
  destruct (entity_cases c) as [(Hsp & _) | (_ & ->)]; [congruence | reflexivity].
Qed.

(** The entities are told apart by their second character and none runs
    into the text after it. *)
Lemma entity_injective (c d : ascii) (x y : string) :
  Html.entity c +:+ x = Html.entity d +:+ y -> c = d /\ x = y.
Proof.
  assert (Hcons : forall e a b, String e a +:+ b = String e (a +:+ b)) by reflexivity.
  assert (Hnil : forall b : string, "" +:+ b = b) by reflexivity.
  unfold Html.entity.
  destruct (Ascii.eqb_spec c "&") as [->|C1];
  [|destruct (Ascii.eqb_spec c "<") as [->|C2];
  [|destruct (Ascii.eqb_spec c ">") as [->|C3];
  [|destruct (Ascii.eqb_spec c Html.quot) as [->|C4];
  [|destruct (Ascii.eqb_spec c Html.apos) as [->|C5]]]]];
  (destruct (Ascii.eqb_spec d "&") as [->|D1];
  [|destruct (Ascii.eqb_spec d "<") as [->|D2];
  [|destruct (Ascii.eqb_spec d ">") as [->|D3];
  [|destruct (Ascii.eqb_spec d Html.quot) as [->|D4];
  [|destruct (Ascii.eqb_spec d Html.apos) as [->|D5]]]]]);
  rewrite ?Hcons, ?Hnil; intros H;
  repeat match goal with
         | E : String _ _ = String _ _ |- _ =>
             first [discriminate E | injection E; clear E; intros]
         end;
  subst; try contradiction; try (split; reflexivity); try congruence.
Qed.

Lemma escapeEach_injective (a b : string) :
  Html.escapeEach a = Html.escapeEach b -> a = b.
Proof.
  revert b. induction a as [|c a IH]; intros [|d b] H.
  - reflexivity.
  - exfalso. cbn [Html.escapeEach] in H.
    destruct (entity_cases d) as [(_ & body & E & _) | (_ & E)]; rewrite E in H;
      discriminate H.
  - exfalso. cbn [Html.escapeEach] in H.
    destruct (entity_cases c) as [(_ & body & E & _) | (_ & E)]; rewrite E in H;
      discriminate H.
  - cbn [Html.escapeEach] in H. apply entity_injective in H as [-> H].
    rewrite (IH b H). reflexivity.
Qed.

(** X19: [escapeHtml] escapes each character once.  The chain of five
    replacements writes every [&], [<], [>], double quote and apostrophe as
    its entity and keeps every other character, with no entity escaped a
    second time; so the result has no [<], [>] or quote character in it, text
    without the five characters comes back unchanged, and different texts
    have different results.  The variant of the ticket service, which takes
    any value, gives no [<], [>] or quote character either. *)
Theorem X19_escapeHtml :
  (forall s, Html.escapeHtml s = Html.escapeEach s) /\
  (forall s, Forall (fun c => Html.markup c = false)
                    (list_ascii_of_string (Html.escapeHtml s))) /\
  (forall s, Forall (fun c => Html.special c = false) (list_ascii_of_string s) ->
             Html.escapeHtml s = s) /\
  (forall a b, Html.escapeHtml a = Html.escapeHtml b -> a = b) /\
  (forall text, Forall (fun c => Html.markup c = false)
                       (list_ascii_of_string (Html.escapeHtmlText text))).
Proof.
  split; [exact escapeHtml_escapeEach|].
  split; [intros s; rewrite escapeHtml_escapeEach; apply escapeEach_no_markup|].
  split; [intros s Hs; rewrite escapeHtml_escapeEach; apply escapeEach_plain, Hs|].
  split; [intros a b H; rewrite !escapeHtml_escapeEach in H;
          apply escapeEach_injective, H|].
  intros text. unfold Html.escapeHtmlText.
  destruct (truthy text); [|constructor].
  destruct (toStringMethod text); [|constructor].
  rewrite escapeHtml_escapeEach. apply escapeEach_no_markup.
Qed.

Example escapeHtml_sample :
  Html.escapeHtml "<a href='x'>Tom & Jerry</a>"
  = "&lt;a href=&#039;x&#039;&gt;Tom &amp; Jerry&lt;/a&gt;".
Proof. reflexivity. Qed.

(** ** Form validation *)

Section RegExpFacts.
Import RegExp.

Lemma nullable_spec (r : Pattern) : nullable r = true <-> Matches r [].
Proof.
  induction r as [| |p|r1 IH1 r2 IH2|r1 IH1 r2 IH2|r IH]; simpl.
  - split; [discriminate|]. intros H. inversion H.
  - split; [constructor|reflexivity].
  - split; [discriminate|]. intros H. inversion H.
  - rewrite andb_true_iff, IH1, IH2. split.
    + intros [H1 H2]. apply (MSeq _ _ [] [] H1 H2).
    + intros H. inversion H as [| |? ? s1 s2 H1 H2 E1 E2| | | |]; subst.
      apply app_eq_nil in E2 as [-> ->]. split; assumption.
  - rewrite orb_true_iff, IH1, IH2. split.
    + intros [H|H]; [apply MAltL|apply MAltR]; exact H.
    + intros H. inversion H; subst; [left|right]; assumption.
  - split; [constructor|reflexivity].
Qed.

Lemma Matches_Seq (r1 r2 : Pattern) (s : list ascii) :
  Matches (Seq r1 r2) s <->
  exists s1 s2, s = s1 ++ s2 /\ Matches r1 s1 /\ Matches r2 s2.
Proof.
  split.
  - intros H. inversion H; subst. eauto.
  - intros (s1 & s2 & -> & H1 & H2). constructor; assumption.
Qed.

Lemma Matches_Alt (r1 r2 : Pattern) (s : list ascii) :
  Matches (Alt r1 r2) s <-> Matches r1 s \/ Matches r2 s.
Proof.
  split.
  - intros H. inversion H; subst; [left|right]; assumption.
  - intros [H|H]; [apply MAltL|apply MAltR]; exact H.
Qed.

Lemma Matches_Empty (s : list ascii) : Matches Empty s <-> s = [].
Proof.
  split; [intros H; inversion H; reflexivity | intros ->; constructor].
Qed.

Lemma Matches_Class (p : ascii -> bool) (s : list ascii) :
  Matches (Class p) s <-> exists c, s = [c] /\ p c = true.
Proof.
  split.
  - intros H. inversion H; subst. eauto.
  - intros (c & -> & H). constructor. exact H.
Qed.

Lemma Matches_Char (c : ascii) (s : list ascii) : Matches (Char c) s <-> s = [c].
Proof.
  unfold Char. rewrite Matches_Class. split.
  - intros (d & -> & H). apply Ascii.eqb_eq in H. subst. reflexivity.
  - intros ->. exists c. split; [reflexivity|apply Ascii.eqb_refl].
Qed.

Lemma Matches_Star_cons_gen (q : Pattern) (l : list ascii) :
  Matches q l ->
  forall r c s, q = Star r -> l = c :: s ->
  exists s1 s2, s = s1 ++ s2 /\ Matches r (c :: s1) /\ Matches (Star r) s2.
Proof.
  induction 1 as [| | | | | |r' s1 s2 H1 _ H2 IH2]; intros rr cc ss Eq El;
    try discriminate.
  injection Eq as ->.
  destruct s1 as [|d s1].
  - simpl in El. apply IH2; [reflexivity|exact El].
  - simpl in El. injection El as -> <-. exists s1, s2. auto.
Qed.

Lemma Matches_Star_cons (r : Pattern) (c : ascii) (s : list ascii) :
  Matches (Star r) (c :: s) ->
  exists s1 s2, s = s1 ++ s2 /\ Matches r (c :: s1) /\ Matches (Star r) s2.
Proof. intros H. exact (Matches_Star_cons_gen _ _ H r c s eq_refl eq_refl). Qed.

Lemma deriv_spec (c : ascii) (r : Pattern) (s : list ascii) :
  Matches (deriv c r) s <-> Matches r (c :: s).
Proof.
  revert s.
  induction r as [| |p|r1 IH1 r2 IH2|r1 IH1 r2 IH2|r IH]; intros s; simpl.
  - split; intros H; inversion H.
  - split; intros H; inversion H.
  - destruct (p c) eqn:Hp.
    + rewrite Matches_Empty, Matches_Class. split.
      * intros ->. eauto.
      * intros (d & E & _). injection E as _ ->. reflexivity.
    + rewrite Matches_Class. split; [intros H; inversion H|].
      intros (d & E & Hd). injection E as -> _. congruence.
  - assert (Hseq : Matches (Seq (deriv c r1) r2) s <->
                   exists s1 s2, s = s1 ++ s2 /\ Matches r1 (c :: s1) /\ Matches r2 s2).
    { rewrite Matches_Seq. split; intros (s1 & s2 & E & H1 & H2); exists s1, s2;
        (split; [exact E|]); (split; [apply IH1; exact H1|exact H2]). }
    rewrite (Matches_Seq r1 r2 (c :: s)).
    destruct (nullable r1) eqn:Hn.
    + rewrite Matches_Alt, Hseq, IH2. split.
      * intros [(s1 & s2 & -> & H1 & H2)|H].
        -- exists (c :: s1), s2. auto.
        -- exists [], (c :: s). split; [reflexivity|]. split; [|exact H].
           apply nullable_spec, Hn.
      * intros (s1 & s2 & E & H1 & H2). destruct s1 as [|d s1].
        -- simpl in E. subst s2. right. exact H2.
        -- simpl in E. injection E as <- ->. left. eauto.
    + rewrite Hseq. split.
      * intros (s1 & s2 & -> & H1 & H2). exists (c :: s1), s2. auto.
      * intros (s1 & s2 & E & H1 & H2). destruct s1 as [|d s1].
        -- apply nullable_spec in H1. congruence.
        -- simpl in E. injection E as <- ->. eauto.
  - rewrite !Matches_Alt, IH1, IH2. tauto.
  - rewrite Matches_Seq. split.
    + intros (s1 & s2 & -> & H1 & H2). apply IH in H1.
      apply (MStarCons r (c :: s1) s2 H1 H2).
    + intros H. apply Matches_Star_cons in H as (s1 & s2 & -> & H1 & H2).
      exists s1, s2. split; [reflexivity|]. split; [apply IH, H1|exact H2].
Qed.

Lemma matchList_spec (r : Pattern) (s : list ascii) :
  matchList r s = true <-> Matches r s.
Proof.
  revert r. induction s as [|c s IH]; intros r; simpl.
  - apply nullable_spec.
  - rewrite IH. apply deriv_spec.
Qed.

(** [test] decides the strings of the pattern. *)
Lemma test_spec (r : Pattern) (s : string) :
  test r s = true <-> Matches r (list_ascii_of_string s).
Proof. apply matchList_spec. Qed.

Lemma Matches_Star_Class (p : ascii -> bool) (s : list ascii) :
  Matches (Star (Class p)) s <-> Forall (fun c => p c = true) s.
Proof.
  split.
  - induction s as [|c s IH]; intros H; [constructor|].
    apply Matches_Star_cons in H as (s1 & s2 & -> & H1 & H2).
    apply Matches_Class in H1 as (d & E & Hd). injection E as -> ->.
    constructor; [exact Hd|]. apply IH. exact H2.
  - induction 1 as [|c s Hc _ IH]; [constructor|].
    apply (MStarCons (Class p) [c] s); [constructor; exact Hc|exact IH].
Qed.

Lemma Matches_Plus_Class (p : ascii -> bool) (s : list ascii) :
  Matches (Plus (Class p)) s <-> s <> [] /\ Forall (fun c => p c = true) s.
Proof.
  unfold Plus. rewrite Matches_Seq. split.
  - intros (s1 & s2 & -> & H1 & H2).
    apply Matches_Class in H1 as (c & -> & Hc). apply Matches_Star_Class in H2.
    split; [discriminate|]. constructor; assumption.
  - intros [Hne H]. destruct s as [|c s]; [contradiction|].
    apply Forall_cons_iff in H as [Hc Hs].
    exists [c], s. split; [reflexivity|]. split; [constructor; exact Hc|].
    apply Matches_Star_Class, Hs.
Qed.

Lemma Matches_Times_Class (n : nat) (p : ascii -> bool) (s : list ascii) :
  Matches (Times n (Class p)) s <->
  List.length s = n /\ Forall (fun c => p c = true) s.
Proof.
  revert s. induction n as [|n IH]; intros s; simpl.
  - rewrite Matches_Empty. split.
    + intros ->. split; [reflexivity|constructor].
    + intros [H _]. destruct s; [reflexivity|discriminate].
  - rewrite Matches_Seq. split.
    + intros (s1 & s2 & -> & H1 & H2).
      apply Matches_Class in H1 as (c & -> & Hc). apply IH in H2 as [Hl Hs].
      simpl. split; [congruence|]. constructor; assumption.
    + intros [Hl H]. destruct s as [|c s]; [discriminate|].
      apply Forall_cons_iff in H as [Hc Hs]. simpl in Hl.
      exists [c], s. split; [reflexivity|]. split; [constructor; exact Hc|].
      apply IH. split; [congruence|exact Hs].
Qed.

Lemma Matches_UpTo_Class (n : nat) (p : ascii -> bool) (s : list ascii) :
  Matches (UpTo n (Class p)) s <->
  (List.length s <= n)%nat /\ Forall (fun c => p c = true) s.
Proof.
  revert s. induction n as [|n IH]; intros s; simpl.
  - rewrite Matches_Empty. split.
    + intros ->. split; [reflexivity|constructor].
    + intros [H _]. destruct s; [reflexivity|simpl in H; lia].
  - rewrite Matches_Alt, Matches_Empty, Matches_Seq. split.
    + intros [->|(s1 & s2 & -> & H1 & H2)].
      * split; [simpl; lia|constructor].
      * apply Matches_Class in H1 as (c & -> & Hc). apply IH in H2 as [Hl Hs].
        simpl. split; [lia|]. constructor; assumption.
    + intros [Hl H]. destruct s as [|c s]; [left; reflexivity|right].
      apply Forall_cons_iff in H as [Hc Hs]. simpl in Hl.
      exists [c], s. split; [reflexivity|]. split; [constructor; exact Hc|].
      apply IH. split; [lia|exact Hs].
Qed.

Lemma Matches_Between_Class (lo hi : nat) (p : ascii -> bool) (s : list ascii) :
  (lo <= hi)%nat ->
  Matches (Between lo hi (Class p)) s <->
  (lo <= List.length s <= hi)%nat /\ Forall (fun c => p c = true) s.
Proof.
  intros Hle. unfold Between. rewrite Matches_Seq. split.
  - intros (s1 & s2 & -> & H1 & H2).
    apply Matches_Times_Class in H1 as [L1 F1].
    apply Matches_UpTo_Class in H2 as [L2 F2].
    rewrite length_app. split; [lia|]. apply Forall_app. split; assumption.
  - intros [Hl H]. exists (firstn lo s), (skipn lo s).
    split; [symmetry; apply firstn_skipn|].
    rewrite <- (firstn_skipn lo s) in H. apply Forall_app in H as [F1 F2].
    split.
    + apply Matches_Times_Class. split; [|exact F1].
      rewrite length_firstn. lia.
    + apply Matches_UpTo_Class. split; [|exact F2].
      rewrite length_skipn. lia.
Qed.

End RegExpFacts.

Section ValidationFacts.
Import RegExp Validation.

Lemma list_ascii_empty (s : string) : list_ascii_of_string s = [] <-> s = "".
Proof. destruct s; simpl; split; intros H; congruence. Qed.

Lemma eqb_empty_chars (s : string) :
  String.eqb s "" = false <-> list_ascii_of_string s <> [].
Proof. rewrite String.eqb_neq, list_ascii_empty. tauto. Qed.

Lemma emailPattern_spec (chars : list ascii) :
  Matches emailPattern chars <-> emailShape chars.
Proof.
  unfold emailPattern, emailShape. split.
  - intros H.
    apply Matches_Seq in H as (a & s2 & -> & Ha & H).
    apply Matches_Seq in H as (s3 & s4 & -> & Hat & H).
    apply Matches_Seq in H as (b & s6 & -> & Hb & H).
    apply Matches_Seq in H as (s7 & c & -> & Hdot & Hc).
    apply Matches_Char in Hat, Hdot. subst s3 s7.
    apply Matches_Plus_Class in Ha as [Na Fa], Hb as [Nb Fb], Hc as [Nc Fc].
    exists a, b, c. repeat split; assumption.
  - intros (a & b & c & -> & Na & Nb & Nc & Fa & Fb & Fc).
    apply Matches_Seq. exists a, ("@"%char :: b ++ "."%char :: c).
    split; [reflexivity|]. split; [apply Matches_Plus_Class; auto|].
    apply Matches_Seq. exists ["@"%char], (b ++ "."%char :: c).
    split; [reflexivity|]. split; [apply Matches_Char; reflexivity|].
    apply Matches_Seq. exists b, ("."%char :: c).
    split; [reflexivity|]. split; [apply Matches_Plus_Class; auto|].
    apply Matches_Seq. exists ["."%char], c.
    split; [reflexivity|]. split; [apply Matches_Char; reflexivity|].
    apply Matches_Plus_Class; auto.
Qed.

Lemma plain_no_at (l : list ascii) :
  Forall (fun x => plain x = true) l -> List.filter (Ascii.eqb "@") l = [].
Proof.
  induction 1 as [|x l Hx _ IH]; [reflexivity|]. cbn [List.filter]. rewrite IH.
  unfold plain in Hx. apply andb_true_iff in Hx as [_ Hx].
  apply negb_true_iff in Hx. rewrite Ascii.eqb_sym, Hx. reflexivity.
Qed.

Lemma plain_no_space (l : list ascii) :
  Forall (fun x => plain x = true) l -> Forall (fun x => space x = false) l.
Proof.
  apply Forall_impl. intros x Hx. unfold plain in Hx.
  apply andb_true_iff in Hx as [Hx _]. apply negb_true_iff, Hx.
Qed.

Lemma validateField_email (form : Form) (field : Element) :
  fieldName field = "email" \/ fieldName field = "editEmail" ->
  fst (validateField form field) = test emailPattern (JsTrim.trim (el_value field)).
Proof.
  intros Hname.
  assert (E : validateField form field
              = if String.eqb (JsTrim.trim (el_value field)) ""
                then (false, Some "Email is required")
                else if negb (test emailPattern (JsTrim.trim (el_value field)))
                     then (false, Some "Please enter a valid email")
                     else (true, None)).
  { unfold validateField. destruct Hname as [-> | ->]; reflexivity. }
  rewrite E. destruct (String.eqb_spec (JsTrim.trim (el_value field)) "") as [-> | _].
  - reflexivity.
  - destruct (test emailPattern (JsTrim.trim (el_value field))); reflexivity.
Qed.

Lemma phonePattern_spec (digits : list ascii) :
  Matches phonePattern digits <-> localShape digits \/ internationalShape digits.
Proof.
  unfold phonePattern, localShape, internationalShape.
  rewrite Matches_Alt.
  assert (Hor : forall A B C D : Prop, (A <-> C) -> (B <-> D) -> (A \/ B <-> C \/ D))
    by (intros; tauto).
  apply Hor.
  - split.
    + intros H.
      apply Matches_Seq in H as (s1 & s2 & -> & H0 & H).
      apply Matches_Seq in H as (s3 & rest & -> & Hd & Hrest).
      apply Matches_Char in H0. subst s1.
      apply Matches_Class in Hd as (d & -> & Hd).
      apply Matches_Times_Class in Hrest as [Hl Hf].
      exists d, rest. auto.
    + intros (d & rest & -> & Hd & Hl & Hf).
      apply Matches_Seq. exists ["0"%char], (d :: rest).
      split; [reflexivity|]. split; [apply Matches_Char; reflexivity|].
      apply Matches_Seq. exists [d], rest.
      split; [reflexivity|]. split; [constructor; exact Hd|].
      apply Matches_Times_Class. auto.
  - split.
    + intros H.
      apply Matches_Seq in H as (prefix & s2 & -> & Hp & H).
      apply Matches_Seq in H as (s3 & rest & -> & Hd & Hrest).
      apply Matches_Class in Hd as (d & -> & Hd).
      apply Matches_Between_Class in Hrest as [Hl Hf]; [|lia].
      exists prefix, d, rest. split; [|auto].
      apply Matches_Alt in Hp as [Hp|Hp].
      * left. apply Matches_Char, Hp.
      * right. apply Matches_Seq in Hp as (z1 & z2 & -> & Hz1 & Hz2).
        apply Matches_Char in Hz1, Hz2. subst. reflexivity.
    + intros (prefix & d & rest & Hp & -> & Hd & Hl & Hf).
      apply Matches_Seq. exists prefix, (d :: rest).
      split; [reflexivity|]. split.
      * apply Matches_Alt. destruct Hp as [-> | ->].
        -- left. apply Matches_Char. reflexivity.
        -- right. apply (MSeq (Char "0") (Char "0") ["0"%char] ["0"%char]);
             apply Matches_Char; reflexivity.
      * apply Matches_Seq. exists [d], rest.
        split; [reflexivity|]. split; [constructor; exact Hd|].
        apply Matches_Between_Class; [lia|auto].
Qed.

Lemma isWhite_separator (c : ascii) : JsNumber.isWhite c = true -> separator c = true.
Proof. intros H. unfold separator, space. rewrite H. reflexivity. Qed.

Lemma stripSeparators_blank (s : string) :
  JsNumber.allWhite s = true -> stripSeparators s = "".
Proof.
  induction s as [|c s IH]; [reflexivity|]. simpl. intros H.
  apply andb_true_iff in H as [Hc Hs]. rewrite (isWhite_separator c Hc). auto.
Qed.

Lemma validateField_phone (form : Form) (field : Element) :
  fieldName field = "phone" \/ fieldName field = "editPhone" ->
  fst (validateField form field) = test phonePattern (stripSeparators (el_value field)).
Proof.
  intros Hname.
  assert (E : validateField form field
              = if String.eqb (JsTrim.trim (el_value field)) ""
                then (false, Some "Phone number is required")
                else if negb (test phonePattern (stripSeparators (el_value field)))
                     then (false, Some "Enter a valid Kenyan (07/01) or intl number")
                     else (true, None)).
  { unfold validateField. destruct Hname as [-> | ->]; reflexivity. }
  rewrite E. destruct (String.eqb_spec (JsTrim.trim (el_value field)) "") as [Hblank | _].
  - apply trim_empty in Hblank. rewrite (stripSeparators_blank _ Hblank). reflexivity.
  - destruct (test phonePattern (stripSeparators (el_value field))); reflexivity.
Qed.

Lemma stripSeparators_chars (s : string) :
  list_ascii_of_string (stripSeparators s)
  = List.filter (fun c => negb (separator c)) (list_ascii_of_string s).
Proof.
  induction s as [|c s IH]; [reflexivity|]. simpl.
  destruct (separator c); simpl; rewrite IH; reflexivity.
Qed.

End ValidationFacts.

Section ValidationResults.
Import RegExp Validation.

Lemma oneOrSeven_digit (d : ascii) : oneOrSeven d = true -> digit d = true.
Proof.
  unfold oneOrSeven. intros H. apply orb_true_iff in H as [H|H];
    apply Ascii.eqb_eq in H; subst; reflexivity.
Qed.

Lemma nonZeroDigit_digit (d : ascii) : nonZeroDigit d = true -> digit d = true.
Proof.
  unfold nonZeroDigit, digit. cbv zeta. intros H.
  apply andb_true_iff in H as [H1 H2]. apply andb_true_iff. split; [|exact H2].
  apply Nat.leb_le in H1. apply Nat.leb_le. lia.
Qed.

Lemma validateField_shows (form : Form) (field : Element) :
  fst (validateField form field) = true <-> snd (validateField form field) = None.
Proof.
  unfold validateField.
  repeat match goal with
         | |- context [if ?b then _ else _] => destruct b
         end; simpl; split; congruence.
Qed.

Lemma validateField_unknown (form : Form) (field : Element) :
  oneOf knownNames (fieldName field) = false ->
  validateField form field = (true, None).
Proof.
  unfold validateField. set (n := fieldName field). unfold oneOf, knownNames.
  cbn [existsb]. intros H.
  repeat match type of H with
         | (_ || _)%bool = false => apply orb_false_iff in H as [?E H]
         end.
  repeat match goal with
         | E : String.eqb n _ = false |- _ => rewrite E; clear E
         end.
  reflexivity.
Qed.

Lemma validateField_length (form : Form) (field : Element) (least : nat)
      (required short : string) :
  (0 < least)%nat ->
  validateField form field
  = (if String.eqb (JsTrim.trim (el_value field)) "" then (false, Some required)
     else if (String.length (JsTrim.trim (el_value field)) <? least)%nat
          then (false, Some short) else (true, None)) ->
  fst (validateField form field) = true <->
  (least <= String.length (JsTrim.trim (el_value field)))%nat.
Proof.
  intros Hpos ->.
  destruct (String.eqb_spec (JsTrim.trim (el_value field)) "") as [-> | _].
  - simpl. split; [discriminate|lia].
  - destruct (Nat.ltb_spec (String.length (JsTrim.trim (el_value field))) least);
      simpl; split; try discriminate; try lia; reflexivity.
Qed.

Lemma validateForm_fold (form : Form) (fields : list Element) (isValid : bool)
      (shown : Shown) :
  fold_left
    (fun (acc : bool * Shown) field =>
       let (isValid, shown) := acc in
       (if negb (fst (validateField form field)) then false else isValid,
        shown ++ shownBy form field))
    fields (isValid, shown)
  = (isValid && forallb (fun f => fst (validateField form f)) fields,
     shown ++ List.concat (List.map (shownBy form) fields)).
Proof.
  revert isValid shown. induction fields as [|f fields IH]; intros isValid shown.
  - simpl. rewrite andb_true_r, app_nil_r. reflexivity.
  - cbn [fold_left forallb List.map List.concat]. rewrite IH.
    rewrite <- app_assoc. f_equal.
    destruct (fst (validateField form f)), isValid; reflexivity.
Qed.

Lemma validateForm_eq (form : Form) :
  validateForm form
  = (forallb (fun f => fst (validateField form f)) (validated form),
     List.concat (List.map (shownBy form) (validated form))).
Proof. unfold validateForm. rewrite validateForm_fold. reflexivity. Qed.

Lemma shownBy_empty (form : Form) (f : Element) :
  shownBy form f = [] <-> fst (validateField form f) = true.
Proof.
  rewrite validateField_shows. unfold shownBy.
  destruct (snd (validateField form f)); split; congruence.
Qed.

Lemma concat_shown_empty (form : Form) (fields : list Element) :
  List.concat (List.map (shownBy form) fields) = [] <->
  forallb (fun f => fst (validateField form f)) fields = true.
Proof.
  induction fields as [|f fields IH]; [simpl; tauto|].
  cbn [List.map List.concat forallb]. rewrite andb_true_iff, <- IH, <- shownBy_empty.
  split.
  - intros H. apply app_eq_nil in H. exact H.
  - intros [-> ->]. reflexivity.
Qed.

Lemma groupChecked_spec (form : Form) (name : string) :
  groupChecked form name = true <->
  exists r, In r form /\ isInput r = true /\ el_name r = name /\ el_checked r = true.
Proof.
  unfold groupChecked. rewrite existsb_exists. split.
  - intros (r & Hin & H). apply andb_true_iff in H as [H Hc].
    apply andb_true_iff in H as [Hi Hn]. apply String.eqb_eq in Hn. eauto.
  - intros (r & Hin & Hi & Hn & Hc). exists r. split; [exact Hin|].
    rewrite Hi, Hc. apply String.eqb_eq in Hn. rewrite Hn. reflexivity.
Qed.

Lemma validateField_contact (form : Form) (field : Element) :
  oneOf ["contact"; "editContact"] (el_name field) = true ->
  fst (validateField form field) = groupChecked form (el_name field).
Proof.
  intros H.
  assert (Hname : fieldName field = el_name field).
  { unfold fieldName. destruct (String.eqb_spec (el_name field) "") as [E|_];
      [|reflexivity]. rewrite E in H. discriminate H. }
  unfold validateField. rewrite Hname.
  unfold oneOf in H. cbn [existsb] in H. rewrite orb_false_r in H.
  apply orb_true_iff in H as [H|H]; apply String.eqb_eq in H; rewrite H;
    cbn [oneOf existsb String.eqb Ascii.eqb Bool.eqb orb andb];
    destruct (groupChecked form _); reflexivity.
Qed.

End ValidationResults.

(** X20: an email field is accepted exactly when its trimmed value is a
    non-empty run, an [@], a non-empty run, a dot and a non-empty run, the
    runs free of white space and of [@] (dots are allowed in them).  An
    accepted value therefore has exactly one [@], no white space inside and
    at least five characters; white space around it does not count. *)
Theorem X20_email_accepted (form : Validation.Form) (field : Validation.Element) :
  Validation.fieldName field = "email" \/ Validation.fieldName field = "editEmail" ->
  let chars := list_ascii_of_string (JsTrim.trim (Validation.el_value field)) in
  (fst (Validation.validateField form field) = true <-> Validation.emailShape chars) /\
  (fst (Validation.validateField form field) = true ->
   List.length (List.filter (Ascii.eqb "@") chars) = 1%nat /\
   Forall (fun x => Validation.space x = false) chars /\
   (5 <= List.length chars)%nat).
Proof.
  intros Hname chars.
  assert (Hiff : fst (Validation.validateField form field) = true
                 <-> Validation.emailShape chars).
  { rewrite (validateField_email form field Hname), test_spec.
    apply emailPattern_spec. }
  split; [exact Hiff|]. intros Hvalid. apply Hiff in Hvalid.
  destruct Hvalid as (a & b & c & E & Na & Nb & Nc & Fa & Fb & Fc).
  fold chars. rewrite E. split; [|split].
  - rewrite filter_app. cbn [List.filter].
    change (Ascii.eqb "@" "@") with true. rewrite filter_app. cbn [List.filter].
    change (Ascii.eqb "@" ".") with false.
    rewrite !plain_no_at by assumption. reflexivity.
  - apply Forall_app. split; [apply plain_no_space, Fa|].
    constructor; [reflexivity|]. apply Forall_app. split; [apply plain_no_space, Fb|].
    constructor; [reflexivity|]. apply plain_no_space, Fc.
  - rewrite length_app. cbn [List.length]. rewrite length_app. cbn [List.length].
    destruct a; [contradiction|]. destruct b; [contradiction|].
    destruct c; [contradiction|]. cbn [List.length]. lia.
Qed.

Lemma X20_email_accepted_witness :
  List.length
    (List.filter (Ascii.eqb "@")
       (list_ascii_of_string (JsTrim.trim " ada@example.org "))) = 1%nat.
Proof.
  apply (X20_email_accepted SampleForm.ticketForm
           (SampleForm.text "email" " ada@example.org ")).
  - left. reflexivity.
  - reflexivity.
Defined.

(** X21: a phone field is accepted exactly when its value, with white
    space, hyphens and parentheses taken out, is [0], then [1] or [7], then
    eight digits, or is [+] or [00], then a digit from 1 to 9, then six to
    fourteen digits.  So an accepted number has 8 to 17 characters left, all
    digits after a leading [+] or [0]; and two values that differ only in
    those separators are accepted or rejected alike. *)
Theorem X21_phone_accepted (form : Validation.Form) (field : Validation.Element) :
  Validation.fieldName field = "phone" \/ Validation.fieldName field = "editPhone" ->
  let digits :=
    list_ascii_of_string (Validation.stripSeparators (Validation.el_value field)) in
  (fst (Validation.validateField form field) = true <->
   Validation.localShape digits \/ Validation.internationalShape digits) /\
  (fst (Validation.validateField form field) = true ->
   (8 <= List.length digits <= 17)%nat /\
   exists first more,
     digits = first :: more /\ (first = "+"%char \/ first = "0"%char) /\
     Forall (fun x => Validation.digit x = true) more) /\
  (forall other,
     Validation.fieldName other = "phone" \/ Validation.fieldName other = "editPhone" ->
     Validation.stripSeparators (Validation.el_value other)
     = Validation.stripSeparators (Validation.el_value field) ->
     fst (Validation.validateField form other)
     = fst (Validation.validateField form field)).
Proof.
  intros Hname digits.
  assert (Hiff : fst (Validation.validateField form field) = true <->
                 Validation.localShape digits \/ Validation.internationalShape digits).
  { rewrite (validateField_phone form field Hname), test_spec.
    apply phonePattern_spec. }
  split; [exact Hiff|]. split.
  - intros Hvalid. apply Hiff in Hvalid.
    destruct Hvalid as [(d & rest & E & Hd & Hl & Hf)
                       |(prefix & d & rest & Hp & E & Hd & Hl & Hf)].
    + rewrite E. cbn [List.length]. split; [lia|].
      exists "0"%char, (d :: rest). split; [reflexivity|]. split; [right; reflexivity|].
      constructor; [apply oneOrSeven_digit, Hd|exact Hf].
    + rewrite E. destruct Hp as [-> | ->]; cbn [app List.length].
      * split; [lia|]. exists "+"%char, (d :: rest).
        split; [reflexivity|]. split; [left; reflexivity|].
        constructor; [apply nonZeroDigit_digit, Hd|exact Hf].
      * split; [lia|]. exists "0"%char, ("0"%char :: d :: rest).
        split; [reflexivity|]. split; [right; reflexivity|].
        constructor; [reflexivity|].
        constructor; [apply nonZeroDigit_digit, Hd|exact Hf].
  - intros other Hother Hsame.
    rewrite (validateField_phone form other Hother),
            (validateField_phone form field Hname), Hsame. reflexivity.
Qed.

Lemma X21_phone_accepted_witness :
  fst (Validation.validateField SampleForm.ticketForm
         (SampleForm.text "phone" "+254712345678"))
  = fst (Validation.validateField SampleForm.ticketForm
           (SampleForm.text "phone" "+254 (712) 345-678")).
Proof.
  apply (X21_phone_accepted SampleForm.ticketForm
           (SampleForm.text "phone" "+254 (712) 345-678")).
  - left. reflexivity.
  - left. reflexivity.
  - reflexivity.
Defined.

(** X22: [validateField] returns [false] exactly when it shows a message.
    A field whose name it has no case for is accepted with none; a name
    field is accepted exactly when its trimmed value has two characters or
    more, a message field when it has ten or more. *)
Theorem X22_validateField_result (form : Validation.Form) (field : Validation.Element) :
  (fst (Validation.validateField form field) = true <->
   snd (Validation.validateField form field) = None) /\
  (Validation.oneOf Validation.knownNames (Validation.fieldName field) = false ->
   Validation.validateField form field = (true, None)) /\
  (Validation.oneOf ["fullName"; "editFullName"] (Validation.fieldName field) = true ->
   (fst (Validation.validateField form field) = true <->
    (2 <= String.length (JsTrim.trim (Validation.el_value field)))%nat)) /\
  (Validation.oneOf ["message"; "editMessage"] (Validation.fieldName field) = true ->
   (fst (Validation.validateField form field) = true <->
    (10 <= String.length (JsTrim.trim (Validation.el_value field)))%nat)).
Proof.
  split; [apply validateField_shows|]. split; [apply validateField_unknown|]. split.
  - intros H.
    eapply (validateField_length form field 2); [lia|].
    unfold Validation.validateField. rewrite H. reflexivity.
  - intros H.
    eapply (validateField_length form field 10); [lia|].
    unfold Validation.validateField.
    unfold Validation.oneOf in H. cbn [existsb] in H. rewrite orb_false_r in H.
    apply orb_true_iff in H as [H|H]; apply String.eqb_eq in H; rewrite H;
      reflexivity.
Qed.

(** X23: [validateForm] validates every field it selects, also after one
    was rejected: the messages shown are those of all the rejected fields in
    order, and the form is accepted exactly when every selected field is,
    which is exactly when no message is shown.  An accepted form has every
    control that is no radio button accepted, and, if an element is named
    [contact] or [editContact], a checked input of that name. *)
Theorem X23_validateForm (form : Validation.Form) :
  let fields := Validation.validated form in
  (fst (Validation.validateForm form) = true <->
   Forall (fun f => fst (Validation.validateField form f) = true) fields) /\
  snd (Validation.validateForm form)
  = List.concat (List.map (Validation.shownBy form) fields) /\
  (fst (Validation.validateForm form) = true <->
   snd (Validation.validateForm form) = []) /\
  (fst (Validation.validateForm form) = true ->
   forall f, In f form -> Validation.control f = true ->
             fst (Validation.validateField form f) = true) /\
  (fst (Validation.validateForm form) = true ->
   forall e, In e form ->
             Validation.oneOf ["contact"; "editContact"] (Validation.el_name e) = true ->
   exists r, In r form /\ Validation.isInput r = true /\
             Validation.el_checked r = true /\
             Validation.oneOf ["contact"; "editContact"] (Validation.el_name r) = true).
Proof.
  intros fields. rewrite validateForm_eq. cbn [fst snd]. fold fields.
  assert (Hall : forallb (fun f => fst (Validation.validateField form f)) fields = true
                 <-> Forall (fun f => fst (Validation.validateField form f) = true) fields).
  { rewrite forallb_forall, List.Forall_forall. tauto. }
  split; [exact Hall|]. split; [reflexivity|].
  split; [symmetry; apply concat_shown_empty|]. split.
  - intros Hvalid f Hin Hcontrol. apply Hall in Hvalid.
    rewrite List.Forall_forall in Hvalid. apply Hvalid.
    unfold fields, Validation.validated. apply in_or_app. left.
    apply filter_In. split; assumption.
  - intros Hvalid e Hin He. apply Hall in Hvalid.
    rewrite List.Forall_forall in Hvalid.
    destruct (List.find (fun e => Validation.oneOf ["contact"; "editContact"]
                                                   (Validation.el_name e)) form)
      as [contactField|] eqn:Hfind.
    + assert (Hc := Hfind). apply find_some in Hc as [Hcin Hcname].
      assert (Hv : fst (Validation.validateField form contactField) = true).
      { apply Hvalid. unfold fields, Validation.validated. rewrite Hfind.
        apply in_or_app. right. apply in_or_app. left. left. reflexivity. }
      rewrite (validateField_contact form contactField Hcname) in Hv.
      apply groupChecked_spec in Hv as (r & Hr & Hi & Hn & Hch).
      exists r. rewrite Hn. auto.
    + exfalso. apply (find_none _ _ Hfind) in Hin. cbv beta in Hin. congruence.
Qed.

Example validateForm_sample :
  Validation.validateForm SampleForm.ticketForm = (true, []) /\
  Validation.validateForm SampleForm.badForm
  = (false, [("fullName", "Must be at least 2 characters");
             ("email", "Please enter a valid email");
             ("contact", "Please select a contact method")]).
Proof. split; reflexivity. Qed.

(** ** The query of the server-side grid *)

Example buildODataQuery_sample :
  OData.buildODataQuery SampleQuery.columns (SampleQuery.settings SampleQuery.rules)
                        SampleQuery.state
  = Some "?$top=10&$skip=20&$count=true&$filter=contains(subject, 'bug') and priority eq 2&$orderby=subject asc".
Proof. vm_compute. reflexivity. Qed.

Section QueryFacts.
Import OldTable OldTableApi OData.

Lemma filterPart_throws (columns : list Column) (filter : FilterRule) :
  filterPart columns filter = None <-> throwing columns filter.
Proof.
  unfold filterPart, throwing.
  destruct (String.eqb_spec (dataTypeOf columns filter) "number") as [E|N].
  - cbn. split; [discriminate|]. intros [H _]. contradiction.
  - destruct (f_value filter) as [| | | |s]; cbn; split; intros H;
      try discriminate H; try (split; [exact N|discriminate]); try reflexivity.
    destruct H as [_ H]. exfalso. apply (H s). reflexivity.
Qed.

Lemma mapParts_throws (columns : list Column) (filters : list FilterRule) :
  mapParts columns filters = None <-> Exists (throwing columns) filters.
Proof.
  induction filters as [|f filters IH]; cbn [mapParts].
  - split; [discriminate|]. intros H. inversion H.
  - rewrite Exists_cons, <- IH, <- filterPart_throws.
    destruct (filterPart columns f) as [part|]; cbn.
    + destruct (mapParts columns filters); cbn; split;
        try discriminate; try tauto.
      intros [H|H]; discriminate.
    + split; auto.
Qed.

Lemma prefixed_nonempty (c : ascii) (r x : string) : String.eqb (String c r +:+ x) "" = false.
Proof. reflexivity. Qed.

Lemma suffixed_nonempty (a : string) (c : ascii) (r : string) :
  String.eqb (a +:+ String c r) "" = false.
Proof. destruct a; reflexivity. Qed.

Lemma filterPart_constrains (columns : list Column) (filter : FilterRule) (part : string) :
  filterPart columns filter = Some part ->
  negb (String.eqb part "") = constrains columns filter.
Proof.
  unfold filterPart, constrains.
  destruct (if String.eqb (dataTypeOf columns filter) "number"
            then Some (ToString (f_value filter))
            else match f_value filter with
                 | VStr s => Some ("'" +:+ Html.escapeHtml s +:+ "'")
                 | _ => None
                 end) as [value|]; cbn [mbind option_bind]; [|discriminate].
  intros H. injection H as <-.
  destruct (String.eqb (f_relation filter) "equals").
  - change (" eq " +:+ value) with (String " " ("eq " +:+ value)).
    rewrite suffixed_nonempty. reflexivity.
  - destruct (String.eqb (dataTypeOf columns filter) "string");
      destruct (String.eqb (f_relation filter) "contains");
      destruct (String.eqb (f_relation filter) "startsWith");
      destruct (String.eqb (f_relation filter) "endsWith"); reflexivity.
Qed.

Lemma mapParts_constraining (columns : list Column) (filters : list FilterRule)
      (parts : list string) :
  mapParts columns filters = Some parts ->
  mapParts columns (List.filter (constrains columns) filters)
  = Some (List.filter (fun part => negb (String.eqb part "")) parts).
Proof.
  revert parts. induction filters as [|f filters IH]; intros parts; cbn [mapParts].
  - intros H. injection H as <-. reflexivity.
  - destruct (filterPart columns f) as [part|] eqn:Hpart; cbn; [|discriminate].
    destruct (mapParts columns filters) as [rest|]; cbn; [|discriminate].
    intros H. injection H as <-. cbn [List.filter].
    rewrite (filterPart_constrains columns f part Hpart).
    destruct (constrains columns f).
    + cbn [mapParts]. rewrite Hpart, (IH rest eq_refl). reflexivity.
    + apply IH. reflexivity.
Qed.

Lemma filter_idempotent {A : Type} (f : A -> bool) (l : list A) :
  List.filter f (List.filter f l) = List.filter f l.
Proof.
  induction l as [|x l IH]; [reflexivity|]. cbn [List.filter].
  destruct (f x) eqn:E; [cbn [List.filter]; rewrite E, IH|]; auto.
Qed.

Lemma unknown_never_constrains (columns : list Column) (filters : list FilterRule) :
  Forall unknownRelation filters -> List.filter (constrains columns) filters = [].
Proof.
  induction 1 as [|f filters (N1 & N2 & N3 & N4) _ IH]; [reflexivity|].
  assert (E : constrains columns f = false).
  { unfold constrains. apply String.eqb_neq in N1, N2, N3, N4.
    rewrite N1, N2, N3, N4, andb_false_r. reflexivity. }
  cbn [List.filter]. rewrite E. exact IH.
Qed.

Lemma buildODataQuery_constraining (columns : list Column) (settings : Settings)
      (state : State) (q : string) :
  buildODataQuery columns settings state = Some q ->
  buildODataQuery columns
    (withFilters (List.filter (constrains columns) (filters settings)) settings) state
  = Some q.
Proof.
  unfold buildODataQuery, queryParams. destruct settings as [d src ss fs so pg].
  cbn [filters sorters pagination withFilters].
  destruct (mapParts columns fs) as [parts|] eqn:Hparts; cbn [mbind option_bind];
    [|discriminate].
  rewrite (mapParts_constraining columns fs parts Hparts). cbn [mbind option_bind].
  rewrite filter_idempotent. auto.
Qed.

End QueryFacts.

(** X24: the query of the server-side grid.  Building it throws exactly
    when some rule on a column that is no number column has a value that is
    no string, whatever the rule's relation.  When it is built it is never
    empty: it starts with [?] and always asks for the count.  Only the
    rules with [equals], or with one of the three text relations on a
    [string] column, put a condition into it: the query is the one of those
    rules alone, and rules with relations the grid does not know leave it as
    it is without any rule. *)
Theorem X24_buildODataQuery (columns : list OData.Column)
        (settings : OldTable.Settings) (state : OldTable.State) :
  (OData.buildODataQuery columns settings state = None <->
   Exists (OData.throwing columns) (OldTable.filters settings)) /\
  (forall q, OData.buildODataQuery columns settings state = Some q ->
     (exists params, q = "?" +:+ String.concat "&" params /\ In "$count=true" params) /\
     OData.buildODataQuery columns
       (OldTableApi.withFilters
          (List.filter (OData.constrains columns) (OldTable.filters settings)) settings)
       state = Some q /\
     (Forall unknownRelation (OldTable.filters settings) ->
      OData.buildODataQuery columns (OldTableApi.withFilters [] settings) state
      = Some q)).
Proof.
  split.
  - rewrite <- mapParts_throws. unfold OData.buildODataQuery, OData.queryParams.
    destruct (OData.mapParts columns (OldTable.filters settings)); cbn;
      split; congruence.
  - intros q Hq. split; [|split].
    + unfold OData.buildODataQuery in Hq.
      destruct (OData.queryParams columns settings state) as [params|] eqn:Hparams;
        cbn in Hq; [|discriminate].
      assert (Hin : In "$count=true" params).
      { unfold OData.queryParams in Hparams.
        destruct (OData.mapParts columns (OldTable.filters settings)); cbn in Hparams;
          [|discriminate].
        injection Hparams as <-. apply in_or_app. right. left. reflexivity. }
      exists params. split; [|exact Hin].
      destruct params as [|p params]; [destruct Hin|].
      cbn in Hq. injection Hq as <-. reflexivity.
    + apply buildODataQuery_constraining, Hq.
    + intros Hunknown.
      rewrite <- (unknown_never_constrains columns _ Hunknown).
      apply buildODataQuery_constraining, Hq.
Qed.
